(** * Aurora dashboard backend: a shallow embedding of [server.js]

    The server polls NOAA SWPC, FMI and Open-Meteo, reshapes what it gets into
    small JSON payloads, keeps them in an in-memory cache with a time to live
    and serves them over HTTP.  This file embeds the functions of [server.js]
    that the specification talks about and settles its statements on them.

    Conventions of the embedding:
    - a JavaScript number is an IEEE binary64 value, here a primitive [float];
    - a JavaScript string is a [string]; its characters stand for code units
      below 256, which covers every literal of the source, and case
      conversion is modelled on the ASCII letters;
    - [null] and [undefined] results of numeric helpers are [None];
    - a time value (milliseconds since the epoch) is an integer, and an
      invalid date is [None];
    - what the JavaScript runtime provides and the source merely calls
      ([parseFloat], the implementation-defined part of [Date.parse], the
      local time zone, number formatting, URL serialisation, [Math.sin],
      [Math.cos], the draws of [Math.random]) is a field of the class
      [JsHost];
    - a fetcher takes what it reads from the outside (the clock, the answers
      of the upstream services) as arguments and returns its payload with the
      new state of the server. *)

From Stdlib Require Import ZArith Lia Bool List Ascii String Sorted.
From Stdlib Require Import PrimFloat FloatOps SpecFloat.
From stdpp Require Import base option list strings gmap.

Set Warnings "-inexact-float".
Local Open Scope string_scope.
Local Open Scope Z_scope.

(** ** JavaScript numbers *)

Module JsNum.

Definition number := float.

(** [Number.isFinite] on a number. *)
Definition isFinite (x : number) : bool := PrimFloat.is_finite x.

(** The integer [z] as a number ([|z|] below [2^53] in every use). *)
Definition ofZ (neg_zero : bool) (z : Z) : number :=
  SF2Prim (binary_normalize prec emax z 0 neg_zero).

(** [Math.round]: the closest integer, ties towards [+∞]; [NaN], the
    infinities and both zeros are returned as they are, and a result of zero
    keeps the sign of the argument. *)
Definition Math_round (x : number) : number :=
  match Prim2SF x with
  | S754_finite s m e =>
      if (0 <=? e)%Z then x
      else
        let n := if s then Z.neg m else Z.pos m in
        let k := (- e)%Z in
        ofZ s ((2 * n + 2 ^ k) / 2 ^ (k + 1))
  | _ => x
  end.

(** [Math.max] and [Math.min] of two numbers: [NaN] if an argument is,
    and [-0] below [+0]. *)
Definition Math_max (a b : number) : number :=
  if PrimFloat.is_nan a || PrimFloat.is_nan b then nan
  else if (a <? b)%float then b
  else if (b <? a)%float then a
  else if PrimFloat.get_sign a then b else a.

Definition Math_min (a b : number) : number :=
  if PrimFloat.is_nan a || PrimFloat.is_nan b then nan
  else if (a <? b)%float then a
  else if (b <? a)%float then b
  else if PrimFloat.get_sign a then a else b.

(** [Math.floor(x)] as an integer; [None] for [NaN] and the infinities. *)
Definition floorZ (x : number) : option Z :=
  match Prim2SF x with
  | S754_zero _ => Some 0
  | S754_finite s m e =>
      let n := if s then Z.neg m else Z.pos m in
      Some (if (0 <=? e)%Z then n * 2 ^ e else n / 2 ^ (- e))
  | _ => None
  end.

(** [round1] and [round2] of the source; the argument is a number or [null]. *)
Definition round1 (v : option number) : option number :=
  match v with
  | None => None
  | Some x => Some (Math_round (x * 10) / 10)%float
  end.

Definition round2 (v : option number) : option number :=
  match v with
  | None => None
  | Some x => Some (Math_round (x * 100) / 100)%float
  end.

End JsNum.
Export JsNum.

(** ** JavaScript strings *)

Module JsString.

Definition codeOf (c : ascii) : Z := Z.of_N (N_of_ascii c).

Definition isDigit (c : ascii) : bool := (48 <=? codeOf c) && (codeOf c <=? 57).

Definition digitVal (c : ascii) : Z := codeOf c - 48.

(** White space of [String.prototype.trim] among the code units below 256. *)
Definition isWhite (c : ascii) : bool :=
  let n := codeOf c in
  ((9 <=? n) && (n <=? 13)) || (n =? 32) || (n =? 160).

Definition upperChar (c : ascii) : ascii :=
  let n := codeOf c in
  if (97 <=? n) && (n <=? 122) then ascii_of_N (Z.to_N (n - 32)) else c.

Definition lowerChar (c : ascii) : ascii :=
  let n := codeOf c in
  if (65 <=? n) && (n <=? 90) then ascii_of_N (Z.to_N (n + 32)) else c.

Fixpoint mapChars (f : ascii -> ascii) (s : string) : string :=
  match s with
  | EmptyString => EmptyString
  | String c r => String (f c) (mapChars f r)
  end.

(** [s.toUpperCase()] and [s.toLowerCase()]: the ASCII letters change case,
    every other character is kept. *)
Definition toUpperCase (s : string) : string := mapChars upperChar s.
Definition toLowerCase (s : string) : string := mapChars lowerChar s.

Definition chars (s : string) : list ascii := list_ascii_of_string s.
Definition ofChars (l : list ascii) : string := string_of_list_ascii l.

Fixpoint dropWhite (l : list ascii) : list ascii :=
  match l with
  | c :: r => if isWhite c then dropWhite r else l
  | [] => []
  end.

(** [s.trim()]. *)
Definition trim (s : string) : string :=
  ofChars (rev (dropWhite (rev (dropWhite (chars s))))).

(** [s.split(sep)] for a one-character separator: never empty, the empty
    string splits into one empty piece. *)
Fixpoint splitOn (sep : ascii) (s : string) : list string :=
  match s with
  | EmptyString => [EmptyString]
  | String c r =>
      if Ascii.eqb c sep then EmptyString :: splitOn sep r
      else match splitOn sep r with
           | h :: t => String c h :: t
           | [] => [String c EmptyString]
           end
  end.

(** [parts.join(sep)]. *)
Fixpoint join (sep : string) (l : list string) : string :=
  match l with
  | [] => EmptyString
  | [x] => x
  | x :: r => x ++ sep ++ join sep r
  end.

(** [s.replace(a, b)] for a one-character pattern: the first occurrence only. *)
Fixpoint replaceFirst (a b : ascii) (s : string) : string :=
  match s with
  | EmptyString => EmptyString
  | String c r => if Ascii.eqb c a then String b r else String c (replaceFirst a b r)
  end.

Fixpoint contains (a : ascii) (s : string) : bool :=
  match s with
  | EmptyString => false
  | String c r => Ascii.eqb c a || contains a r
  end.

(** [s.startsWith(p)] and [s.includes(p)]. *)
Fixpoint startsWith (p s : string) : bool :=
  match p, s with
  | EmptyString, _ => true
  | String a p', String c s' => Ascii.eqb a c && startsWith p' s'
  | String _ _, EmptyString => false
  end.

Fixpoint includes (p s : string) : bool :=
  startsWith p s ||
  match s with
  | EmptyString => false
  | String _ r => includes p r
  end.

(** [String(n).padStart(2, '0')] for a non-negative integer. *)
Definition digitChar (d : Z) : ascii := ascii_of_N (Z.to_N (48 + d)).

Fixpoint digitsFuel (fuel : nat) (n : Z) (acc : list ascii) : list ascii :=
  match fuel with
  | O => acc
  | S f =>
      let acc' := digitChar (n mod 10) :: acc in
      if n / 10 =? 0 then acc' else digitsFuel f (n / 10) acc'
  end.

(** Decimal digits of a non-negative integer ([String(n)]). *)
Definition decimal (n : Z) : string :=
  ofChars (digitsFuel (S (Z.to_nat (Z.log2 n))) n []).

Definition padStart (width : nat) (s : string) : string :=
  ofChars (List.repeat "0"%char (width - String.length s)) ++ s.

Definition pad (n : Z) : string := padStart 2 (decimal n).

End JsString.
Export JsString.

(** ** The JavaScript runtime *)

(** What the source calls and does not define.  [legacyDateParse] is what
    [Date.parse] does with a string that is not one of the forms of the
    ECMAScript date-time format read by [parseIso] below (outside the format
    ECMAScript leaves the reading to the implementation); [tzOffsetMin] is
    the offset of the host's local time zone, in minutes east of UTC, taken
    as constant;
    [Math_random seed i] is the [i]-th draw of [Math.random] in a call whose
    draws are named by [seed].  Of [parseFloat] only its value on the two
    literals the source itself passes to it is fixed. *)
Class JsHost := {
  parseFloat : string -> number;
  legacyDateParse : string -> option Z;
  tzOffsetMin : Z;
  numberToString : number -> string;
  toFixed : nat -> number -> string;
  urlSearch : list (string * string) -> string;
  Math_sin : number -> number;
  Math_cos : number -> number;
  Math_random : nat -> nat -> number;
  parseFloat_default_lat : parseFloat "60.4728" = 60.4728%float;
  parseFloat_default_lon : parseFloat "26.3042" = 26.3042%float;
}.

(** ** Dates *)

Module JsDate.

Definition msPerMinute : Z := 60000.
Definition msPerHour : Z := 3600000.
Definition msPerDay : Z := 86400000.

Definition isLeap (y : Z) : bool :=
  ((y mod 4 =? 0) && negb (y mod 100 =? 0)) || (y mod 400 =? 0).

Definition daysInMonth (y m : Z) : Z :=
  if m =? 2 then (if isLeap y then 29 else 28)
  else if (m =? 4) || (m =? 6) || (m =? 9) || (m =? 11) then 30
  else 31.

(** Days from 1970-01-01 to the civil date [y]-[m]-[d] (proleptic Gregorian). *)
Definition daysFromCivil (y m d : Z) : Z :=
  let y' := if m <=? 2 then y - 1 else y in
  let era := y' / 400 in
  let yoe := y' - era * 400 in
  let doy := (153 * (if 2 <? m then m - 3 else m + 9) + 2) / 5 + d - 1 in
  let doe := yoe * 365 + yoe / 4 - yoe / 100 + doy in
  era * 146097 + doe - 719468.

Definition civilFromDays (z : Z) : Z * Z * Z :=
  let z' := z + 719468 in
  let era := z' / 146097 in
  let doe := z' - era * 146097 in
  let yoe := (doe - doe / 1460 + doe / 36524 - doe / 146096) / 365 in
  let doy := doe - (365 * yoe + yoe / 4 - yoe / 100) in
  let mp := (5 * doy + 2) / 153 in
  let d := doy - (153 * mp + 2) / 5 + 1 in
  let m := if mp <? 10 then mp + 3 else mp - 9 in
  let y := yoe + era * 400 in
  (if m <=? 2 then y + 1 else y, m, d).

(** The fields of a date-time string. *)
Record civil := Civil {
  year : Z; month : Z; day : Z;
  hour : Z; minute : Z; second : Z; millis : Z
}.

(** The offset part of a date-time string: absent, [Z], or [±HH:mm] (in
    minutes east of UTC). *)
Inductive zone := ZoneAbsent | ZoneUtc | ZoneOffset (minutes : Z).

Definition validCivil (c : civil) : bool :=
  (1 <=? month c) && (month c <=? 12) &&
  (1 <=? day c) && (day c <=? daysInMonth (year c) (month c)) &&
  (hour c <=? 23) && (minute c <=? 59) && (second c <=? 59).

(** The time value of the civil fields read as UTC. *)
Definition utcMillis (c : civil) : Z :=
  daysFromCivil (year c) (month c) (day c) * msPerDay
  + hour c * msPerHour + minute c * msPerMinute + second c * 1000 + millis c.

(** [TimeClip]. *)
Definition timeClip (t : Z) : option Z :=
  if Z.abs t <=? 8640000000000000 then Some t else None.

(** *** The ECMAScript date-time string format

    The forms with a four-digit year and a full date: [YYYY-MM-DD], or
    [YYYY-MM-DDTHH:mm] with optional [:ss] and [.sss], followed by nothing,
    [Z] or [±HH:mm]. *)

Definition num2 (l : list ascii) : option (Z * list ascii) :=
  match l with
  | a :: b :: r =>
      if isDigit a && isDigit b then Some (10 * digitVal a + digitVal b, r) else None
  | _ => None
  end.

Definition num3 (l : list ascii) : option (Z * list ascii) :=
  match l with
  | a :: r =>
      if isDigit a then
        match num2 r with
        | Some (v, r') => Some (100 * digitVal a + v, r')
        | None => None
        end
      else None
  | _ => None
  end.

Definition num4 (l : list ascii) : option (Z * list ascii) :=
  match num2 l with
  | Some (hi, r) =>
      match num2 r with
      | Some (lo, r') => Some (100 * hi + lo, r')
      | None => None
      end
  | None => None
  end.

Definition expect (c : ascii) (l : list ascii) : option (list ascii) :=
  match l with
  | a :: r => if Ascii.eqb a c then Some r else None
  | [] => None
  end.

(** The offset at the end of a date-time string. *)
Definition parseZone (l : list ascii) : option zone :=
  match l with
  | [] => Some ZoneAbsent
  | c :: r =>
      if Ascii.eqb c "Z" then (match r with [] => Some ZoneUtc | _ => None end)
      else if Ascii.eqb c "+" || Ascii.eqb c "-" then
        match num2 r with
        | Some (hh, r1) =>
            match expect ":" r1 with
            | Some r2 =>
                match num2 r2 with
                | Some (mm, []) =>
                    if (hh <=? 23) && (mm <=? 59) then
                      let off := hh * 60 + mm in
                      Some (ZoneOffset (if Ascii.eqb c "-" then - off else off))
                    else None
                | _ => None
                end
            | None => None
            end
        | None => None
        end
      else None
  end.

(** Seconds and milliseconds, when present, then the offset. *)
Definition parseSeconds (l : list ascii) : option (Z * Z * zone) :=
  match expect ":" l with
  | Some r =>
      match num2 r with
      | Some (s, r1) =>
          match expect "." r1 with
          | Some r2 =>
              match num3 r2 with
              | Some (ms, r3) => option_map (fun z => (s, ms, z)) (parseZone r3)
              | None => None
              end
          | None => option_map (fun z => (s, 0, z)) (parseZone r1)
          end
      | None => None
      end
  | None => option_map (fun z => (0, 0, z)) (parseZone l)
  end.

Definition parseTime (l : list ascii) : option (Z * Z * Z * Z * zone) :=
  match num2 l with
  | Some (h, r) =>
      match expect ":" r with
      | Some r1 =>
          match num2 r1 with
          | Some (mi, r2) =>
              option_map (fun '(s, ms, z) => (h, mi, s, ms, z)) (parseSeconds r2)
          | None => None
          end
      | None => None
      end
  | None => None
  end.

Definition parseDate (l : list ascii) : option (Z * Z * Z * list ascii) :=
  match num4 l with
  | Some (y, r) =>
      match expect "-" r with
      | Some r1 =>
          match num2 r1 with
          | Some (m, r2) =>
              match expect "-" r2 with
              | Some r3 => option_map (fun '(d, r4) => (y, m, d, r4)) (num2 r3)
              | None => None
              end
          | None => None
          end
      | None => None
      end
  | None => None
  end.

(** A date alone is read as UTC; a date-time without offset as local time. *)
Definition parseIso (s : string) : option (civil * zone) :=
  match parseDate (chars s) with
  | Some (y, m, d, []) => Some (Civil y m d 0 0 0 0, ZoneUtc)
  | Some (y, m, d, c :: r) =>
      if Ascii.eqb c "T" then
        option_map (fun '(h, mi, sec, ms, z) => (Civil y m d h mi sec ms, z)) (parseTime r)
      else None
  | None => None
  end.

End JsDate.
Export JsDate.

(** *** [Date] objects and the helpers of the source that use them *)

(** Start-up configuration read from the process environment:
    [TIME_OFFSET_MIN], an integer number of minutes ([0] when unset). *)
Class Config := { TIME_OFFSET_MIN : Z }.

Module Clock.
Section WithHost.
Context `{JsHost}.

(** The time value of a civil date-time under its zone. *)
Definition timeValue (c : civil) (z : zone) : Z :=
  match z with
  | ZoneUtc => utcMillis c
  | ZoneAbsent => utcMillis c - tzOffsetMin * msPerMinute
  | ZoneOffset off => utcMillis c - off * msPerMinute
  end.

(** [new Date(s)] for a string [s] ([Date.parse]): the ECMAScript format
    where the string is a valid instance of it, the host's own reading
    otherwise. *)
Definition newDate (s : string) : option Z :=
  match parseIso s with
  | Some (c, z) =>
      if validCivil c then timeClip (timeValue c z) else legacyDateParse s
  | None => legacyDateParse s
  end.

(** [new Date(ms)] for a number of milliseconds. *)
Definition newDateMs (ms : option Z) : option Z :=
  match ms with Some t => timeClip t | None => None end.

Definition yearString (y : Z) : string :=
  if (0 <=? y) && (y <=? 9999) then padStart 4 (decimal y)
  else (if y <? 0 then "-" else "+") ++ padStart 6 (decimal (Z.abs y)).

(** The ISO form of the time value [t]. *)
Definition isoString (t : Z) : string :=
  let '(y, m, dd) := civilFromDays (t / msPerDay) in
  let r := t mod msPerDay in
  yearString y ++ "-" ++ pad m ++ "-" ++ pad dd ++ "T"
  ++ pad (r / msPerHour) ++ ":" ++ pad (r mod msPerHour / msPerMinute)
  ++ ":" ++ pad (r mod msPerMinute / 1000)
  ++ "." ++ padStart 3 (decimal (r mod 1000)) ++ "Z".

(** [d.toISOString()]; [None] stands for the [RangeError] thrown on an
    invalid date. *)
Definition toISOString (d : option Z) : option string := option_map isoString d.

(** [d.getHours()], [d.getMinutes()], [d.getDate()], [d.getMonth()] in local
    time; [None] is [NaN]. *)
Definition localMs (d : option Z) : option Z :=
  option_map (fun t => t + tzOffsetMin * msPerMinute) d.
Definition getHours (d : option Z) : option Z :=
  option_map (fun t => t mod msPerDay / msPerHour) (localMs d).
Definition getMinutes (d : option Z) : option Z :=
  option_map (fun t => t mod msPerHour / msPerMinute) (localMs d).
Definition getDate (d : option Z) : option Z :=
  option_map (fun t => snd (civilFromDays (t / msPerDay))) (localMs d).
Definition getMonth (d : option Z) : option Z :=
  option_map (fun t => snd (fst (civilFromDays (t / msPerDay))) - 1) (localMs d).

(** [String(n).padStart(2, '0')] where [n] may be [NaN]. *)
Definition padNum (n : option Z) : string :=
  match n with Some v => pad v | None => "NaN" end.

(** [fmtHM(iso)]. *)
Definition fmtHM (iso : string) : string :=
  let d := newDate iso in
  padNum (getHours d) ++ ":" ++ padNum (getMinutes d).

(** [/[+\-]\d\d:?\d\d$/]: the string ends with a signed [HHmm] or [HH:mm]. *)
Definition endsWithOffset (s : string) : bool :=
  let isSign c := Ascii.eqb c "+" || Ascii.eqb c "-" in
  match rev (chars s) with
  | d4 :: d3 :: r =>
      isDigit d4 && isDigit d3 &&
      match r with
      | c :: d2 :: d1 :: sg :: _ =>
          (Ascii.eqb c ":" && isDigit d2 && isDigit d1 && isSign sg)
          || (isDigit c && isDigit d2 && isSign d1)
      | [c; d2; d1] => isDigit c && isDigit d2 && isSign d1
      | _ => false
      end
  | _ => false
  end.

(** [/Z|[+\-]\d\d:?\d\d$/.test(str)]. *)
Definition hasTzMarker (s : string) : bool :=
  contains "Z" s || endsWithOffset s.

(** [parseToUTC(s)] for a string [s]. *)
Definition parseToUTC (s : string) : option Z :=
  if hasTzMarker s then newDate (replaceFirst " " "T" s)
  else newDate (replaceFirst " " "T" s ++ "Z").

(** [normalizeUtcIso(s)]: the [catch] returns [s] itself. *)
Definition normalizeUtcIso (s : string) : string :=
  match toISOString (parseToUTC s) with
  | Some iso => iso
  | None => s
  end.

(** [shiftIso(iso, minutes)]. *)
Definition shiftIso (iso : string) (minutes : Z) : string :=
  let ms := option_map (fun t => t + minutes * 60 * 1000) (parseToUTC iso) in
  match toISOString (newDateMs ms) with
  | Some out => out
  | None => iso
  end.

(** The time written to the chart for the raw tag [t]:
    [TIME_OFFSET_MIN ? shiftIso(norm, TIME_OFFSET_MIN) : norm]. *)
Definition stamp `{Config} (t : string) : string :=
  let norm := normalizeUtcIso t in
  if TIME_OFFSET_MIN =? 0 then norm else shiftIso norm TIME_OFFSET_MIN.

End WithHost.
End Clock.
Export Clock.

(** ** Normalized records and the value normalizer *)

(** What a field of a parsed row can hold.  [VObj str] is an object or an
    array, with the string [String(v)] makes of it; [VUndef] is a key that
    holds [undefined], and reading a missing key (a failed lookup) gives
    [undefined] too. *)
Inductive value :=
| VNum (n : number)
| VStr (s : string)
| VNull
| VBool (b : bool)
| VObj (str : string)
| VUndef.
Arguments VNum n%_float.

(** A row of a parsed SWPC feed: its [time_tag] (a string; rows without one
    were dropped by [parseSwpc]) and its other fields under lower-case keys. *)
Record record := Rec { time_tag : string; fields : gmap string value }.

Module Normalizer.
Section WithHost.
Context `{JsHost}.

(** [toNumber(v)]; [None] is [null]. *)
Definition toNumber (v : option value) : option number :=
  let n := match v with
           | Some (VNum x) => x
           | Some (VStr s) => parseFloat s
           | _ => nan
           end in
  if isFinite n then Some n else None.

(** [n != null && Number.isFinite(n)]. *)
Definition finiteNum (n : option number) : bool :=
  match n with Some x => isFinite x | None => false end.

(** [row[k] !== undefined && row[k] !== null && row[k] !== ''] *)
Definition present (v : option value) : bool :=
  match v with
  | None | Some VUndef | Some VNull | Some (VStr EmptyString) => false
  | _ => true
  end.

Fixpoint pickKeys (f : gmap string value) (keys : list string) : option number :=
  match keys with
  | [] => None
  | k :: rest =>
      if present (f !! k) && finiteNum (toNumber (f !! k))
      then toNumber (f !! k)
      else pickKeys f rest
  end.

(** [pick(row, keys)]; [row] is [undefined] when the feed has no record. *)
Definition pick (row : option record) (keys : list string) : option number :=
  match row with
  | None => None
  | Some r => pickKeys (fields r) keys
  end.

(** The loop of [latestNonNull] and [latestFinite], on the array reversed:
    the first element, from the end, whose reading is a finite number. *)
Fixpoint firstFinite {A} (read : A -> option number) (fromEnd : list A) : option number :=
  match fromEnd with
  | [] => None
  | x :: rest => if finiteNum (read x) then read x else firstFinite read rest
  end.

(** [latestNonNull(rows, key)]. *)
Definition latestNonNull (rows : list record) (key : string) : option number :=
  firstFinite (fun r => toNumber (fields r !! key)) (rev rows).

(** [latestFinite(arr)] on an array of numbers and [null]s. *)
Definition latestFinite (arr : list (option number)) : option number :=
  firstFinite (fun v => match v with Some x => Some x | None => toNumber None end)
              (rev arr).

End WithHost.
End Normalizer.
Export Normalizer.

(** ** Time alignment of the two solar-wind feeds *)

(** [now] of the solar-wind payload. *)
Record nowVals := NowVals {
  now_bz : option number; now_bt : option number;
  now_speed : option number; now_density : option number
}.

(** The payload built by [getSolarwind] from live data; [satellite] is
    [source.satellite] (the provider is a constant). *)
Record solarwindOut := SolarwindOut {
  updatedAt : string;
  now : nowVals;
  labels : list string;
  times : list string;
  speed : list (option number);
  density : list (option number);
  bz : list (option number);
  bt : list (option number);
  satellite : string
}.

Module Align.
Section WithHost.
Context `{JsHost} `{Config}.

Definition speedKeys : list string :=
  ["speed"; "flow_speed"; "bulk_speed"; "v"; "proton_speed"].
Definition densityKeys : list string := ["density"; "proton_density"; "n"].
Definition bzKeys : list string := ["bz_gsm"; "bz"; "bz_gse"].
Definition btKeys : list string := ["bt"; "bt_total"].

(** [new Map(rows.map((r) => [r.time_tag, r]))]: a later row replaces an
    earlier one with the same tag; [keysOf] is the order of [map.keys()]. *)
Definition mapOf (rows : list record) : gmap string record :=
  foldl (fun m r => <[time_tag r := r]> m) ∅ rows.

Fixpoint uniqFrom (seen : list string) (l : list string) : list string :=
  match l with
  | [] => []
  | x :: rest =>
      if bool_decide (x ∈ seen) then uniqFrom seen rest
      else x :: uniqFrom (x :: seen) rest
  end.

(** Insertion order of a [Set] or of the keys of a [Map]: first occurrences. *)
Definition uniq (l : list string) : list string := uniqFrom [] l.

Definition keysOf (rows : list record) : list string := uniq (map time_tag rows).

(** The comparator [(a, b) => new Date(a) - new Date(b)]; [None] is [NaN]. *)
Definition dateDiff (a b : string) : option Z :=
  match newDate a, newDate b with
  | Some x, Some y => Some (x - y)
  | _, _ => None
  end.

(** [a] sorts strictly before [b]: the comparator is negative ([NaN] counts
    as zero). *)
Definition before (a b : string) : bool :=
  match dateDiff a b with Some d => d <? 0 | None => false end.

(** [Array.prototype.sort] is stable: an element goes after everything it is
    not strictly before.  (Where some tag is not a date the comparator is
    not consistent and ECMAScript leaves the order open; the model keeps
    the stable insertion.) *)
Fixpoint insertSorted (x : string) (sorted : list string) : list string :=
  match sorted with
  | [] => [x]
  | y :: rest => if before x y then x :: sorted else y :: insertSorted x rest
  end.

Definition sortByDate (l : list string) : list string :=
  foldl (fun acc x => insertSorted x acc) [] l.

(** [times]: the union of the tags of both feeds, sorted. *)
Definition unionTimes (plasma mag : list record) : list string :=
  sortByDate (uniq (keysOf plasma ++ keysOf mag)).

(** [times.slice(-60)]. *)
Definition lastN {A} (n : nat) (l : list A) : list A := drop (length l - n) l.

Definition tailTimes (plasma mag : list record) : list string :=
  lastN 60 (unionTimes plasma mag).

(** One round of the chart loop, for the tag [t]. *)
Definition chartSpeed (plasma : list record) (t : string) : option number :=
  let sp := pick (mapOf plasma !! t) speedKeys in
  match sp with Some _ => round1 sp | None => None end.
Definition chartDensity (plasma : list record) (t : string) : option number :=
  let de := pick (mapOf plasma !! t) densityKeys in
  match de with Some _ => round2 de | None => None end.
Definition chartBz (mag : list record) (t : string) : option number :=
  let bzv := pick (mapOf mag !! t) bzKeys in
  match bzv with Some _ => round1 bzv | None => None end.
Definition chartBt (mag : list record) (t : string) : option number :=
  let btv := pick (mapOf mag !! t) btKeys in
  match btv with Some _ => round1 btv | None => None end.

(** The test of the alignment loop at the tag [t]: both feeds have a
    record and the four picks are finite numbers. *)
Definition strictJoin (plasma mag : list record) (t : string) : bool :=
  match mapOf plasma !! t, mapOf mag !! t with
  | Some p, Some m =>
      finiteNum (pick (Some m) bzKeys) && finiteNum (pick (Some m) btKeys)
      && finiteNum (pick (Some p) speedKeys) && finiteNum (pick (Some p) densityKeys)
  | _, _ => false
  end.

(** The alignment loop [for (let i = times.length - 1; i >= 0; i--)], on
    [times] reversed: the raw tag it stops at ([alignedRawT]). *)
Fixpoint scanAligned (plasma mag : list record) (fromEnd : list string) : option string :=
  match fromEnd with
  | [] => None
  | t :: rest =>
      if strictJoin plasma mag t then Some t else scanAligned plasma mag rest
  end.

Definition alignedRawT (plasma mag : list record) : option string :=
  scanAligned plasma mag (rev (unionTimes plasma mag)).

(** [nowVals] and [nowTimeAligned] after the alignment loop. *)
Definition alignedNow (plasma mag : list record) : nowVals * option string :=
  match alignedRawT plasma mag with
  | Some t =>
      let p := mapOf plasma !! t in
      let m := mapOf mag !! t in
      (NowVals (round1 (pick m bzKeys)) (round1 (pick m btKeys))
               (round1 (pick p speedKeys)) (round2 (pick p densityKeys)),
       Some (stamp t))
  | None => (NowVals None None None None, None)
  end.

(** [a ?? b]. *)
Definition orElse {A} (a b : option A) : option A :=
  match a with Some _ => a | None => b end.

(** The fallback taken when the four aligned values are all [null]. *)
Definition fallbackNow (plasma mag : list record)
           (speedArr densityArr : list (option number)) : nowVals :=
  NowVals (round1 (latestNonNull mag "bz_gsm"))
          (round1 (latestNonNull mag "bt"))
          (round1 (orElse (latestFinite speedArr) (latestNonNull plasma "speed")))
          (round2 (orElse (latestFinite densityArr) (latestNonNull plasma "density"))).

Definition allNull (v : nowVals) : bool :=
  match now_bz v, now_bt v, now_speed v, now_density v with
  | None, None, None, None => true
  | _, _, _, _ => false
  end.

(** A value in a condition. *)
Definition truthy (v : value) : bool :=
  match v with
  | VNum x => negb (PrimFloat.is_nan x || PrimFloat.is_zero x)
  | VStr s => negb (String.eqb s "")
  | VBool b => b
  | VObj _ => true
  | VNull | VUndef => false
  end.

(** [String(v)]. *)
Definition stringOf (v : value) : string :=
  match v with
  | VNum x => numberToString x
  | VStr s => s
  | VBool true => "true"
  | VBool false => "false"
  | VObj str => str
  | VNull => "null"
  | VUndef => "undefined"
  end.

(** [mNow.satellite || mNow.sat || mNow.sc || mNow.observatory || mNow.source || null] *)
Fixpoint firstTruthy (f : gmap string value) (keys : list string) : option value :=
  match keys with
  | [] => None
  | k :: rest =>
      match f !! k with
      | Some v => if truthy v then Some v else firstTruthy f rest
      | None => firstTruthy f rest
      end
  end.

(** The satellite label, from the magnetometer record at the aligned tag. *)
Definition satLabel (mag : list record) (alignedRawT : option string) : string :=
  let dflt := "DSCOVR/ACE (RTSW)" in
  match alignedRawT with
  | Some (String c r) =>
      match mapOf mag !! String c r with
      | Some mNow =>
          match firstTruthy (fields mNow)
                            ["satellite"; "sat"; "sc"; "observatory"; "source"] with
          | Some satRaw =>
              if String.eqb (trim (stringOf satRaw)) "" then dflt
              else
                let s := toUpperCase (stringOf satRaw) in
                if includes "ACE" s then "ACE (RTSW)"
                else if includes "DSCOVR" s then "DSCOVR (RTSW)"
                else stringOf satRaw ++ " (RTSW)"
          | None => dflt
          end
      | None => dflt
      end
  | _ => dflt
  end.

(** The body of the [try] of [getSolarwind], from the parsed feeds on;
    [clock] is what [new Date()] reads when the payload is assembled. *)
Definition buildSolarwind (plasma mag : list record) (clock : Z) : solarwindOut :=
  let tail := tailTimes plasma mag in
  let timesOut := map stamp tail in
  let speedArr := map (chartSpeed plasma) tail in
  let densityArr := map (chartDensity plasma) tail in
  let '(aligned, nowTimeAligned) := alignedNow plasma mag in
  let nowV := if allNull aligned
              then fallbackNow plasma mag speedArr densityArr else aligned in
  {| updatedAt :=
       match nowTimeAligned with
       | Some (String c s) => String c s
       | _ => match last timesOut with
              | Some t => t
              | None => isoString clock
              end
       end;
     now := nowV;
     labels := map fmtHM timesOut;
     times := timesOut;
     speed := speedArr;
     density := densityArr;
     bz := map (chartBz mag) tail;
     bt := map (chartBt mag) tail;
     satellite := satLabel mag (alignedRawT plasma mag) |}.

End WithHost.
End Align.
Export Align.

(** ** Upstream calls, payloads and the cache *)

(** How one upstream request ends: the [fetch] rejects, the response is not
    [ok], the body cannot be read into the shape the caller parses (an
    exception of [res.json()] or of the parser), or it is read. *)
Inductive fetched (A : Type) :=
| NetworkError
| HttpError (status : Z)
| Malformed
| Body (a : A).
Arguments NetworkError {A}.
Arguments HttpError {A} status.
Arguments Malformed {A}.
Arguments Body {A} a.

(** The upstream services the server calls. *)
Inductive upstreamUrl :=
| SWPC_PLASMA_URL
| SWPC_MAG_URL
| SWPC_KP_URL
| FMI_OPEN_DATA_URL (fmisid : Z)
| OPEN_METEO_URL (lat lon : number)
| FMI_WMS_URL (search : string)
| FMI_TEXT_URL (station : string)
| SOLAR_IMG_URL (url : string).

(** The payload of [mockSolarwindData]. *)
Record mockSolarwind := MockSolarwind {
  mock_updatedAt : string;
  mock_now : nowVals;
  mock_labels : list string;
  mock_times : list string;
  mock_speed : list number;
  mock_density : list number
}.

Inductive solarwindData :=
| Live (out : solarwindOut)
| Mock (data : mockSolarwind).

(** The payload of [getKp] and of [mockKpData]. *)
Record kpData := KpData {
  kp_updatedAt : string;
  kp_now : option number;
  kp_labels : list string;
  kp_values : list (option number)
}.

(** The payload of [mockRxData]. *)
Record rxData := RxData { rx_updatedAt : string; rx_now : option string }.

(** A row of the per-station magnetometer series.  [bx] and [bz] hold a
    number, [null] or, for a mock row's [bz], [undefined]. *)
Record fmiRow := FmiRow {
  row_time : string;
  row_bx : value;
  row_bz : value;
  row_station : option string
}.

(** The payload of [getFmiBx] (its constant [stations] and [source] fields
    are left out). *)
Record fmiData := FmiData {
  fmi_station : string;
  fmi_minutes : Z;
  fmi_rows : list fmiRow;
  fmi_times : list string;
  fmi_bx : list value;
  fmi_bz : list value;
  fmi_updatedAt : string
}.

(** The payload of [getWeatherTemperature]; [wx_sourceUrl] tells the live
    payload from the fallback, whose [source] has no [url]. *)
Record weatherData := WeatherData {
  wx_updatedAt : string;
  wx_latitude : number;
  wx_longitude : number;
  wx_temperatureC : option number;
  wx_cloudCover : option number;
  wx_sourceUrl : option string
}.

(** A cached radar tile: [{ buf, ct, ts }]. *)
Record tileEntry := TileEntry { tile_buf : list Z; tile_ct : string; tile_ts : Z }.


Module Stations.

(** [FMI_STATIONS]. *)
Definition FMI_STATIONS : list string :=
  ["KEV"; "MAS"; "KIL"; "IVA"; "MUO"; "PEL"; "RAN"; "OUJ"; "MEK"; "HAN"; "NUR"; "TAR"].

(** [FMI_STATION_IDS]. *)
Definition FMI_STATION_IDS : list (string * Z) :=
  [("KEV", 100007); ("MAS", 100008); ("KIL", 100009); ("IVA", 129963);
   ("MUO", 100010); ("PEL", 100011); ("RAN", 100012); ("OUJ", 100013);
   ("MEK", 100014); ("HAN", 100015); ("NUR", 100016); ("TAR", 100017)].

(** [validStations] of the text endpoint. *)
Definition validStations : list string :=
  ["KEV"; "MAS"; "KIL"; "IVA"; "MUO"; "PEL"; "RAN"; "OUJ"; "MEK"; "HAN"; "NUR"; "TAR";
   "SOD"].

Fixpoint assoc {A} (k : string) (l : list (string * A)) : option A :=
  match l with
  | [] => None
  | (k', v) :: rest => if String.eqb k k' then Some v else assoc k rest
  end.

(** [FMI_STATION_IDS[stationCode] || FMI_STATION_IDS.KEV], for a station
    code (not the name of an inherited property). *)
Definition fmisidOf (stationCode : string) : Z :=
  default 100007 (assoc stationCode FMI_STATION_IDS).

End Stations.
Export Stations.

(** ** Mock data *)

Module MockData.
Section WithHost.
Context `{JsHost}.

(** [Number(x.toFixed(d))]: the decimal that [toFixed] prints, read back
    ([parseFloat] reads such a string as [Number] does). *)
Definition roundTo (d : nat) (x : number) : number := parseFloat (toFixed d x).

(** [fmtTime(d)] for the date of time value [t]. *)
Definition fmtTime (t : Z) : string :=
  padNum (getHours (Some t)) ++ ":" ++ padNum (getMinutes (Some t)).

(** [mockSolarwindData()]: [clock] is what [new Date()] reads; round [k] of
    the loop has [i = points - 1 - k] and takes the draws [2 + 2k] and
    [3 + 2k]. *)
Definition mockSolarwindData (clock : Z) (seed : nat) : mockSolarwind :=
  let points := 60%nat in
  let baseSpeed := (450 + Math_random seed 0 * 50)%float in
  let baseDensity := (6 + Math_random seed 1 * 3)%float in
  let i_of (k : nat) : Z := Z.of_nat (points - 1 - k) in
  let t_of (k : nat) : Z := clock - i_of k * 60 * 1000 in
  let speed_of (k : nat) : number :=
    let s := (baseSpeed + Math_sin (ofZ false (i_of k) / 8) * 15
              + (Math_random seed (2 + 2 * k) - 0.5) * 8)%float in
    Math_max 250%float (roundTo 1 s) in
  let density_of (k : nat) : number :=
    let d := (baseDensity + Math_cos (ofZ false (i_of k) / 10) * 1
              + (Math_random seed (3 + 2 * k) - 0.5) * 0.6)%float in
    Math_max 0.1%float (roundTo 2 d) in
  let rounds := seq 0 points in
  let times := map (fun k => isoString (t_of k)) rounds in
  let speed := map speed_of rounds in
  let density := map density_of rounds in
  let bz := roundTo 1 (-5 + Math_random seed 122 * 10)%float in
  let bt := roundTo 1 (7 + Math_random seed 123 * 6)%float in
  {| mock_updatedAt := default "" (last times);
     mock_now := NowVals (Some bz) (Some bt) (last speed) (last density);
     mock_labels := map (fun k => fmtTime (t_of k)) rounds;
     mock_times := times;
     mock_speed := speed;
     mock_density := density |}.

(** [mockKpData()]: round [k] has [i = steps - 1 - k] and takes the draw [k]. *)
Definition mockKpData (clock : Z) (seed : nat) : kpData :=
  let steps := 8%nat in
  let i_of (k : nat) : Z := Z.of_nat (steps - 1 - k) in
  let t_of (k : nat) : option Z := Some (clock - i_of k * 3 * 60 * 60 * 1000) in
  let label_of (k : nat) : string :=
    padNum (getDate (t_of k)) ++ "/" ++ padNum (option_map (Z.add 1) (getMonth (t_of k)))
    ++ " " ++ padNum (getHours (t_of k)) ++ ":00" in
  let value_of (k : nat) : number :=
    let kp := Math_max 0%float
                (Math_min 9%float
                   (2.5 + Math_sin (ofZ false (i_of k) / 2) * 1.3
                    + (Math_random seed k - 0.5) * 1.2)%float) in
    roundTo 1 kp in
  let rounds := seq 0 steps in
  let values := map (fun k => Some (value_of k)) rounds in
  {| kp_updatedAt := isoString clock;
     kp_now := default None (last values);
     kp_labels := map label_of rounds;
     kp_values := values |}.

(** [mockRxData()]. *)
Definition mockRxData (clock : Z) (seed : nat) : rxData :=
  let states := ["low"; "moderate"; "high"] in
  let idx := floorZ (Math_random seed 0 * 3)%float in
  {| rx_updatedAt := isoString clock;
     rx_now := match idx with
               | Some z => if 0 <=? z then states !! Z.to_nat z else None
               | None => None
               end |}.

(** [FMI_STATIONS.indexOf(station)]. *)
Fixpoint indexOf (station : string) (l : list string) (from : Z) : Z :=
  match l with
  | [] => -1
  | x :: rest => if String.eqb x station then from else indexOf station rest (from + 1)
  end.

(** [new Date('2024-08-29T00:00:00Z').getTime()], which is what
    [adjustedNow] comes to whatever the system time. *)
Definition referenceTime : Z := utcMillis (Civil 2024 8 29 0 0 0 0).

(** [mockFmiBxData(station, minutes)] for a whole number of minutes: rows
    with a time, a [bx] and the station, and no [bz]. *)
Definition mockFmiBxData (station : string) (minutes : Z) : list fmiRow :=
  let step := 5 in
  let points := Z.max 1 (minutes / step) in
  let bias := ofZ false (Z.rem (indexOf station FMI_STATIONS 0) 4 * 5) in
  let row_of (k : nat) : fmiRow :=
    let i := points - 1 - Z.of_nat k in
    let t := referenceTime - i * step * 60 * 1000 in
    let phase := (ofZ false i / ofZ false points * 3.141592653589793 * 2)%float in
    let bx := (Math_round ((Math_sin phase * 30 + Math_cos (phase * 0.5) * 10 + bias) * 10)
               / 10)%float in
    FmiRow (isoString t) (VNum bx) VUndef (Some station) in
  map row_of (seq 0 (Z.to_nat points)).

End WithHost.
End MockData.
Export MockData.

(** A cache slot [{ data, ts }]; [data] starts as [null]. *)
Record slot (A : Type) := Slot { data : option A; ts : Z }.
Arguments Slot {A} data ts.
Arguments data {A} s.
Arguments ts {A} s.

(** A keyed cache entry [{ data, ts }]. *)
Record entry (A : Type) := Entry { e_data : A; e_ts : Z }.
Arguments Entry {A} e_data e_ts.
Arguments e_data {A} e.
Arguments e_ts {A} e.

(** The server's state: the [cache] object, and the upstream requests issued
    so far, oldest first. *)
Record server := Server {
  c_solarwind : slot solarwindData;
  c_kp : slot kpData;
  c_rx : slot rxData;
  c_fmiBx : gmap string (entry fmiData);
  c_fmiRadar : gmap string tileEntry;
  c_weatherTemp : gmap string (entry weatherData);
  requests : list upstreamUrl
}.

Definition startServer : server :=
Server (Slot None 0) (Slot None 0) (Slot None 0) ∅ ∅ ∅ [].

Definition TTL_MS : Z := 4 * 60 * 1000.
Definition WEATHER_TTL_MS : Z := 10 * 60 * 1000.

(** What one call of a fetcher sees of the outside: [Date.now()] on entry,
    the clock when it prepares its upstream request, the clock when the
    payload is assembled, and the random draws. *)
Record moment := Moment { nowMs : Z; sentAt : Z; clock : Z; entropy : nat }.

Definition issue (u : list upstreamUrl) (s : server) : server :=
Server (c_solarwind s) (c_kp s) (c_rx s) (c_fmiBx s) (c_fmiRadar s)
       (c_weatherTemp s) (requests s ++ u).

(** One [<BsWfs:BsWfsElement>] block of the FMI answer, as the four regular
    expressions of [parseFmiMagnetometerXml] read it: the captured text of
    [Time], [ParameterName], [ParameterValue] and [gml:name], where present. *)
Record xmlEntry := XmlEntry {
  x_time : option string;
  x_paramName : option string;
  x_paramValue : option string;
  x_name : option string
}.

(** [j?.current] of the Open-Meteo answer: [time] is the string it carries, if
    any. *)
Record weatherCurrent := WeatherCurrent {
  temperature_2m : option value;
  cloud_cover : option value;
  current_time : option string
}.

Module Fetchers.
Section WithHost.
Context `{JsHost} `{Config}.

(** [slot.data && now - slot.ts < ttl] *)
Definition freshSlot {A} (s : slot A) (now ttl : Z) : option A :=
  match data s with
  | Some d => if now - ts s <? ttl then Some d else None
  | None => None
  end.

(** [ent && now - ent.ts < ttl] *)
Definition freshEntry {A} (e : option (entry A)) (now ttl : Z) : option A :=
  match e with
  | Some ent => if now - e_ts ent <? ttl then Some (e_data ent) else None
  | None => None
  end.

Definition setSolarwind (v : slot solarwindData) (s : server) : server :=
  Server v (c_kp s) (c_rx s) (c_fmiBx s) (c_fmiRadar s) (c_weatherTemp s) (requests s).
Definition setKp (v : slot kpData) (s : server) : server :=
  Server (c_solarwind s) v (c_rx s) (c_fmiBx s) (c_fmiRadar s) (c_weatherTemp s) (requests s).
Definition setRx (v : slot rxData) (s : server) : server :=
  Server (c_solarwind s) (c_kp s) v (c_fmiBx s) (c_fmiRadar s) (c_weatherTemp s) (requests s).
Definition setFmiBx (k : string) (v : entry fmiData) (s : server) : server :=
  Server (c_solarwind s) (c_kp s) (c_rx s) (<[k := v]> (c_fmiBx s)) (c_fmiRadar s)
         (c_weatherTemp s) (requests s).
Definition setFmiRadar (k : string) (v : tileEntry) (s : server) : server :=
  Server (c_solarwind s) (c_kp s) (c_rx s) (c_fmiBx s) (<[k := v]> (c_fmiRadar s))
         (c_weatherTemp s) (requests s).
Definition setWeatherTemp (k : string) (v : entry weatherData) (s : server) : server :=
  Server (c_solarwind s) (c_kp s) (c_rx s) (c_fmiBx s) (c_fmiRadar s)
         (<[k := v]> (c_weatherTemp s)) (requests s).

(** [getSolarwind()].  [plasmaRes] and [magRes] are how the two requests
    end; a body is the feed after [parseSwpc]. *)
Definition getSolarwind (w : moment) (plasmaRes magRes : fetched (list record))
           (s : server) : solarwindData * server :=
  match freshSlot (c_solarwind s) (nowMs w) TTL_MS with
  | Some d => (d, s)
  | None =>
      let s1 := issue [SWPC_PLASMA_URL; SWPC_MAG_URL] s in
      let d := match plasmaRes, magRes with
               | Body plasma, Body mag => Live (buildSolarwind plasma mag (clock w))
               | _, _ => Mock (mockSolarwindData (clock w) (entropy w))
               end in
      (d, setSolarwind (Slot (Some d) (nowMs w)) s1)
  end.

(** [Object.keys(rows[0])] has ['kp'], else has ['kp_index'], else ['kp']. *)
Definition kpKeyOf (r : record) : string :=
  if bool_decide (is_Some (fields r !! "kp")) then "kp"
  else if bool_decide (is_Some (fields r !! "kp_index")) then "kp_index"
  else "kp".

Definition kpLabel (r : record) : string :=
  let d := newDate (time_tag r) in
  padNum (getDate d) ++ "/" ++ padNum (option_map (Z.add 1) (getMonth d))
  ++ " " ++ padNum (getHours d) ++ ":00".

(** The body of the [try] of [getKp] on the rows of [parseSwpcArray];
    [None] is the exception ['No Kp rows']. *)
Definition buildKp (rows : list record) (clock : Z) : option kpData :=
  match rows with
  | [] => None
  | first :: _ =>
      let kpKey := kpKeyOf first in
      let last8 := lastN 8 rows in
      let values := map (fun r => round1 (toNumber (fields r !! kpKey))) last8 in
      Some {| kp_updatedAt := isoString clock;
              kp_now := default None (last values);
              kp_labels := map kpLabel last8;
              kp_values := values |}
  end.

(** [getKp()]. *)
Definition getKp (w : moment) (res : fetched (list record)) (s : server)
  : kpData * server :=
  match freshSlot (c_kp s) (nowMs w) TTL_MS with
  | Some d => (d, s)
  | None =>
      let s1 := issue [SWPC_KP_URL] s in
      let live := match res with Body rows => buildKp rows (clock w) | _ => None end in
      let d := match live with
               | Some out => out
               | None => mockKpData (clock w) (entropy w)
               end in
      (d, setKp (Slot (Some d) (nowMs w)) s1)
  end.

(** [getRx()]: no upstream. *)
Definition getRx (w : moment) (s : server) : rxData * server :=
  match freshSlot (c_rx s) (nowMs w) TTL_MS with
  | Some d => (d, s)
  | None =>
      let d := mockRxData (clock w) (entropy w) in
      (d, setRx (Slot (Some d) (nowMs w)) s)
  end.

End WithHost.
End Fetchers.
Export Fetchers.


Module Magnetometer.
Section WithHost.
Context `{JsHost} `{Config}.

(** The variables of the loop of [parseFmiMagnetometerXml]. *)
Record xmlState := XmlState {
  currentTime : option string;
  cur_bx : option number;
  cur_bz : option number;
  cur_station : option string;
  rowsSoFar : list fmiRow
}.

Definition numOrNull (v : option number) : value :=
  match v with Some x => VNum x | None => VNull end.

(** [if (currentTime && (bx !== null || bz !== null)) rows.push(...)] *)
Definition flush (st : xmlState) : list fmiRow :=
  match currentTime st, cur_bx st, cur_bz st with
  | Some (String c r), Some _, _
  | Some (String c r), _, Some _ =>
      rowsSoFar st ++ [FmiRow (String c r) (numOrNull (cur_bx st))
                               (numOrNull (cur_bz st)) (cur_station st)]
  | _, _, _ => rowsSoFar st
  end.

Definition finiteOrNull (x : number) : option number :=
  if isFinite x then Some x else None.

Definition xmlStep (st : xmlState) (e : xmlEntry) : xmlState :=
  let st1 := match x_time e with
             | Some t => XmlState (Some t) None None (cur_station st) (flush st)
             | None => st
             end in
  let st2 := match x_paramName e, x_paramValue e with
             | Some name, Some v =>
                 let paramValue := parseFloat v in
                 if String.eqb name "BX" then
                   XmlState (currentTime st1) (finiteOrNull paramValue) (cur_bz st1)
                            (cur_station st1) (rowsSoFar st1)
                 else if String.eqb name "BZ" then
                   XmlState (currentTime st1) (cur_bx st1) (finiteOrNull paramValue)
                            (cur_station st1) (rowsSoFar st1)
                 else st1
             | _, _ => st1
             end in
  match x_name e with
  | Some n => XmlState (currentTime st2) (cur_bx st2) (cur_bz st2) (Some n) (rowsSoFar st2)
  | None => st2
  end.

(** [parseFmiMagnetometerXml], from the element blocks on. *)
Definition parseFmiMagnetometerXml (entries : list xmlEntry) : list fmiRow :=
  flush (foldl xmlStep (XmlState None None None None []) entries).

(** [new Date(row.time) >= cutoffTime] *)
Definition notBefore (cutoff : Z) (r : fmiRow) : bool :=
  match newDate (row_time r) with Some t => cutoff <=? t | None => false end.

(** [fetchFmiMagnetometerData(stationCode, minutes)]: the rows, and the
    request it issues. *)
Definition fetchFmiMagnetometerData (stationCode : string) (minutes : Z) (w : moment)
           (res : fetched (list xmlEntry)) : list fmiRow :=
  match res with
  | Body entries =>
      let cutoffTime := sentAt w - minutes * 60 * 1000 in
      filter (fun r => notBefore cutoffTime r = true) (parseFmiMagnetometerXml entries)
  | _ => mockFmiBxData stationCode minutes
  end.

Definition showZ (z : Z) : string :=
  if z <? 0 then "-" ++ decimal (- z) else decimal z.

(** [getFmiBx(station, minutes)]. *)
Definition getFmiBx (station : string) (minutes : Z) (w : moment)
           (res : fetched (list xmlEntry)) (s : server) : fmiData * server :=
  let key := station ++ "-" ++ showZ minutes in
  match freshEntry (c_fmiBx s !! key) (nowMs w) TTL_MS with
  | Some d => (d, s)
  | None =>
      let s1 := issue [FMI_OPEN_DATA_URL (fmisidOf station)] s in
      let rows := fetchFmiMagnetometerData station minutes w res in
      let d := {| fmi_station := station;
                  fmi_minutes := minutes;
                  fmi_rows := rows;
                  fmi_times := map row_time rows;
                  fmi_bx := map row_bx rows;
                  fmi_bz := map row_bz rows;
                  fmi_updatedAt := match last rows with
                                   | Some r => row_time r
                                   | None => isoString (clock w)
                                   end |} in
      (d, setFmiBx key (Entry d (nowMs w)) s1)
  end.

End WithHost.
End Magnetometer.
Export Magnetometer.

Module Weather.
Section WithHost.
Context `{JsHost} `{Config}.

(** [Number.isFinite(v) ? v : null] for a field that may be absent. *)
Definition finiteField (v : option value) : option number :=
  match v with
  | Some (VNum x) => if isFinite x then Some x else None
  | _ => None
  end.

(** The body of the [try] of [getWeatherTemperature]; [None] is the
    [RangeError] of [toISOString] on a time that is no date. *)
Definition buildWeather (lat lon : number) (current : option weatherCurrent) (clock : Z)
  : option weatherData :=
  let temp := finiteField (current ≫= temperature_2m) in
  let cloud := finiteField (current ≫= cloud_cover) in
  let apiTime := match current ≫= current_time with
                 | Some (String c r) => String c r ++ "Z"
                 | _ => isoString clock
                 end in
  match toISOString (newDate apiTime) with
  | Some updated =>
      Some {| wx_updatedAt := updated;
              wx_latitude := lat; wx_longitude := lon;
              wx_temperatureC := match temp with Some _ => round1 temp | None => None end;
              wx_cloudCover := cloud;
              wx_sourceUrl := Some "https://open-meteo.com/" |}
  | None => None
  end.

Definition fallbackWeather (lat lon : number) (clock : Z) : weatherData :=
  {| wx_updatedAt := isoString clock;
     wx_latitude := lat; wx_longitude := lon;
     wx_temperatureC := None; wx_cloudCover := None; wx_sourceUrl := None |}.

(** [getWeatherTemperature(lat, lon)]. *)
Definition getWeatherTemperature (lat lon : number) (w : moment)
           (res : fetched (option weatherCurrent)) (s : server) : weatherData * server :=
  let key := toFixed 4 lat ++ "," ++ toFixed 4 lon in
  match freshEntry (c_weatherTemp s !! key) (nowMs w) WEATHER_TTL_MS with
  | Some d => (d, s)
  | None =>
      let s1 := issue [OPEN_METEO_URL lat lon] s in
      let live := match res with
                  | Body current => buildWeather lat lon current (clock w)
                  | _ => None
                  end in
      let d := match live with
               | Some out => out
               | None => fallbackWeather lat lon (clock w)
               end in
      (d, setWeatherTemp key (Entry d (nowMs w)) s1)
  end.

End WithHost.
End Weather.
Export Weather.

(** ** Request handlers *)

(** What a handler sends: [res.json(data)] or [res.send(buf)] with status 200,
    or [res.status(code).json({ error })]. *)
Inductive reply (A : Type) :=
| Sent (a : A)
| Refused (status : Z) (error : string).
Arguments Sent {A} a.
Arguments Refused {A} status error.

Definition statusOf {A} (r : reply A) : Z :=
match r with Sent _ => 200 | Refused st _ => st end.

(** [req.query], each parameter given once, as a string. *)
Definition query := gmap string string.

(** [String(q[k] || dflt)]: an absent or empty parameter takes the default. *)
Definition paramOr (q : query) (k dflt : string) : string :=
match q !! k with
| Some (String c r) => String c r
| _ => dflt
end.

(** [String(q[k] ?? dflt)]: only an absent parameter takes the default. *)
Definition paramNullish (q : query) (k dflt : string) : string :=
match q !! k with
| Some v => v
| None => dflt
end.

(** [parseInt(s, 10)]: leading white space, a sign, then decimal digits;
    [None] is [NaN]. *)
Fixpoint digitsValue (acc : Z) (l : list ascii) : Z :=
match l with
| c :: r => if isDigit c then digitsValue (10 * acc + digitVal c) r else acc
| [] => acc
end.

Definition parseInt10 (s : string) : option Z :=
let l := dropWhite (chars s) in
let '(neg, body) := match l with
                    | c :: r => if Ascii.eqb c "-" then (true, r)
                                else if Ascii.eqb c "+" then (false, r)
                                else (false, l)
                    | [] => (false, l)
                    end in
match body with
| c :: _ => if isDigit c
            then Some (if neg then - digitsValue 0 body else digitsValue 0 body)
            else None
| [] => None
end.

Module Radar.
Section WithHost.
Context `{JsHost}.

(** [FMI_RADAR_LAYERS]. *)
Definition FMI_RADAR_LAYERS : list string :=
  ["Radar:radar_ppi_fikau_dbzv"; "Radar:suomi_rr_eureffin"].

Definition allowedLayer (s : string) : bool :=
  negb (String.eqb s "") && bool_decide (s ∈ FMI_RADAR_LAYERS).

(** [rawLayers.split(',').map(s => s.trim()).filter(s => s && FMI_RADAR_LAYERS.has(s))] *)
Definition layersOf (q : query) : list string :=
  List.filter allowedLayer
    (map trim (splitOn "," (paramOr q "layers" "Radar:radar_ppi_fikau_dbzv"))).

Definition clamp (v : number) : number :=
  Math_max (-20037508.342789244)%float (Math_min 20037508.342789244%float v).

(** [/\d{4}-\d{2}-\d{2}T\d{2}:\d{2}/.test(s)] *)
Definition isoLikeAt (l : list ascii) : bool :=
  match l with
  | y1 :: y2 :: y3 :: y4 :: s1 :: m1 :: m2 :: s2 :: d1 :: d2 :: t :: h1 :: h2 :: c :: n1 :: n2 :: _ =>
      isDigit y1 && isDigit y2 && isDigit y3 && isDigit y4 && Ascii.eqb s1 "-"
      && isDigit m1 && isDigit m2 && Ascii.eqb s2 "-" && isDigit d1 && isDigit d2
      && Ascii.eqb t "T" && isDigit h1 && isDigit h2 && Ascii.eqb c ":"
      && isDigit n1 && isDigit n2
  | _ => false
  end.

Fixpoint isoLike (l : list ascii) : bool :=
  isoLikeAt l || match l with [] => false | _ :: r => isoLike r end.

(** The query of the upstream request, in the order the handler sets it. *)
Definition wmsParams (q : query) (layers : list string) (parts : list number)
  : list (string * string) :=
  [("SERVICE", "WMS"); ("REQUEST", "GetMap"); ("VERSION", "1.1.1");
   ("FORMAT", "image/png"); ("TRANSPARENT", "true"); ("WIDTH", "256");
   ("HEIGHT", "256"); ("SRS", "EPSG:3857");
   ("LAYERS", join "," layers); ("STYLES", paramOr q "styles" "");
   ("BBOX", join "," (map numberToString (map clamp parts)))]
  ++ (match q !! "time" with
      | Some (String c r) =>
          if isoLike (chars (String c r)) then [("TIME", String c r)] else []
      | _ => []
      end)
  ++ (if String.eqb (toLowerCase (paramOr q "tiled" "")) "true"
      then [("TILED", "true")] else []).

(** The part of the radar handler after a cache miss: the upstream request
    and what is made of its answer ([res]: how it ends, with the
    [content-type] header, if any, and the bytes). *)
Definition radarFetch (key : string) (w : moment)
           (res : fetched (option string * list Z)) (s : server)
  : reply (string * list Z) * server :=
  let s1 := issue [FMI_WMS_URL key] s in
  match res with
  | HttpError st => (Refused 502 ("Upstream " ++ showZ st), s1)
  | Body (hdr, buf) =>
      let ct := toLowerCase (default "" hdr) in
      let contentType := if startsWith "image/" ct then ct else "image/png" in
      (Sent (contentType, buf), setFmiRadar key (TileEntry buf contentType (nowMs w)) s1)
  | _ => (Refused 502 "Failed to fetch radar tile", s1)
  end.

(** [app.get('/api/fmi/radar', ...)]: the tile sent (content type and bytes)
    or the error. *)
Definition radarHandler (q : query) (w : moment)
           (res : fetched (option string * list Z)) (s : server)
  : reply (string * list Z) * server :=
  let layers := layersOf q in
  match layers with
  | [] => (Refused 400 "Invalid or missing layers", s)
  | _ :: _ =>
      let parts := map parseFloat (splitOn "," (paramOr q "bbox" "")) in
      if negb (length parts =? 4)%nat || existsb (fun n => negb (isFinite n)) parts
      then (Refused 400 "Invalid bbox", s)
      else
        let key := urlSearch (wmsParams q layers parts) in
        match c_fmiRadar s !! key with
        | Some ent =>
            if nowMs w - tile_ts ent <? TTL_MS
            then (Sent (tile_ct ent, tile_buf ent), s)
            else radarFetch key w res s
        | None => radarFetch key w res s
        end
  end.

End WithHost.
End Radar.
Export Radar.

Module Handlers.
Section WithHost.
Context `{JsHost} `{Config}.

(** [app.get('/api/solarwind')], [('/api/kp')], [('/api/rx')]: the fetchers
    are total here, so the [catch] (status 500) of these handlers is never
    entered. *)
Definition solarwindHandler (w : moment) (plasmaRes magRes : fetched (list record))
           (s : server) : reply solarwindData * server :=
  let '(d, s') := getSolarwind w plasmaRes magRes s in (Sent d, s').

Definition kpHandler (w : moment) (res : fetched (list record)) (s : server)
  : reply kpData * server :=
  let '(d, s') := getKp w res s in (Sent d, s').

Definition rxHandler (w : moment) (s : server) : reply rxData * server :=
  let '(d, s') := getRx w s in (Sent d, s').

(** The coordinates [la], [lo] the weather handler passes on. *)
Definition weatherCoords (q : query) : number * number :=
  let lat := parseFloat (paramNullish q "lat" "60.4728") in
  let lon := parseFloat (paramNullish q "lon" "26.3042") in
  let latOk := isFinite lat && (-90 <=? lat)%float && (lat <=? 90)%float in
  let lonOk := isFinite lon && (-180 <=? lon)%float && (lon <=? 180)%float in
  (if latOk then lat else 60.4728%float, if lonOk then lon else 26.3042%float).

(** [app.get('/api/weather')]. *)
Definition weatherHandler (q : query) (w : moment)
           (res : fetched (option weatherCurrent)) (s : server)
  : reply weatherData * server :=
  let '(la, lo) := weatherCoords q in
  let '(d, s') := getWeatherTemperature la lo w res s in (Sent d, s').

(** The station and the minutes [app.get('/api/fmi/bx')] asks for. *)
Definition bxStation (q : query) : string :=
  let qStationRaw := toUpperCase (paramOr q "station" "KEV") in
  if bool_decide (qStationRaw ∈ FMI_STATIONS) then qStationRaw else "KEV".

(** [parseInt] gives [NaN] ([None]) or an integer, which as a number is
    infinite from [2^1024 - 2^970] on; [60] replaces what is not finite. *)
Definition bxMinutes (q : query) : Z :=
  let minutes := match parseInt10 (paramOr q "minutes" "60") with
                 | Some z => if Z.abs z <? 2 ^ 1024 - 2 ^ 970 then z else 60
                 | None => 60
                 end in
  Z.max 5 (Z.min 180 minutes).

(** [app.get('/api/fmi/bx')]. *)
Definition bxHandler (q : query) (w : moment) (res : fetched (list xmlEntry))
           (s : server) : reply fmiData * server :=
  let '(d, s') := getFmiBx (bxStation q) (bxMinutes q) w res s in (Sent d, s').

(** [SOLAR_IMG_SOURCES[key]]: the one source, or what a plain object
    inherits from [Object.prototype] under that name (a function or an
    object, which is truthy and no URL). *)
Definition inheritedNames : list string :=
  ["constructor"; "toString"; "toLocaleString"; "valueOf"; "hasOwnProperty";
   "isPrototypeOf"; "propertyIsEnumerable"; "__proto__"; "__defineGetter__";
   "__defineSetter__"; "__lookupGetter__"; "__lookupSetter__"].

Inductive imageSource := SourceUrl (url : string) | NotAUrl | NoSource.

Definition solarImgSource (key : string) : imageSource :=
  if String.eqb key "soho_sunspot"
  then SourceUrl "https://soho.nascom.nasa.gov/data/sunspot/latest.jpg"
  else if bool_decide (key ∈ inheritedNames) then NotAUrl
  else NoSource.

(** [app.get('/api/solarimage')]. *)
Definition solarimageHandler (q : query) (res : fetched (option string * list Z))
           (s : server) : reply (string * list Z) * server :=
  match solarImgSource (paramOr q "src" "soho_sunspot") with
  | NoSource => (Refused 400 "Invalid image source", s)
  | NotAUrl => (Refused 502 "Failed to fetch solar image", s)
  | SourceUrl url =>
      let s1 := issue [SOLAR_IMG_URL url] s in
      match res with
      | Body (hdr, buf) =>
          let ct := default "image/jpeg" hdr in
          (Sent (if startsWith "image/" ct then ct else "image/jpeg", buf), s1)
      | _ => (Refused 502 "Failed to fetch solar image", s1)
      end
  end.

End WithHost.
End Handlers.
Export Handlers.

Module TextDump.
Section WithHost.
Context `{JsHost}.

(** The payload of the full-day text endpoint. *)
Record textData := TextData {
  td_station : string;
  td_times : list string;
  td_bx : list number;
  td_by : list number;
  td_bz : list number;
  td_minX : number; td_maxX : number; td_minZ : number; td_maxZ : number
}.

Definition stripCr (s : string) : string :=
  match rev (chars s) with
  | c :: r => if Ascii.eqb c "013" then ofChars (rev r) else s
  | [] => s
  end.

Fixpoint stripCrButLast (l : list string) : list string :=
  match l with
  | [] => []
  | [x] => [x]
  | x :: rest => stripCr x :: stripCrButLast rest
  end.

(** [text.split(/\r?\n/)] *)
Definition splitLines (text : string) : list string :=
  stripCrButLast (splitOn "010" text).

(** [l && !l.startsWith('---') && !l.startsWith('YYYY')] *)
Definition keepLine (l : string) : bool :=
  negb (String.eqb l "") && negb (startsWith "---" l) && negb (startsWith "YYYY" l).

(** [\s+]: one or more white-space characters. *)
Definition spaces (l : list ascii) : option (list ascii) :=
  match l with
  | c :: r => if isWhite c then Some (dropWhite r) else None
  | [] => None
  end.

Definition numChar (c : ascii) : bool :=
  isDigit c || Ascii.eqb c "." || Ascii.eqb c "-".

Fixpoint spanNum (l : list ascii) : list ascii * list ascii :=
  match l with
  | c :: r => if numChar c then let '(a, b) := spanNum r in (c :: a, b) else ([], l)
  | [] => ([], [])
  end.

(** [([\d.-]+)]: the longest run, which must not be empty. *)
Definition numGroup (l : list ascii) : option (string * list ascii) :=
  match spanNum l with
  | ([], _) => None
  | (g, rest) => Some (ofChars g, rest)
  end.

(** A decimal literal without exponent: what [Number(x)] accepts among the
    strings of digits, dots and dashes. *)
Definition allDigits (l : list ascii) : bool := forallb isDigit l.

Fixpoint splitDot (l : list ascii) : list ascii * option (list ascii) :=
  match l with
  | [] => ([], None)
  | c :: r =>
      if Ascii.eqb c "." then ([], Some r)
      else let '(a, b) := splitDot r in (c :: a, b)
  end.

Definition decimalLiteral (s : string) : bool :=
  let l := chars s in
  let body := match l with
              | c :: r => if Ascii.eqb c "-" then r else l
              | [] => l
              end in
  match splitDot body with
  | (ip, None) => negb (length ip =? 0)%nat && allDigits ip
  | (ip, Some fp) =>
      allDigits ip && allDigits fp && negb ((length ip =? 0)%nat && (length fp =? 0)%nat)
  end.

(** [+x] for a captured group [x]. *)
Definition unaryPlus (x : string) : number :=
  if String.eqb x "" then 0%float
  else if decimalLiteral x then parseFloat x else nan.

(** [Date.UTC(y, m, d, h, mi, s)] on integers, then [new Date(...)]. *)
Definition dateUTC (y m d h mi s : Z) : option Z :=
  let yr := if (0 <=? y) && (y <=? 99) then 1900 + y else y in
  let ym := yr + m / 12 in
  let mn := m mod 12 in
  timeClip ((daysFromCivil ym (mn + 1) 1 + d - 1) * msPerDay
            + h * msPerHour + mi * msPerMinute + s * 1000).

(** The match of one line against
    [/^(\d{4}) (\d{2}) (\d{2}) (\d{2}) (\d{2}) (\d{2})\s+([\d.-]+)\s+([\d.-]+)\s+([\d.-]+)/]:
    the time value and the three groups. *)
Definition matchLine (line : string) : option (option Z * string * string * string) :=
  yyyy ← num4 (chars line);
  r1 ← expect " " yyyy.2; MM ← num2 r1;
  r2 ← expect " " MM.2; dd ← num2 r2;
  r3 ← expect " " dd.2; hh ← num2 r3;
  r4 ← expect " " hh.2; mm ← num2 r4;
  r5 ← expect " " mm.2; ss ← num2 r5;
  r6 ← spaces ss.2; x ← numGroup r6;
  r7 ← spaces x.2; y ← numGroup r7;
  r8 ← spaces y.2; z ← numGroup r8;
  Some (dateUTC yyyy.1 (MM.1 - 1) dd.1 hh.1 mm.1 ss.1, x.1, y.1, z.1).

(** One round of the loop over the lines; [None] is an exception (the
    [RangeError] of [toISOString]). *)
Definition textStep (acc : option textData) (line : string) : option textData :=
  d ← acc;
  match matchLine line with
  | None => Some d
  | Some (t, x, y, z) =>
      iso ← toISOString t;
      let xval := unaryPlus x in
      let yval := unaryPlus y in
      let zval := unaryPlus z in
      Some {| td_station := td_station d;
              td_times := td_times d ++ [iso];
              td_bx := td_bx d ++ [xval];
              td_by := td_by d ++ [yval];
              td_bz := td_bz d ++ [zval];
              td_minX := if (xval <? td_minX d)%float then xval else td_minX d;
              td_maxX := if (td_maxX d <? xval)%float then xval else td_maxX d;
              td_minZ := if (zval <? td_minZ d)%float then zval else td_minZ d;
              td_maxZ := if (td_maxZ d <? zval)%float then zval else td_maxZ d |}
  end.

Definition parseText (station text : string) : option textData :=
  foldl textStep
        (Some (TextData station [] [] [] [] infinity neg_infinity infinity neg_infinity))
        (List.filter keepLine (splitLines text)).

(** [app.get('/api/fmi/textdata')]. *)
Definition textdataHandler (q : query) (res : fetched string) (s : server)
  : reply textData * server :=
  let station := toUpperCase (paramOr q "station" "") in
  if bool_decide (station ∈ validStations) then
    let s1 := issue [FMI_TEXT_URL station] s in
    match res with
    | Body text =>
        match parseText station text with
        | Some d => (Sent d, s1)
        | None => (Refused 500 "Failed to fetch or parse data", s1)
        end
    | _ => (Refused 500 "Failed to fetch or parse data", s1)
    end
  else (Refused 400 "Invalid station code", s).

End WithHost.
End TextDump.
Export TextDump.

(** ** A host for the examples

    A runtime on which the examples below are evaluated: its [parseFloat]
    reads a plain decimal literal (sign, digits, fraction) and rounds it
    correctly, it prints a number by its integer part, its time zone is two
    hours east of UTC, it reads no date outside the ECMAScript format, and
    every draw of its [Math.random] is 0.5. *)

Module Demo.

Fixpoint takeDigits (l : list ascii) : list ascii * list ascii :=
  match l with
  | c :: r => if isDigit c then let '(a, b) := takeDigits r in (c :: a, b) else ([], l)
  | [] => ([], [])
  end.

Definition ratio (neg : bool) (m : Z) (k : nat) : number :=
  match m with
  | Zpos p =>
      SF2Prim (SFdiv prec emax (S754_finite neg p 0)
                     (S754_finite false (Z.to_pos (10 ^ Z.of_nat k)) 0))
  | _ => if neg then (-0)%float else 0%float
  end.

Definition parseDecimal (s : string) : number :=
  let l := dropWhite (chars s) in
  let '(neg, body) := match l with
                      | c :: r => if Ascii.eqb c "-" then (true, r)
                                  else if Ascii.eqb c "+" then (false, r)
                                  else (false, l)
                      | [] => (false, l)
                      end in
  let '(ip, rest) := takeDigits body in
  let fp := match rest with
            | c :: r => if Ascii.eqb c "." then fst (takeDigits r) else []
            | [] => []
            end in
  match (ip ++ fp)%list with
  | [] => nan
  | ds => ratio neg (digitsValue 0 ds) (length fp)
  end.

Definition search (params : list (string * string)) : string :=
  "?" ++ join "&" (map (fun kv => fst kv ++ "=" ++ snd kv) params).

(** Sine and cosine by a few terms of their series, the argument brought
    into [-π, π] first. *)
Definition reduceAngle (x : number) : number :=
  match floorZ (x / 6.283185307179586 + 0.5)%float with
  | Some k => (x - ofZ false k * 6.283185307179586)%float
  | None => x
  end.

Definition sinSeries (x : number) : number :=
  let y := reduceAngle x in
  let q := (y * y)%float in
  (y * (1 - q / 6 * (1 - q / 20 * (1 - q / 42 * (1 - q / 72
        * (1 - q / 110 * (1 - q / 156)))))))%float.

Definition cosSeries (x : number) : number :=
  let y := reduceAngle x in
  let q := (y * y)%float in
  (1 - q / 2 * (1 - q / 12 * (1 - q / 30 * (1 - q / 56
        * (1 - q / 90 * (1 - q / 132 * (1 - q / 182)))))))%float.

(** The integer part of a finite number. *)
Definition truncate (x : number) : Z :=
  match Prim2SF x with
  | S754_finite sg m e =>
      let v := if 0 <=? e then Z.pos m * 2 ^ e else Z.pos m / 2 ^ (- e) in
      if sg then - v else v
  | _ => 0
  end.

(** [x.toFixed(d)] for a number of moderate size. *)
Definition fixed (d : nat) (x : number) : string :=
  let scale := 10 ^ Z.of_nat d in
  let n := truncate (Math_round (x * ofZ false scale)%float) in
  (if n <? 0 then "-" else "") ++ decimal (Z.abs n / scale)
  ++ "." ++ padStart d (decimal (Z.abs n mod scale)).

#[export] Instance host : JsHost := {|
  parseFloat := parseDecimal;
  legacyDateParse := fun _ => None;
  tzOffsetMin := 120;
  numberToString := fun x => showZ (truncate x);
  toFixed := fixed;
  urlSearch := search;
  Math_sin := sinSeries;
  Math_cos := cosSeries;
  Math_random := fun _ _ => 0.5%float;
  parseFloat_default_lat := eq_refl;
  parseFloat_default_lon := eq_refl
|}.

#[export] Instance config : Config := {| TIME_OFFSET_MIN := 0 |}.

End Demo.

(** ** Vocabulary of the properties *)


Section Statements.
Context `{JsHost} `{Config}.



(** [a] is not after [b] for the comparator of the sort, both being dates. *)
Definition dateLe (a b : string) : Prop :=
  match newDate a, newDate b with
  | Some x, Some y => x <= y
  | _, _ => False
  end.

(** [a] is not after [b] as the chart writes them, both being dates. *)
Definition utcLe (a b : string) : Prop :=
  match parseToUTC a, parseToUTC b with
  | Some x, Some y => x <= y
  | _, _ => False
  end.

(** *** The read-through contract

    [fetch] is a fetcher at fixed arguments and upstream answers, [stored]
    the payload and the time stamp its cache entry holds, [urls] its upstream
    requests.  An entry younger than [ttl] is returned as it is, the state
    (cache and requests) untouched; otherwise each upstream request is issued
    once, and what is returned is stored with the current time. *)
Definition readThrough {P : Type} (fetch : moment -> server -> P * server)
           (stored : server -> option (P * Z)) (ttl : Z)
           (urls : list upstreamUrl) : Prop :=
  forall (w : moment) (s : server),
    let miss := requests (fetch w s).2 = (requests s ++ urls)%list
                /\ stored (fetch w s).2 = Some ((fetch w s).1, nowMs w) in
    match stored s with
    | Some (d, t) => if nowMs w - t <? ttl then fetch w s = (d, s) else miss
    | None => miss
    end.

Definition storedSlot {P} (sl : slot P) : option (P * Z) :=
  match data sl with Some d => Some (d, ts sl) | None => None end.

Definition storedEntry {P} (e : option (entry P)) : option (P * Z) :=
  option_map (fun ent => (e_data ent, e_ts ent)) e.

(** The key of the radar cache for a request that passes validation. *)
Definition radarKey (q : query) : string :=
  urlSearch (wmsParams q (layersOf q)
                       (map parseFloat (splitOn "," (paramOr q "bbox" "")))).

(** What the radar cache holds for the request, as the reply it stands for. *)
Definition storedTile (q : query) (s : server) : option (reply (string * list Z) * Z) :=
  option_map (fun ent => (Sent (tile_ct ent, tile_buf ent), tile_ts ent))
             (c_fmiRadar s !! radarKey q).

(** The request passes the validation of the radar handler. *)
Definition radarValid (q : query) : Prop :=
  layersOf q <> []
  /\ let parts := map parseFloat (splitOn "," (paramOr q "bbox" "")) in
     length parts = 4%nat /\ Forall (fun n => isFinite n = true) parts.

(** The stored entry, if any, is at least [ttl] old. *)
Definition stale {P} (st : option (P * Z)) (now ttl : Z) : Prop :=
  match st with Some (_, t) => ttl <= now - t | None => True end.



(** The specification's reading of the full-day text endpoint: every code
    outside the twelve of [FMI_STATIONS] is refused with status 400. *)
Definition textdataRefusesOutsideTwelve : Prop :=
  forall (code : string) (res : fetched string) (s : server),
    code ∉ FMI_STATIONS ->
    statusOf (textdataHandler (<["station" := code]> ∅) res s).1 = 400.

(** *** The states the server can be in

    One step is one call of a fetcher or of a proxy handler, at any
    arguments, any moment and any upstream answer; the periodic refresh is a
    sequence of such calls. *)
Inductive step : server -> server -> Prop :=
| step_solarwind w plasmaRes magRes s :
    step s (getSolarwind w plasmaRes magRes s).2
| step_kp w res s : step s (getKp w res s).2
| step_rx w s : step s (getRx w s).2
| step_weather lat lon w res s : step s (getWeatherTemperature lat lon w res s).2
| step_fmiBx station minutes w res s : step s (getFmiBx station minutes w res s).2
| step_radar q w res s : step s (radarHandler q w res s).2
| step_solarimage q res s : step s (solarimageHandler q res s).2
| step_textdata q res s : step s (textdataHandler q res s).2.

Inductive reachable : server -> Prop :=
| reachable_start : reachable startServer
| reachable_step s s' : reachable s -> step s s' -> reachable s'.

(** The arrays of a magnetometer payload follow its rows. *)
Definition followsRows (d : fmiData) : Prop :=
  fmi_times d = map row_time (fmi_rows d)
  /\ fmi_bx d = map row_bx (fmi_rows d)
  /\ fmi_bz d = map row_bz (fmi_rows d)
  /\ match last (fmi_rows d) with
     | Some r => fmi_updatedAt d = row_time r
     | None => True
     end.

(** Every payload in the magnetometer cache follows its rows. *)
Definition fmiCacheOk (s : server) : Prop :=
  forall key e, c_fmiBx s !! key = Some e -> followsRows (e_data e).

End Statements.

(** The part of a date-time string after the minutes, when no offset
    follows: nothing, [:ss], or [:ss.sss]; with the seconds and milliseconds
    it stands for. *)
Inductive secondsTail : list ascii -> Z -> Z -> Prop :=
| tail_none : secondsTail [] 0 0
| tail_seconds (a b : ascii) :
    isDigit a = true -> isDigit b = true ->
    secondsTail [":"; a; b]%char (10 * digitVal a + digitVal b) 0
| tail_millis (a b f1 f2 f3 : ascii) :
    isDigit a = true -> isDigit b = true ->
    isDigit f1 = true -> isDigit f2 = true -> isDigit f3 = true ->
    secondsTail [":"; a; b; "."; f1; f2; f3]%char
                (10 * digitVal a + digitVal b)
                (100 * digitVal f1 + (10 * digitVal f2 + digitVal f3)).

(** ** Data for the examples *)

(** Feeds over {t1,t2,t3} and {t2,t3,t4}: at t2 the plasma row has no
    density, so the four fields are finite at t3 only. *)
Module SolarwindExample.
Import Demo.

Definition t1 := "2024-01-01T12:00:00Z".
Definition t2 := "2024-01-01T12:01:00Z".
Definition t3 := "2024-01-01T12:02:00Z".
Definition t4 := "2024-01-01T12:03:00Z".

Definition row (t : string) (kvs : list (string * value)) : record :=
  Rec t (list_to_map kvs).

Definition feedA : list record :=
  [row t1 [("speed", VNum 400); ("density", VNum 5)];
   row t2 [("speed", VNum 410); ("density", VNull)];
   row t3 [("speed", VNum 420); ("density", VStr "6.25")]].

Definition feedB : list record :=
  [row t2 [("bz_gsm", VNum (-1)); ("bt", VNum 5)];
   row t3 [("bz", VNum (-2.04)); ("bt", VNum 6)];
   row t4 [("bz_gsm", VNum (-3)); ("bt", VNum 7)]].

End SolarwindExample.

(** A magnetometer feed that names its field [bz], not [bz_gsm], and no
    plasma feed at all. *)
Module FallbackExample.
Import Demo.


End FallbackExample.

(** A plasma feed whose tag carries no marker and a magnetometer feed whose
    tag ends in [Z], half an hour earlier. *)
Module MixedTagsExample.
Import Demo.

Definition plasmaUnmarked : list record :=
  [Rec "2024-01-01T12:00:00" (list_to_map [("speed", VNum 400); ("density", VNum 5)])].

Definition magMarked : list record :=
  [Rec "2024-01-01T11:30:00Z" (list_to_map [("bz_gsm", VNum (-1)); ("bt", VNum 5)])].

End MixedTagsExample.

(** A well-formed radar tile request. *)
Module RadarExample.
Import Demo.

Definition tileQuery : query :=
  <["layers" := "Radar:suomi_rr_eureffin"]> (<["bbox" := "1,2,3,4"]> ∅).

Definition noon : moment := Moment 1704110400000 1704110400000 1704110400050 0.

End RadarExample.

(** ** The feed parsers *)

(** A JSON value, as [res.json()] gives it.  The entries of an object are in
    the order of [Object.entries], each key once. *)
#[warnings="-register-all"]
Inductive json :=
| JNull
| JBool (b : bool)
| JNum (n : number)
| JStr (s : string)
| JArr (items : list json)
| JObj (entries : list (string * json)).
Arguments JNum n%_float.

Module Swpc.
Section WithHost.
Context `{JsHost}.

(** [String(j)]: an array prints its elements joined by commas, [null]
    elements as nothing; an object prints as [[object Object]]. *)
Fixpoint jsonString (j : json) : string :=
  match j with
  | JNull => "null"
  | JBool true => "true"
  | JBool false => "false"
  | JNum n => numberToString n
  | JStr s => s
  | JArr items =>
      join "," (List.map (fun e => match e with JNull => "" | _ => jsonString e end) items)
  | JObj _ => "[object Object]"
  end.

(** A JSON value held by a field of a row.  A row under construction, the
    object [o] / [out], is the map of its own properties. *)
Definition valueOf (j : json) : value :=
  match j with
  | JNull => VNull
  | JBool b => VBool b
  | JNum n => VNum n
  | JStr s => VStr s
  | JArr _ | JObj _ => VObj (jsonString j)
  end.

(** The numeric normalization both parsers apply to the value under [key]:
    [if (key !== 'time_tag' && val !== null && val !== undefined && val !== '')
    { const n = toNumber(val); if (n !== null) val = n; }] *)
Definition normalize (key : string) (val : value) : value :=
  if negb (String.eqb key "time_tag") && present (Some val) then
    match toNumber (Some val) with
    | Some n => VNum n
    | None => val
    end
  else val.

(** [o.time_tag] in the condition of the [filter]. *)
Definition hasTimeTag (o : gmap string value) : bool :=
  match o !! "time_tag" with
  | Some v => truthy v
  | None => false
  end.

Fixpoint indexedFrom {A} (i : Z) (l : list A) : list (string * A) :=
  match l with
  | [] => []
  | x :: rest => (decimal i, x) :: indexedFrom (i + 1) rest
  end.

(** [Object.entries(row)]; [None] is the [TypeError] on [null]. *)
Definition entriesOf (r : json) : option (list (string * json)) :=
  match r with
  | JNull => None
  | JObj entries => Some entries
  | JArr items => Some (indexedFrom 0 items)
  | JStr s => Some (indexedFrom 0 (List.map (fun c => JStr (String c "")) (chars s)))
  | JNum _ | JBool _ => Some []
  end.

(** The loop over the entries of one row of the object format. *)
Definition rowOfEntries (entries : list (string * json)) : gmap string value :=
  foldl (fun out kv => let key := toLowerCase kv.1 in
                       <[key := normalize key (valueOf kv.2)]> out)
        ∅ entries.

(** [row[i]] in the array format; [None] is the [TypeError] on [null]. *)
Definition cellOf (r : json) (i : nat) : option value :=
  match r with
  | JNull => None
  | JArr items => Some (from_option valueOf VUndef (items !! i))
  | JStr s => Some (from_option (fun c => VStr (String c "")) VUndef (chars s !! i))
  | JObj entries => Some (from_option valueOf VUndef (assoc (decimal (Z.of_nat i)) entries))
  | JNum _ | JBool _ => Some VUndef
  end.

(** [headers.forEach((h, i) => { o[h] = row[i]; })], then the normalization
    of every key. *)
Fixpoint fillFrom (i : nat) (headers : list string) (r : json) (o : gmap string value) : option (gmap string value) :=
  match headers with
  | [] => Some o
  | h :: rest =>
      match cellOf r i with
      | Some v => fillFrom (S i) rest r (<[h := v]> o)
      | None => None
      end
  end.

Definition rowOfCells (headers : list string) (r : json) : option (gmap string value) :=
  option_map (fun o : gmap string value => map_imap (fun k v => Some (normalize k v)) o)
             (fillFrom 0 headers r ∅).

(** [parseSwpcArray(arr)]; [None] is an exception. *)
Definition parseSwpcArray (arr : json) : option (list (gmap string value)) :=
  match arr with
  | JArr (first :: second :: more) =>
      match first with
      | JArr hs =>
          let headers := List.map (fun h => toLowerCase (jsonString h)) hs in
          option_map (List.filter hasTimeTag)
                     (mapM (rowOfCells headers) (second :: more))
      | _ => None
      end
  | _ => Some []
  end.

(** [parseSwpc(json)]; [None] is an exception. *)
Definition parseSwpc (j : json) : option (list (gmap string value)) :=
  match j with
  | JArr (first :: rest) =>
      match first with
      | JArr _ => parseSwpcArray j
      | JObj _ =>
          option_map (List.filter hasTimeTag)
                     (mapM (fun r => option_map rowOfEntries (entriesOf r)) (first :: rest))
      | _ => Some []
      end
  | _ => Some []
  end.

(** Rows here are their own properties.  An assignment to the name
    [__proto__] would set the prototype of the row instead of a property, so
    the properties of the parsers are stated for feeds in which no row has a
    key, and the header row no name, that reads [__proto__] in lower case. *)
Definition plainKey (k : string) : bool :=
  negb (String.eqb (toLowerCase k) "__proto__").

Definition plainRow (r : json) : bool :=
  match r with
  | JObj entries => forallb (fun kv => plainKey kv.1) entries
  | _ => true
  end.

Definition plainFeed (j : json) : bool :=
  match j with
  | JArr (JArr hs :: _) => forallb (fun h => plainKey (jsonString h)) hs
  | JArr rows => forallb plainRow rows
  | _ => true
  end.

(** The keys of the row are in lower case and its values normalized. *)
Definition normalRow (o : gmap string value) : Prop :=
  ∀ k v, o !! k = Some v → toLowerCase k = k ∧ normalize k v = v.

End WithHost.
End Swpc.
Export Swpc.

Module ParserExample.

(** Two elements of a real-time feed, the second without a time tag. *)
Definition rtsw : json :=
  JArr [JObj [("time_tag", JStr "2024-01-01T12:00:00"); ("Speed", JStr "401.5");
              ("density", JNull); ("Source", JStr "ACE")];
        JObj [("speed", JNum 3)]].

(** A feed whose second element is [null]. *)
Definition withNull : json := JArr [JObj []; JNull].

End ParserExample.

(** ** Vocabulary of the date properties *)

(** [s] is exactly [width] decimal digits, which read [n]. *)
Definition digitString (width : nat) (n : Z) (s : string) : bool :=
(length (chars s) =? width)%nat && forallb isDigit (chars s)
&& (digitsValue 0 (chars s) =? n).

(** The time values whose ISO form has a four-digit year: from
    [0000-01-01T00:00:00.000Z] to [9999-12-31T23:59:59.999Z]. *)
Definition fourDigitYear (t : Z) : Prop := -62167219200000 <= t <= 253402300799999.

(** ** The periodic refresh and the running server *)

Module Refresh.
Section WithHost.
Context `{JsHost} `{Config}.

(** What one run of [refreshAll] meets: the moment of each of its fifteen
    calls, in order, and how the upstream requests end. *)
Record refreshRun := RefreshRun {
  at_call : nat -> moment;
  plasmaAnswer : fetched (list record);
  magAnswer : fetched (list record);
  kpAnswer : fetched (list record);
  bxAnswer : string -> fetched (list xmlEntry)
}.

(** The stations [refreshAll] asks for, in the order of its calls. *)
Definition refreshStations : list string :=
  ["KEV"; "MAS"; "KIL"; "IVA"; "MUO"; "PEL"; "RAN"; "OUJ"; "MEK"; "HAN"; "NUR"; "TAR"].

(** [try { await getFmiBx(station, 60); } catch (_) {}], station after
    station; [i] numbers the call. *)
Fixpoint refreshBx (run : refreshRun) (i : nat) (stations : list string) (s : server)
  : server :=
  match stations with
  | [] => s
  | station :: rest =>
      refreshBx run (S i) rest
                (getFmiBx station 60 (at_call run i) (bxAnswer run station) s).2
  end.

(** [refreshAll()]: the fetchers one after the other, each awaited before
    the next, their results dropped. *)
Definition refreshAll (run : refreshRun) (s : server) : server :=
  let s1 := (getSolarwind (at_call run 0) (plasmaAnswer run) (magAnswer run) s).2 in
  let s2 := (getKp (at_call run 1) (kpAnswer run) s1).2 in
  let s3 := (getRx (at_call run 2) s2).2 in
  refreshBx run 3 refreshStations s3.

(** One step of the running server: a request answered by one of the
    handlers that use the cache or an upstream service, or a run of
    [refreshAll].  A call reads the cache when it starts and writes its own
    entry when its fetch ends; a step takes the call as a whole.  The health
    and the solar and lunar endpoints use neither the cache nor an upstream
    service and are no steps. *)
Inductive serves : server -> server -> Prop :=
| serves_solarwind w plasmaRes magRes s :
    serves s (solarwindHandler w plasmaRes magRes s).2
| serves_kp w res s : serves s (kpHandler w res s).2
| serves_rx w s : serves s (rxHandler w s).2
| serves_weather q w res s : serves s (weatherHandler q w res s).2
| serves_bx q w res s : serves s (bxHandler q w res s).2
| serves_radar q w res s : serves s (radarHandler q w res s).2
| serves_solarimage q res s : serves s (solarimageHandler q res s).2
| serves_textdata q res s : serves s (textdataHandler q res s).2
| serves_refresh run s : serves s (refreshAll run s).

(** The states of the server from its start on. *)
Inductive running : server -> Prop :=
| running_start : running startServer
| running_step s s' : running s -> serves s s' -> running s'.

(** The key of the magnetometer cache: [`${station}-${minutes}`]. *)
Definition bxKey (station : string) (minutes : Z) : string :=
  station ++ "-" ++ showZ minutes.

(** Every entry of the magnetometer cache is under the key of its own
    payload, which is for one of the twelve stations. *)
Definition bxCacheKeyed (s : server) : Prop :=
  forall key e, c_fmiBx s !! key = Some e ->
    fmi_station (e_data e) ∈ FMI_STATIONS
    /\ key = bxKey (fmi_station (e_data e)) (fmi_minutes (e_data e)).



End WithHost.
End Refresh.
Export Refresh.

Module ServerExample.

(** A request for the series of [MAS] with a window above the range. *)
Definition wideQuery : query := <["station" := "mas"]> (<["minutes" := "999"]> ∅).

Definition firstCall : moment := Moment 1000 1000 1000 0.
Definition laterCall : moment := Moment 5000 5000 5000 1.

End ServerExample.

From Stdlib Require FloatAxioms.

(** ** Vocabulary of the payload properties *)

Section PayloadShapes.
Context `{JsHost} `{Config}.

(** [v] is a finite number or [null]. *)
Definition finiteOrNullValue (v : value) : Prop :=
  v = VNull \/ exists x, v = VNum x /\ isFinite x = true.

(** A row as [parseFmiMagnetometerXml] pushes it: a time that is not empty,
    [bx] and [bz] each a finite number or [null], and not both [null]. *)
Definition parsedRow (r : fmiRow) : Prop :=
  row_time r <> ""
  /\ finiteOrNullValue (row_bx r) /\ finiteOrNullValue (row_bz r)
  /\ ~ (row_bx r = VNull /\ row_bz r = VNull).

(** [1] for a value that is there, [0] for none. *)
Definition countOf {A} (o : option A) : nat :=
  match o with Some _ => 1%nat | None => 0%nat end.

(** What the loop of the parser keeps true of its variables, [seen] blocks
    with a time having been read: the rows pushed so far are well formed, the
    values held are finite numbers or [null], and the rows, with the one
    under construction, are no more than [seen]. *)
Definition xmlInv (seen : nat) (st : xmlState) : Prop :=
  Forall parsedRow (rowsSoFar st)
  /\ finiteOrNullValue (numOrNull (cur_bx st))
  /\ finiteOrNullValue (numOrNull (cur_bz st))
  /\ (length (rowsSoFar st) + countOf (currentTime st) <= seen)%nat.

(** A row with one component only. *)
Definition oneSided (r : fmiRow) : Prop := row_bx r = VNull \/ row_bz r = VNull.

(** The number of element blocks that carry a [Time]. *)
Definition timedBlocks (entries : list xmlEntry) : nat :=
  list_sum (map (fun e => countOf (x_time e)) entries).

(** The series of a solar-wind payload are parallel: one value per time, at
    most [60] of them, and exactly [60] in the mock. *)
Definition solarwindParallel (d : solarwindData) : Prop :=
  match d with
  | Live out =>
      (length (times out) <= 60)%nat
      /\ length (labels out) = length (times out)
      /\ length (speed out) = length (times out)
      /\ length (density out) = length (times out)
      /\ length (bz out) = length (times out)
      /\ length (bt out) = length (times out)
  | Mock m =>
      length (mock_times m) = 60%nat /\ length (mock_labels m) = 60%nat
      /\ length (mock_speed m) = 60%nat /\ length (mock_density m) = 60%nat
  end.

(** The series of a Kp payload are parallel, of at most eight values, none
    empty, and [now] is the last value. *)
Definition kpParallel (d : kpData) : Prop :=
  (1 <= length (kp_values d) <= 8)%nat
  /\ length (kp_labels d) = length (kp_values d)
  /\ last (kp_values d) = Some (kp_now d).

(** The payloads in the solar-wind and Kp slots have parallel series. *)
Definition slotsParallel (s : server) : Prop :=
  (forall d, data (c_solarwind s) = Some d -> solarwindParallel d)
  /\ (forall d, data (c_kp s) = Some d -> kpParallel d).

(** The arrays of the text payload have one element per matched line. *)
Definition textParallel (d : textData) : Prop :=
  length (td_bx d) = length (td_times d) /\ length (td_by d) = length (td_times d)
  /\ length (td_bz d) = length (td_times d).

End PayloadShapes.

Module XmlExample.

(** Two blocks of the same minute, one for each component. *)
Definition twoBlocks : list xmlEntry :=
  [XmlEntry (Some "2024-01-01T12:00:00Z") (Some "BX") (Some "11500.5") None;
   XmlEntry (Some "2024-01-01T12:00:00Z") (Some "BZ") (Some "51000.25") None].

End XmlExample.

Module EndpointExample.

Definition kevQuery : query := <["station" := "kev"]> ∅.

(** A header line, a data line and a line that does not match. *)
Definition dump : string :=
  "YYYY MM DD HH MM SS        X        Y        Z" ++ String "010" ""
  ++ "2024 01 01 12 00 00  11500.5    -20.0  51000.2" ++ String "010" ""
  ++ "no data".

(** The [current] object of an Open-Meteo answer. *)
Definition current : weatherCurrent :=
  WeatherCurrent (Some (VNum 3.14)) (Some VNull) (Some "2024-09-01T10:00").

End EndpointExample.

(** The bound of the radar proxy on a coordinate of the bounding box; the
    comparisons with it are read through the specification of the primitive
    floats. *)
Definition MERC_MAX : number := 20037508.342789244%float.

Module MarkedExample.

(** Two feeds whose tags end in [Z]. *)
Definition plasma : list record :=
  [Rec "2024-01-01T12:01:00Z" (list_to_map [("speed", VNum 400)]);
   Rec "2024-01-01T12:00:00Z" (list_to_map [("speed", VNum 390)])].
Definition mag : list record :=
  [Rec "2024-01-01T12:00:30Z" (list_to_map [("bz", VNum (-2))])].

End MarkedExample.

(** * Properties *)

Local Open Scope list_scope.

(** ** Strings and dates: auxiliary facts *)






Section ClockFacts.
Context `{JsHost} `{Config}.



End ClockFacts.

(** ** The alignment loop *)

Section AlignFacts.
Context `{JsHost} `{Config}.
Implicit Types (plasma mag : list record) (t u : string).

Lemma finiteNum_Some (n : option number) :
  finiteNum n = true → ∃ x, n = Some x.
Proof. destruct n; [eauto | discriminate]. Qed.




(** At a tag where the strict join holds both feeds have a record and the
    four values reported are numbers. *)
Lemma strictJoin_values plasma mag t :
  strictJoin plasma mag t = true →
  ∃ p m b1 b2 sp de,
    mapOf plasma !! t = Some p ∧ mapOf mag !! t = Some m
    ∧ pick (Some m) bzKeys = Some b1 ∧ pick (Some m) btKeys = Some b2
    ∧ pick (Some p) speedKeys = Some sp ∧ pick (Some p) densityKeys = Some de
    ∧ isFinite b1 = true ∧ isFinite b2 = true
    ∧ isFinite sp = true ∧ isFinite de = true.
Proof.
  unfold strictJoin.
  destruct (mapOf plasma !! t) as [p|]; [|discriminate].
  destruct (mapOf mag !! t) as [m|]; [|discriminate].
  intros Hj. repeat (apply andb_prop in Hj as [Hj ?]).
  destruct (pick (Some m) bzKeys) as [b1|] eqn:E1; [|discriminate].
  destruct (pick (Some m) btKeys) as [b2|] eqn:E2; [|discriminate].
  destruct (pick (Some p) speedKeys) as [sp|] eqn:E3; [|discriminate].
  destruct (pick (Some p) densityKeys) as [de|] eqn:E4; [|discriminate].
  exists p, m, b1, b2, sp, de. repeat split; assumption.
Qed.




End AlignFacts.

(** ** The union of the tags *)

Section UnionFacts.
Context `{JsHost} `{Config}.
Implicit Types (plasma mag rows : list record) (t u : string).

Lemma elem_of_uniqFrom (seen l : list string) t :
  t ∈ uniqFrom seen l ↔ t ∈ l ∧ t ∉ seen.
Proof.
  revert seen. induction l as [|x l IH]; intros seen; simpl.
  - split; [by intros ?%elem_of_nil | by intros [?%elem_of_nil _]].
  - case_bool_decide as Hx.
    + rewrite IH, elem_of_cons. split; [tauto|].
      intros [[->|?] ?]; tauto.
    + rewrite !elem_of_cons, IH, elem_of_cons. split.
      * intros [->|[? ?]]; tauto.
      * intros [[->|?] ?]; [tauto|].
        destruct (decide (t = x)); tauto.
Qed.


Lemma elem_of_uniq (l : list string) t : t ∈ uniq l ↔ t ∈ l.
Proof.
  unfold uniq. rewrite elem_of_uniqFrom. split; [tauto|].
  intros ?; split; [done|]. by intros ?%elem_of_nil.
Qed.

Lemma insertSorted_perm (x : string) (l : list string) :
  Permutation (insertSorted x l) (x :: l).
Proof.
  induction l as [|y l IH]; simpl; [done|].
  destruct (before x y); [done|].
  rewrite IH. apply perm_swap.
Qed.

Lemma sortFrom_perm (l acc : list string) :
  Permutation (foldl (fun a x => insertSorted x a) acc l) (acc ++ l).
Proof.
  revert acc. induction l as [|x l IH]; intros acc; simpl.
  - by rewrite app_nil_r.
  - rewrite IH, insertSorted_perm. simpl. apply Permutation_middle.
Qed.

Lemma sortByDate_perm (l : list string) : Permutation (sortByDate l) l.
Proof. apply (sortFrom_perm l []). Qed.

(** [times] holds every tag of either feed, once. *)
Lemma elem_of_unionTimes plasma mag t :
  t ∈ unionTimes plasma mag ↔ t ∈ map time_tag plasma ∨ t ∈ map time_tag mag.
Proof.
  unfold unionTimes, keysOf.
  rewrite sortByDate_perm, elem_of_uniq, elem_of_app, !elem_of_uniq. tauto.
Qed.


(** [map.get(t)] is the last row of the feed with the tag [t]. *)
Lemma mapOf_snoc rows (r : record) t :
  mapOf (rows ++ [r]) !! t
  = if decide (time_tag r = t) then Some r else mapOf rows !! t.
Proof.
  unfold mapOf. rewrite foldl_app. simpl. apply lookup_insert.
Qed.

Lemma mapOf_lookup rows t (r : record) :
  mapOf rows !! t = Some r → r ∈ rows ∧ time_tag r = t.
Proof.
  induction rows as [|x rows IH] using rev_ind.
  - unfold mapOf. simpl. by rewrite lookup_empty.
  - rewrite mapOf_snoc. case_decide as Hx.
    + intros [= <-]. split; [|done]. apply elem_of_app. right. constructor.
    + intros Hr. destruct (IH Hr). split; [|done]. apply elem_of_app. by left.
Qed.

Lemma mapOf_is_Some rows t :
  is_Some (mapOf rows !! t) ↔ t ∈ map time_tag rows.
Proof.
  induction rows as [|x rows IH] using rev_ind.
  - unfold mapOf. simpl. rewrite lookup_empty. split; [by intros [? ?]|by intros ?%elem_of_nil].
  - rewrite mapOf_snoc, map_app, elem_of_app. simpl. rewrite list_elem_of_singleton.
    case_decide as Hx; [split; eauto|]. rewrite IH. split; [tauto|].
    intros [?|?]; [done|congruence].
Qed.

Lemma strictJoin_in_both plasma mag t :
  strictJoin plasma mag t = true →
  t ∈ map time_tag plasma ∧ t ∈ map time_tag mag.
Proof.
  intros Hj. destruct (strictJoin_values _ _ _ Hj) as (p & m & ? & ? & ? & ? & Hp & Hm & _).
  split; apply mapOf_is_Some; eauto.
Qed.

End UnionFacts.

(** ** C1: the current snapshot *)



Module C1Example.
Import Demo SolarwindExample.


End C1Example.

(** ** C2: the fallback snapshot *)

Section FallbackFacts.
Context `{JsHost} `{Config}.



Lemma toNumber_null : toNumber None = None.
Proof. reflexivity. Qed.





End FallbackFacts.


Module C2Example.
Import Demo FallbackExample.




End C2Example.

(** ** C3: unmarked timestamps are read as UTC *)

Section IsoFormat.

Lemma chars_app (s1 s2 : string) : chars (s1 ++ s2)%string = chars s1 ++ chars s2.
Proof. induction s1 as [|c s1 IH]; simpl; [done|]. unfold chars in *. simpl. by rewrite IH. Qed.

Lemma num2_inv (l r : list ascii) (v : Z) :
  num2 l = Some (v, r) →
  ∃ a b, l = a :: b :: r ∧ isDigit a = true ∧ isDigit b = true
         ∧ v = 10 * digitVal a + digitVal b.
Proof.
  destruct l as [|a [|b l]]; simpl; try discriminate.
  destruct (isDigit a) eqn:Ha, (isDigit b) eqn:Hb; simpl; try discriminate.
  intros [= <- <-]. eauto 10.
Qed.

Lemma num2_digits (a b : ascii) (r : list ascii) :
  isDigit a = true → isDigit b = true →
  num2 (a :: b :: r) = Some (10 * digitVal a + digitVal b, r).
Proof. intros Ha Hb. unfold num2. by rewrite Ha, Hb. Qed.

Lemma digitVal_range (a : ascii) : isDigit a = true → 0 ≤ digitVal a ≤ 9.
Proof. unfold isDigit, digitVal. lia. Qed.

Lemma expect_inv (c : ascii) (l r : list ascii) : expect c l = Some r → l = c :: r.
Proof.
  destruct l as [|a l]; simpl; [discriminate|].
  destruct (Ascii.eqb_spec a c); [|discriminate]. by intros [= <-]; subst.
Qed.

Lemma expect_same (c : ascii) (r : list ascii) : expect c (c :: r) = Some r.
Proof. simpl. by rewrite Ascii.eqb_refl. Qed.

Lemma expect_other (c a : ascii) (r : list ascii) : a ≠ c → expect c (a :: r) = None.
Proof. intros Hne. simpl. by destruct (Ascii.eqb_spec a c). Qed.

Lemma digit_neq (a c : ascii) : isDigit a = true → isDigit c = false → a ≠ c.
Proof. intros Ha Hc ->. congruence. Qed.

End IsoFormat.

Section IsoShape.

Lemma parseZone_absent (l : list ascii) : parseZone l = Some ZoneAbsent → l = [].
Proof.
  destruct l as [|c r]; [done|]. simpl.
  destruct (Ascii.eqb c "Z"); [by destruct r|].
  destruct (_ || _); [|discriminate].
  destruct (num2 r) as [[hh r1]|]; [|discriminate].
  destruct (expect ":" r1) as [r2|]; [|discriminate].
  destruct (num2 r2) as [[mm [|? ?]]|]; try discriminate.
  by destruct (_ && _).
Qed.

Lemma parseSeconds_absent (l : list ascii) (s ms : Z) :
  parseSeconds l = Some (s, ms, ZoneAbsent) → secondsTail l s ms.
Proof.
  unfold parseSeconds.
  destruct (expect ":" l) as [r|] eqn:He.
  - apply expect_inv in He as ->.
    destruct (num2 r) as [[v r1]|] eqn:Hn; [|discriminate].
    apply num2_inv in Hn as (a & b & -> & Ha & Hb & ->).
    destruct (expect "." r1) as [r2|] eqn:He2.
    + apply expect_inv in He2 as ->.
      unfold num3. destruct r2 as [|f1 r2]; [discriminate|].
      destruct (isDigit f1) eqn:Hf1; [|discriminate].
      destruct (num2 r2) as [[w r3]|] eqn:Hn2; [|discriminate].
      apply num2_inv in Hn2 as (f2 & f3 & -> & Hf2 & Hf3 & ->).
      destruct (parseZone r3) as [z|] eqn:Hz; [|discriminate].
      simpl. intros [= <- <- ->]. apply parseZone_absent in Hz as ->.
      by constructor.
    + destruct (parseZone r1) as [z|] eqn:Hz; [|discriminate].
      simpl. intros [= <- <- ->]. apply parseZone_absent in Hz as ->.
      by constructor.
  - destruct (parseZone l) as [z|] eqn:Hz; [|discriminate].
    simpl. intros [= <- <- ->]. apply parseZone_absent in Hz as ->.
    constructor.
Qed.

(** A date-time string without offset, taken apart. *)
Lemma parseIso_absent_shape (s : string) (c : civil) :
  parseIso s = Some (c, ZoneAbsent) →
  ∃ y1 y2 y3 y4 m1 m2 d1 d2 h1 h2 n1 n2 tl,
    chars s = [y1; y2; y3; y4; "-"; m1; m2; "-"; d1; d2]%char
              ++ "T"%char :: [h1; h2; ":"; n1; n2]%char ++ tl
    ∧ Forall (fun a => isDigit a = true) [y1; y2; y3; y4; m1; m2; d1; d2; h1; h2; n1; n2]
    ∧ secondsTail tl (second c) (millis c)
    ∧ year c = 100 * (10 * digitVal y1 + digitVal y2) + (10 * digitVal y3 + digitVal y4)
    ∧ month c = 10 * digitVal m1 + digitVal m2
    ∧ day c = 10 * digitVal d1 + digitVal d2
    ∧ hour c = 10 * digitVal h1 + digitVal h2
    ∧ minute c = 10 * digitVal n1 + digitVal n2.
Proof.
  unfold parseIso, parseDate, num4.
  destruct (num2 (chars s)) as [[hi r]|] eqn:H1; [|discriminate].
  apply num2_inv in H1 as (y1 & y2 & -> & Hy1 & Hy2 & ->).
  destruct (num2 r) as [[lo r0]|] eqn:H2; [|discriminate].
  apply num2_inv in H2 as (y3 & y4 & -> & Hy3 & Hy4 & ->).
  destruct (expect "-" r0) as [r1|] eqn:He1; [|discriminate].
  apply expect_inv in He1 as ->.
  destruct (num2 r1) as [[mo r2]|] eqn:H3; [|discriminate].
  apply num2_inv in H3 as (m1 & m2 & -> & Hm1 & Hm2 & ->).
  destruct (expect "-" r2) as [r3|] eqn:He2; [|discriminate].
  apply expect_inv in He2 as ->.
  destruct (num2 r3) as [[d r4]|] eqn:H4; [|discriminate].
  apply num2_inv in H4 as (d1 & d2 & -> & Hd1 & Hd2 & ->).
  simpl. destruct r4 as [|t r4]; [discriminate|].
  destruct (Ascii.eqb_spec t "T") as [->|]; [|discriminate].
  unfold parseTime.
  destruct (num2 r4) as [[h r5]|] eqn:H5; [|discriminate].
  apply num2_inv in H5 as (h1 & h2 & -> & Hh1 & Hh2 & ->).
  destruct (expect ":" r5) as [r6|] eqn:He3; [|discriminate].
  apply expect_inv in He3 as ->.
  destruct (num2 r6) as [[mi r7]|] eqn:H6; [|discriminate].
  apply num2_inv in H6 as (n1 & n2 & -> & Hn1 & Hn2 & ->).
  destruct (parseSeconds r7) as [[[sec ms] z]|] eqn:Hs; [|discriminate].
  simpl. intros [= <- ->]. apply parseSeconds_absent in Hs.
  exists y1, y2, y3, y4, m1, m2, d1, d2, h1, h2, n1, n2, r7.
  simpl. repeat split; try done. repeat constructor; done.
Qed.

End IsoShape.

Section Unmarked.
Context `{JsHost}.

Lemma replaceFirst_unchanged (s : string) :
  "T"%char ∉ chars (replaceFirst " " "T" s) → replaceFirst " " "T" s = s.
Proof.
  induction s as [|a s IH]; simpl; [done|].
  destruct (Ascii.eqb_spec a " ") as [->|Hne].
  - intros Hnot. exfalso. apply Hnot. constructor.
  - intros Hnot. f_equal. apply IH. intros Hin. apply Hnot.
    unfold chars in *. simpl. by constructor.
Qed.

(** The strings that [replace(' ', 'T')] sends to a string with a single
    [T]: the same string, with a [T] or a space at that place. *)
Lemma replaceFirst_T_inv (s : string) (pre post : list ascii) :
  chars (replaceFirst " " "T" s) = pre ++ "T"%char :: post →
  "T"%char ∉ pre → "T"%char ∉ post →
  ∃ sep, (sep = " "%char ∨ sep = "T"%char) ∧ chars s = pre ++ sep :: post.
Proof.
  revert pre. induction s as [|a s IH]; intros pre Hs Hpre Hpost.
  - destruct pre; discriminate.
  - simpl in Hs. destruct (Ascii.eqb_spec a " ") as [->|Hne].
    + destruct pre as [|p pre]; unfold chars in *; simpl in *.
      * injection Hs as ->. exists " "%char. auto.
      * injection Hs as <- _. exfalso. apply Hpre. constructor.
    + destruct pre as [|p pre]; unfold chars in *; simpl in *.
      * injection Hs as -> Hs. exists "T"%char. split; [auto|].
        f_equal. rewrite <- Hs. f_equal. symmetry. apply replaceFirst_unchanged.
        unfold chars. by rewrite Hs.
      * injection Hs as -> Hs.
        destruct (IH pre Hs) as (sep & Hsep & ->); [|done|].
        -- intros Hin. apply Hpre. by constructor.
        -- exists sep. auto.
Qed.

Lemma contains_chars (a : ascii) (s : string) :
  contains a s = existsb (fun c => Ascii.eqb c a) (chars s).
Proof. induction s as [|c s IH]; simpl; [done|]. unfold chars in *. simpl. by rewrite IH. Qed.

Lemma digit_eqb (a c : ascii) :
  isDigit a = true → isDigit c = false → Ascii.eqb a c = false.
Proof. intros Ha Hc. destruct (Ascii.eqb_spec a c) as [->|]; congruence. Qed.

Lemma secondsTail_no_T (tl : list ascii) (s ms : Z) :
  secondsTail tl s ms → "T"%char ∉ tl.
Proof.
  intros Htl Hin. apply list_elem_of_In in Hin.
  destruct Htl; simpl in Hin;
    repeat (destruct Hin as [Hin|Hin]; [try discriminate; subst; discriminate|]); done.
Qed.

End Unmarked.

Section UnmarkedMain.
Context `{JsHost}.

Lemma utcMillis_in_range (c : civil) :
  0 ≤ year c ≤ 9999 → 1 ≤ month c ≤ 12 → 1 ≤ day c ≤ 31 →
  0 ≤ hour c ≤ 23 → 0 ≤ minute c ≤ 59 → 0 ≤ second c ≤ 59 → 0 ≤ millis c ≤ 999 →
  timeClip (utcMillis c) = Some (utcMillis c).
Proof.
  intros Hy Hm Hd Hh Hn Hs Hms. unfold timeClip.
  assert ((Z.abs (utcMillis c) <=? 8640000000000000) = true) as ->; [|done].
  apply Z.leb_le. unfold utcMillis, daysFromCivil, msPerDay, msPerHour, msPerMinute.
  destruct (month c <=? 2) eqn:Hm2; destruct (2 <? month c) eqn:Hm3;
    Z.div_mod_to_equations; lia.
Qed.

End UnmarkedMain.

Section UnmarkedTheorem.
Context `{JsHost}.

Lemma not_T_date (y1 y2 y3 y4 m1 m2 d1 d2 : ascii) :
  Forall (fun a => isDigit a = true) [y1; y2; y3; y4; m1; m2; d1; d2] →
  "T"%char ∉ [y1; y2; y3; y4; "-"; m1; m2; "-"; d1; d2]%char.
Proof.
  intros Hd Hin. apply list_elem_of_In in Hin.
  repeat (apply Forall_cons in Hd as [? Hd]).
  simpl in Hin.
  repeat (destruct Hin as [Hin|Hin]; [try discriminate; subst; discriminate|]); done.
Qed.

Lemma not_T_time (h1 h2 n1 n2 : ascii) (tl : list ascii) (s ms : Z) :
  Forall (fun a => isDigit a = true) [h1; h2; n1; n2] → secondsTail tl s ms →
  "T"%char ∉ [h1; h2; ":"; n1; n2]%char ++ tl.
Proof.
  intros Hd Htl Hin. apply elem_of_app in Hin as [Hin|Hin].
  - apply list_elem_of_In in Hin.
    repeat (apply Forall_cons in Hd as [? Hd]).
    simpl in Hin.
    repeat (destruct Hin as [Hin|Hin]; [try discriminate; subst; discriminate|]); done.
  - by eapply secondsTail_no_T.
Qed.

End UnmarkedTheorem.

Section UnmarkedFinal.
Context `{JsHost}.

Ltac digits_of Hd := repeat (apply Forall_cons in Hd as [? Hd]).

Lemma unmarked_has_no_marker (s : string) (c : civil) :
  parseIso (replaceFirst " " "T" s) = Some (c, ZoneAbsent) →
  hasTzMarker s = false.
Proof.
  intros Hp.
  destruct (parseIso_absent_shape _ _ Hp)
    as (y1 & y2 & y3 & y4 & m1 & m2 & d1 & d2 & h1 & h2 & n1 & n2 & tl
        & Hchars & Hd & Htl & _).
  destruct (replaceFirst_T_inv _ _ _ Hchars) as (sep & Hsep & Hs).
  { apply not_T_date. digits_of Hd. repeat constructor; done. }
  { eapply not_T_time; [|done]. digits_of Hd. repeat constructor; done. }
  unfold hasTzMarker, endsWithOffset. rewrite contains_chars, Hs.
  digits_of Hd.
  assert (∀ a, isDigit a = true → Ascii.eqb a "Z" = false) as HZ
      by (intros; by apply digit_eqb).
  assert (∀ a, isDigit a = true → Ascii.eqb a "+" = false) as Hplus
      by (intros; by apply digit_eqb).
  assert (∀ a, isDigit a = true → Ascii.eqb a "-" = false) as Hminus
      by (intros; by apply digit_eqb).
  assert (∀ a, isDigit a = true → Ascii.eqb a ":" = false) as Hcolon
      by (intros; by apply digit_eqb).
  destruct Htl; destruct Hsep as [-> | ->]; simpl;
    repeat (rewrite ?HZ, ?Hplus, ?Hminus, ?Hcolon by done; simpl);
    repeat match goal with Hx : isDigit _ = true |- _ => rewrite Hx; simpl end;
    repeat (rewrite ?HZ, ?Hplus, ?Hminus, ?Hcolon by done; simpl);
    reflexivity.
Qed.

End UnmarkedFinal.

Section UnmarkedFinal2.
Context `{JsHost}.

Ltac digits_of Hd := repeat (apply Forall_cons in Hd as [? Hd]).

(** With [Z] appended, a date-time string without offset stands for the
    same civil fields, now in UTC. *)
Lemma parseIso_append_Z (s : string) (c : civil) :
  parseIso s = Some (c, ZoneAbsent) →
  parseIso (s ++ "Z")%string = Some (c, ZoneUtc).
Proof.
  intros Hp.
  destruct (parseIso_absent_shape _ _ Hp)
    as (y1 & y2 & y3 & y4 & m1 & m2 & d1 & d2 & h1 & h2 & n1 & n2 & tl
        & Hchars & Hd & Htl & Hy & Hm & Hdd & Hh & Hn).
  unfold parseIso. rewrite chars_app, Hchars. digits_of Hd.
  destruct c as [cy cm cd ch cn cs cms]. simpl in *. subst.
  unfold parseDate, num4, parseTime, parseSeconds, num3.
  destruct Htl; simpl;
    repeat match goal with Hx : isDigit _ = true |- _ => rewrite Hx; simpl end;
    reflexivity.
Qed.

Lemma civil_ranges (s : string) (c : civil) :
  parseIso s = Some (c, ZoneAbsent) → validCivil c = true →
  0 ≤ year c ≤ 9999 ∧ 1 ≤ month c ≤ 12 ∧ 1 ≤ day c ≤ 31
  ∧ 0 ≤ hour c ≤ 23 ∧ 0 ≤ minute c ≤ 59 ∧ 0 ≤ second c ≤ 59 ∧ 0 ≤ millis c ≤ 999.
Proof.
  intros Hp Hv.
  destruct (parseIso_absent_shape _ _ Hp)
    as (y1 & y2 & y3 & y4 & m1 & m2 & d1 & d2 & h1 & h2 & n1 & n2 & tl
        & Hchars & Hd & Htl & Hy & Hm & Hdd & Hh & Hn).
  digits_of Hd.
  repeat match goal with Hx : isDigit _ = true |- _ => apply digitVal_range in Hx end.
  unfold validCivil in Hv. repeat (apply andb_prop in Hv as [Hv ?]).
  assert (daysInMonth (year c) (month c) ≤ 31) as Hdim.
  { unfold daysInMonth.
    destruct (month c =? 2); [destruct (isLeap (year c)); lia|].
    destruct (_ || _); lia. }
  assert (0 ≤ second c ∧ 0 ≤ millis c ≤ 999) as [? ?].
  { destruct Htl;
      repeat match goal with Hx : isDigit _ = true |- _ => apply digitVal_range in Hx end;
      lia. }
  lia.
Qed.

End UnmarkedFinal2.

(** C3.  A timestamp without time-zone marker (a date and a time of day in
    the ECMAScript format, the two separated by [T] or by a space, with no [Z]
    and no offset after it) is normalized as the UTC instant its fields name,
    whatever the local time zone of the host: [parseToUTC] gives the time
    value of the fields read as UTC and [normalizeUtcIso] its ISO form. *)
Theorem unmarked_timestamp_is_utc `{JsHost} (s : string) (c : civil) :
  parseIso (replaceFirst " " "T" s) = Some (c, ZoneAbsent) →
  validCivil c = true →
  hasTzMarker s = false
  ∧ parseToUTC s = Some (utcMillis c)
  ∧ normalizeUtcIso s = isoString (utcMillis c).
Proof.
  intros Hp Hv.
  pose proof (unmarked_has_no_marker s c Hp) as Hmark.
  assert (parseToUTC s = Some (utcMillis c)) as Hutc.
  { unfold parseToUTC, newDate. rewrite Hmark, (parseIso_append_Z _ _ Hp), Hv. simpl.
    destruct (civil_ranges _ _ Hp Hv) as (? & ? & ? & ? & ? & ? & ?).
    by apply utcMillis_in_range. }
  split; [done|]. split; [done|].
  unfold normalizeUtcIso. by rewrite Hutc.
Qed.

Module C3Example.
Import Demo.

(** On a host two hours east of UTC, ["2024-01-01 12:00:00"] is normalized to
    noon UTC, while [new Date] reads the same fields as local time. *)
Lemma unmarked_timestamp_example :
  hasTzMarker "2024-01-01 12:00:00" = false
  ∧ parseToUTC "2024-01-01 12:00:00" = Some 1704110400000
  ∧ normalizeUtcIso "2024-01-01 12:00:00" = "2024-01-01T12:00:00.000Z".
Proof.
  exact (unmarked_timestamp_is_utc "2024-01-01 12:00:00" (Civil 2024 1 1 12 0 0 0)
                                   eq_refl eq_refl).
Defined.

End C3Example.

(** ** C4: the read-through cache *)

Section CacheFacts.
Context `{JsHost} `{Config}.

Lemma freshSlot_stored {P} (sl : slot P) (now ttl : Z) :
  freshSlot sl now ttl
  = match storedSlot sl with
    | Some (d, t) => if now - t <? ttl then Some d else None
    | None => None
    end.
Proof. unfold freshSlot, storedSlot. by destruct (data sl). Qed.

Lemma freshEntry_stored {P} (e : option (entry P)) (now ttl : Z) :
  freshEntry e now ttl
  = match storedEntry e with
    | Some (d, t) => if now - t <? ttl then Some d else None
    | None => None
    end.
Proof. unfold freshEntry, storedEntry. by destruct e. Qed.

Lemma getSolarwind_readThrough (plasmaRes magRes : fetched (list record)) :
  readThrough (fun w s => getSolarwind w plasmaRes magRes s)
              (fun s => storedSlot (c_solarwind s)) TTL_MS
              [SWPC_PLASMA_URL; SWPC_MAG_URL].
Proof.
  intros w s. unfold getSolarwind. rewrite freshSlot_stored.
  destruct (storedSlot (c_solarwind s)) as [[d t]|]; [destruct (_ <? _)|]; done.
Qed.

Lemma getKp_readThrough (res : fetched (list record)) :
  readThrough (fun w s => getKp w res s) (fun s => storedSlot (c_kp s)) TTL_MS
              [SWPC_KP_URL].
Proof.
  intros w s. unfold getKp. rewrite freshSlot_stored.
  destruct (storedSlot (c_kp s)) as [[d t]|]; [destruct (_ <? _)|]; done.
Qed.

Lemma getRx_readThrough :
  readThrough (fun w s => getRx w s) (fun s => storedSlot (c_rx s)) TTL_MS [].
Proof.
  intros w s. unfold getRx. rewrite freshSlot_stored.
  destruct (storedSlot (c_rx s)) as [[d t]|]; [destruct (_ <? _)|]; simpl;
    rewrite ?app_nil_r; done.
Qed.

Lemma getWeatherTemperature_readThrough (lat lon : number)
      (res : fetched (option weatherCurrent)) :
  readThrough (fun w s => getWeatherTemperature lat lon w res s)
              (fun s => storedEntry
                          (c_weatherTemp s !! (toFixed 4 lat ++ "," ++ toFixed 4 lon)%string))
              WEATHER_TTL_MS [OPEN_METEO_URL lat lon].
Proof.
  intros w s. unfold getWeatherTemperature. rewrite freshEntry_stored.
  destruct (storedEntry _) as [[d t]|]; [destruct (_ <? _)|]; simpl;
    rewrite ?lookup_insert_eq; done.
Qed.

Lemma getFmiBx_readThrough (station : string) (minutes : Z)
      (res : fetched (list xmlEntry)) :
  readThrough (fun w s => getFmiBx station minutes w res s)
              (fun s => storedEntry (c_fmiBx s !! (station ++ "-" ++ showZ minutes)%string))
              TTL_MS [FMI_OPEN_DATA_URL (fmisidOf station)].
Proof.
  intros w s. unfold getFmiBx. rewrite freshEntry_stored.
  destruct (storedEntry _) as [[d t]|]; [destruct (_ <? _)|]; simpl;
    rewrite ?lookup_insert_eq; done.
Qed.

End CacheFacts.

Section RadarCacheFacts.
Context `{JsHost}.

Lemma radarHandler_valid (q : query) (w : moment)
      (res : fetched (option string * list Z)) (s : server) :
  radarValid q →
  radarHandler q w res s
  = match c_fmiRadar s !! radarKey q with
    | Some ent =>
        if nowMs w - tile_ts ent <? TTL_MS
        then (Sent (tile_ct ent, tile_buf ent), s)
        else radarFetch (radarKey q) w res s
    | None => radarFetch (radarKey q) w res s
    end.
Proof.
  intros (Hl & Hn & Hf). unfold radarHandler, radarKey.
  destruct (layersOf q) as [|l ls] eqn:Hlayers; [done|].
  set (parts := map parseFloat (splitOn "," (paramOr q "bbox" ""))) in *.
  assert (negb (length parts =? 4)%nat || existsb (fun n => negb (isFinite n)) parts = false)
    as ->; [|done].
  apply orb_false_iff. split.
  - rewrite Hn. reflexivity.
  - apply not_true_is_false. intros (n & Hin & Hneg)%existsb_exists.
    apply list_elem_of_In in Hin.
    rewrite Forall_forall in Hf. rewrite (Hf n Hin) in Hneg. discriminate.
Qed.

(** The radar cache on a miss: one upstream request; a tile is stored and
    sent when the upstream answers with one, and nothing is stored when it
    fails. *)
Lemma radarFetch_outcome (q : query) (w : moment)
      (res : fetched (option string * list Z)) (s : server) :
  let r := (radarFetch (radarKey q) w res s).1 in
  let s' := (radarFetch (radarKey q) w res s).2 in
  requests s' = requests s ++ [FMI_WMS_URL (radarKey q)]
  ∧ match res with
    | Body (hdr, buf) =>
        (∃ ct, r = Sent (ct, buf)) ∧ storedTile q s' = Some (r, nowMs w)
    | _ => statusOf r = 502 ∧ c_fmiRadar s' = c_fmiRadar s
    end.
Proof.
  unfold radarFetch, storedTile.
  destruct res as [| st | | [hdr buf]]; simpl; try done.
  split; [done|]. split; [eauto|]. by rewrite lookup_insert_eq.
Qed.

End RadarCacheFacts.

(** After a miss, a second call within the time to live returns the first
    call's payload and leaves the state as the first call left it. *)
Lemma readThrough_second_call {P : Type} (fetch : moment → server → P * server)
      (stored : server → option (P * Z)) (ttl : Z) (urls : list upstreamUrl)
      (w1 w2 : moment) (s : server) :
  readThrough fetch stored ttl urls →
  match stored s with Some (_, t) => ttl ≤ nowMs w1 - t | None => True end →
  nowMs w2 - nowMs w1 < ttl →
  fetch w2 (fetch w1 s).2 = fetch w1 s.
Proof.
  intros Hrt Hexpired Hfresh.
  pose proof (Hrt w1 s) as H1. pose proof (Hrt w2 (fetch w1 s).2) as H2.
  simpl in *.
  assert (stored (fetch w1 s).2 = Some ((fetch w1 s).1, nowMs w1)) as Hst.
  { destruct (stored s) as [[d t]|]; [|tauto].
    destruct (Z.ltb_spec (nowMs w1 - t) ttl); [lia|tauto]. }
  rewrite Hst in H2. destruct (Z.ltb_spec (nowMs w2 - nowMs w1) ttl); [|lia].
  rewrite H2. by destruct (fetch w1 s).
Qed.

(** C4 (as amended).  Each cached JSON resource (solar wind, Kp, radio
    blackout, weather by coordinates, magnetometer by station and window) is
    read through its cache entry: an entry younger than the time to live
    ([now - ts < TTL]) is returned as stored without any upstream request;
    otherwise each upstream request of the resource is issued exactly once and
    what the fetch yields, live or fallback, is stored with the current time
    and returned.  The radar tile cache serves a stored tile in the same way,
    and on a miss issues one upstream request; it stores and sends the tile
    when the upstream answers, and stores nothing (status 502) when it fails. *)
Theorem cache_read_through `{JsHost} `{Config} :
  (∀ plasmaRes magRes,
      readThrough (fun w s => getSolarwind w plasmaRes magRes s)
                  (fun s => storedSlot (c_solarwind s)) TTL_MS
                  [SWPC_PLASMA_URL; SWPC_MAG_URL])
  ∧ (∀ res, readThrough (fun w s => getKp w res s)
                        (fun s => storedSlot (c_kp s)) TTL_MS [SWPC_KP_URL])
  ∧ readThrough (fun w s => getRx w s) (fun s => storedSlot (c_rx s)) TTL_MS []
  ∧ (∀ lat lon res,
        readThrough (fun w s => getWeatherTemperature lat lon w res s)
                    (fun s => storedEntry
                                (c_weatherTemp s
                                   !! (toFixed 4 lat ++ "," ++ toFixed 4 lon)%string))
                    WEATHER_TTL_MS [OPEN_METEO_URL lat lon])
  ∧ (∀ station minutes res,
        readThrough (fun w s => getFmiBx station minutes w res s)
                    (fun s => storedEntry
                                (c_fmiBx s !! (station ++ "-" ++ showZ minutes)%string))
                    TTL_MS [FMI_OPEN_DATA_URL (fmisidOf station)])
  ∧ (∀ q w res s,
        radarValid q →
        let r := (radarHandler q w res s).1 in
        let s' := (radarHandler q w res s).2 in
        let miss :=
          requests s' = requests s ++ [FMI_WMS_URL (radarKey q)]
          ∧ match res with
            | Body (hdr, buf) =>
                (∃ ct, r = Sent (ct, buf)) ∧ storedTile q s' = Some (r, nowMs w)
            | _ => statusOf r = 502 ∧ c_fmiRadar s' = c_fmiRadar s
            end in
        match storedTile q s with
        | Some (tile, t) =>
            if nowMs w - t <? TTL_MS then radarHandler q w res s = (tile, s) else miss
        | None => miss
        end).
Proof.
  split; [apply getSolarwind_readThrough|].
  split; [apply getKp_readThrough|].
  split; [apply getRx_readThrough|].
  split; [apply getWeatherTemperature_readThrough|].
  split; [apply getFmiBx_readThrough|].
  intros q w res s Hvalid. simpl.
  rewrite (radarHandler_valid q w res s Hvalid). unfold storedTile.
  destruct (c_fmiRadar s !! radarKey q) as [ent|] eqn:Hent; simpl.
  - destruct (nowMs w - tile_ts ent <? TTL_MS); [done|].
    apply (radarFetch_outcome q w res s).
  - apply (radarFetch_outcome q w res s).
Qed.

Module C4Example.
Import Demo RadarExample.

Lemma radarValid_tileQuery : radarValid tileQuery.
Proof.
  split; [by vm_compute|]. split; [by vm_compute|].
  vm_compute. repeat constructor.
Qed.

(** The radar cache does not keep to the contract: after an upstream failure
    on an empty cache nothing is stored. *)
Lemma radar_failure_not_stored :
  ¬ readThrough (fun w s => radarHandler tileQuery w (HttpError 503) s)
                (storedTile tileQuery) TTL_MS [FMI_WMS_URL (radarKey tileQuery)].
Proof.
  intros Hrt. specialize (Hrt noon startServer).
  vm_compute in Hrt. destruct Hrt as [_ Hstored]. discriminate Hstored.
Qed.

(** The same request, the upstream failing: one request, status 502, the
    cache as before. *)
Lemma cache_read_through_example :
  radarValid tileQuery
  ∧ requests (radarHandler tileQuery noon (HttpError 503) startServer).2
    = [FMI_WMS_URL (radarKey tileQuery)]
  ∧ statusOf (radarHandler tileQuery noon (HttpError 503) startServer).1 = 502
  ∧ c_fmiRadar (radarHandler tileQuery noon (HttpError 503) startServer).2 = ∅.
Proof.
  split; [exact radarValid_tileQuery|].
  destruct cache_read_through as (_ & _ & _ & _ & _ & Hradar).
  exact (Hradar tileQuery noon (HttpError 503) startServer radarValid_tileQuery).
Defined.

End C4Example.

(** ** C5: upstream failures *)

Section FailureFacts.
Context `{JsHost} `{Config}.


Lemma freshEntry_stale {P} (e : option (entry P)) (now ttl : Z) :
  stale (storedEntry e) now ttl → freshEntry e now ttl = None.
Proof.
  unfold stale, storedEntry, freshEntry. destruct e as [ent|]; [|done]. simpl.
  intros Hold. by destruct (Z.ltb_spec (now - e_ts ent) ttl); [lia|].
Qed.









End FailureFacts.


Module C5Example.
Import Demo RadarExample.



End C5Example.

(** ** C6: the layers of a radar tile request *)

Section LayerFacts.
Context `{JsHost}.

Lemma allowedLayer_iff (p : string) : allowedLayer p = true ↔ p ∈ FMI_RADAR_LAYERS.
Proof.
  unfold allowedLayer. rewrite andb_true_iff, negb_true_iff, bool_decide_eq_true.
  split; [tauto|]. intros Hin. split; [|done].
  apply String.eqb_neq. intros ->.
  apply list_elem_of_In in Hin. simpl in Hin.
  destruct Hin as [|[|]]; done.
Qed.

Lemma layersOf_nil (q : query) :
  layersOf q = []
  ↔ ∀ p, p ∈ map trim (splitOn "," (paramOr q "layers" "Radar:radar_ppi_fikau_dbzv")) →
         p ∉ FMI_RADAR_LAYERS.
Proof.
  unfold layersOf.
  set (pieces := map trim (splitOn "," (paramOr q "layers" "Radar:radar_ppi_fikau_dbzv"))).
  split.
  - intros Hnil p Hp Hin.
    assert (In p (List.filter allowedLayer pieces)) as Hf.
    { apply filter_In. split; [by apply list_elem_of_In | by apply allowedLayer_iff]. }
    by rewrite Hnil in Hf.
  - intros Hnone. destruct (List.filter allowedLayer pieces) as [|p ps] eqn:Hf; [done|].
    assert (In p (List.filter allowedLayer pieces)) as Hin by (rewrite Hf; by left).
    apply filter_In in Hin as [Hin Hok].
    destruct (Hnone p); [by apply list_elem_of_In | by apply allowedLayer_iff].
Qed.

Lemma elem_of_layersOf (q : query) (p : string) :
  p ∈ layersOf q
  ↔ p ∈ map trim (splitOn "," (paramOr q "layers" "Radar:radar_ppi_fikau_dbzv"))
    ∧ p ∈ FMI_RADAR_LAYERS.
Proof.
  unfold layersOf. rewrite list_elem_of_In, filter_In, <- list_elem_of_In.
  by rewrite allowedLayer_iff.
Qed.

End LayerFacts.

(** C6.  The radar tile proxy splits the [layers] parameter at the commas,
    trims the pieces and keeps the ones on the allowlist (the two permitted
    identifiers).  It refuses the request for its layers, with status 400,
    exactly when nothing is left: a parameter with no allowed value is
    refused, and a mix of allowed and other values is not; the request goes
    on with the allowed values only. *)
Theorem radar_layers_allowlist `{JsHost} (q : query) (w : moment)
    (res : fetched (option string * list Z)) (s : server) :
  let pieces := map trim (splitOn "," (paramOr q "layers" "Radar:radar_ppi_fikau_dbzv")) in
  length FMI_RADAR_LAYERS = 2%nat
  ∧ (∀ p, p ∈ layersOf q ↔ p ∈ pieces ∧ p ∈ FMI_RADAR_LAYERS)
  ∧ ((∀ p, p ∈ pieces → p ∉ FMI_RADAR_LAYERS) →
     radarHandler q w res s = (Refused 400 "Invalid or missing layers", s))
  ∧ ((∃ p, p ∈ pieces ∧ p ∈ FMI_RADAR_LAYERS) →
     (radarHandler q w res s).1 ≠ Refused 400 "Invalid or missing layers").
Proof.
  intros pieces. split; [done|]. split; [apply elem_of_layersOf|]. split.
  - intros Hnone%layersOf_nil. unfold radarHandler. by rewrite Hnone.
  - intros (p & Hp & Hin).
    assert (layersOf q ≠ []) as Hne.
    { intros Hnil. rewrite layersOf_nil in Hnil. by apply (Hnil p). }
    unfold radarHandler. destruct (layersOf q) as [|l ls]; [done|].
    destruct (_ || _); [done|].
    destruct (c_fmiRadar s !! _) as [ent|].
    + destruct (_ <? _); [done|].
      unfold radarFetch. by destruct res as [| | |[? ?]].
    + unfold radarFetch. by destruct res as [| | |[? ?]].
Qed.

Module C6Example.
Import Demo RadarExample.

(** A mix of an unknown and an allowed layer is not refused; unknown layers
    alone are. *)
Lemma radar_layers_example :
  (radarHandler (<["layers" := "bogus, Radar:suomi_rr_eureffin"]> (<["bbox" := "1,2,3,4"]> ∅))
                noon (Body (Some "image/png", [137; 80])) startServer).1
  ≠ Refused 400 "Invalid or missing layers"
  ∧ radarHandler (<["layers" := "bogus,other"]> (<["bbox" := "1,2,3,4"]> ∅))
                 noon (Body (Some "image/png", [137; 80])) startServer
    = (Refused 400 "Invalid or missing layers", startServer).
Proof.
  split.
  - apply radar_layers_allowlist. exists "Radar:suomi_rr_eureffin".
    split; apply list_elem_of_In; vm_compute; tauto.
  - apply radar_layers_allowlist. intros p Hp Hin.
    apply list_elem_of_In in Hp. apply list_elem_of_In in Hin.
    vm_compute in Hp. vm_compute in Hin.
    destruct Hp as [<-|[<-|[]]]; destruct Hin as [Hin|[Hin|[]]]; discriminate Hin.
Defined.

End C6Example.

(** ** C7: station codes *)

(** C7 (as amended).  The minute-window endpoint knows the twelve codes of
    [FMI_STATIONS]: the upper-cased parameter is used when it is one of them,
    and replaced by the default [KEV] otherwise (and when absent or empty);
    the request is never refused.  The full-day text endpoint knows
    thirteen codes, the same twelve and [SOD]: it refuses, with status 400,
    exactly the requests whose upper-cased parameter is none of the thirteen. *)
Theorem station_codes `{JsHost} `{Config} :
  length FMI_STATIONS = 12%nat
  ∧ validStations = FMI_STATIONS ++ ["SOD"]
  ∧ (∀ q, let raw := toUpperCase (paramOr q "station" "KEV") in
          bxStation q ∈ FMI_STATIONS
          ∧ (raw ∈ FMI_STATIONS → bxStation q = raw)
          ∧ (raw ∉ FMI_STATIONS → bxStation q = "KEV"))
  ∧ (∀ q w res s, ∃ d, (bxHandler q w res s).1 = Sent d)
  ∧ (∀ q res s,
        toUpperCase (paramOr q "station" "") ∉ validStations
        ↔ (textdataHandler q res s).1 = Refused 400 "Invalid station code").
Proof.
  split; [done|]. split; [done|]. split; [|split].
  - intros q raw. unfold bxStation. fold raw. case_bool_decide as Hin.
    + tauto.
    + split; [|tauto]. apply list_elem_of_In. simpl. tauto.
  - intros q w res s. unfold bxHandler. destruct (getFmiBx _ _ _ _ _). eauto.
  - intros q res s. unfold textdataHandler. case_bool_decide as Hin.
    + split; [done|]. destruct res as [| | |text]; try done.
      by destruct (parseText _ _).
    + tauto.
Qed.

Module C7Example.
Import Demo.

(** [SOD] is none of the twelve, and the full-day text endpoint serves it. *)
Lemma textdata_accepts_SOD : ¬ textdataRefusesOutsideTwelve.
Proof.
  intros Hspec.
  assert ("SOD" ∉ FMI_STATIONS) as Hout.
  { intros Hin%list_elem_of_In. vm_compute in Hin.
    repeat (destruct Hin as [Hin|Hin]; [discriminate Hin|]). done. }
  specialize (Hspec "SOD" (Body "") startServer Hout).
  vm_compute in Hspec. discriminate Hspec.
Qed.

(** [zzz]: the default station on the minute-window endpoint, status 400 on
    the full-day text endpoint. *)
Lemma station_codes_example :
  bxStation (<["station" := "zzz"]> ∅) = "KEV"
  ∧ (textdataHandler (<["station" := "zzz"]> ∅) (Body "") startServer).1
    = Refused 400 "Invalid station code".
Proof.
  destruct station_codes as (_ & _ & Hbx & _ & Htext).
  split.
  - apply Hbx. intros Hin%list_elem_of_In. vm_compute in Hin.
    repeat (destruct Hin as [Hin|Hin]; [discriminate Hin|]). done.
  - apply Htext. intros Hin%list_elem_of_In. vm_compute in Hin.
    repeat (destruct Hin as [Hin|Hin]; [discriminate Hin|]). done.
Defined.

End C7Example.

(** ** C8: the chart series *)

Section ChartFacts.
Context `{JsHost} `{Config}.

Lemma dateLe_trans (a b c : string) : dateLe a b → dateLe b c → dateLe a c.
Proof.
  unfold dateLe. destruct (newDate a), (newDate b), (newDate c); try done. lia.
Qed.

Lemma before_true (x y : string) :
  is_Some (newDate x) → is_Some (newDate y) → before x y = true → dateLe x y.
Proof.
  unfold before, dateDiff, dateLe. intros [a ->] [b ->]. simpl. lia.
Qed.

Lemma before_false (x y : string) :
  is_Some (newDate x) → is_Some (newDate y) → before x y = false → dateLe y x.
Proof.
  unfold before, dateDiff, dateLe. intros [a ->] [b ->]. simpl. lia.
Qed.

Lemma insertSorted_sorted (x : string) (l : list string) :
  Forall (fun t => is_Some (newDate t)) (x :: l) →
  StronglySorted dateLe l → StronglySorted dateLe (insertSorted x l).
Proof.
  intros Hd Hs. apply Forall_cons in Hd as [Hx Hd].
  induction Hs as [|y l Hs IH Hy]; simpl.
  - repeat constructor.
  - apply Forall_cons in Hd as [Hyd Hd].
    destruct (before x y) eqn:Hb.
    + constructor; [by constructor|]. constructor.
      * by apply before_true.
      * eapply Forall_impl; [exact Hy|]. intros z Hz. simpl in Hz.
        eapply dateLe_trans; [|exact Hz]. by apply before_true.
    + constructor; [by apply IH|].
      rewrite insertSorted_perm. constructor; [|done]. by apply before_false.
Qed.

Lemma sortFrom_sorted (l acc : list string) :
  Forall (fun t => is_Some (newDate t)) (acc ++ l) →
  StronglySorted dateLe acc →
  StronglySorted dateLe (foldl (fun a x => insertSorted x a) acc l).
Proof.
  revert acc. induction l as [|x l IH]; intros acc Hd Hs; simpl; [done|].
  apply IH.
  - rewrite insertSorted_perm. simpl.
    eapply Permutation_Forall; [|exact Hd]. symmetry. apply Permutation_middle.
  - apply insertSorted_sorted; [|done].
    apply Forall_app in Hd as [Ha Hl]. apply Forall_cons in Hl as [? ?].
    by constructor.
Qed.

(** Where every tag is a date, [times] ascends by the value of [new Date]. *)
Lemma unionTimes_sorted (plasma mag : list record) :
  Forall (fun r => is_Some (newDate (time_tag r))) (plasma ++ mag) →
  StronglySorted dateLe (unionTimes plasma mag).
Proof.
  intros Hd. apply sortFrom_sorted; [|constructor]. simpl.
  apply Forall_forall. intros t Ht.
  apply elem_of_uniq, elem_of_app in Ht. unfold keysOf in Ht.
  rewrite !elem_of_uniq, <- elem_of_app, <- map_app in Ht.
  apply list_elem_of_fmap in Ht as (r & -> & Hr).
  revert r Hr. by apply Forall_forall.
Qed.

Lemma lastN_length {A} (n : nat) (l : list A) : (length (lastN n l) ≤ n)%nat.
Proof. unfold lastN. rewrite length_drop. lia. Qed.

Lemma lastN_suffix {A} (n : nat) (l : list A) : ∃ older, l = older ++ lastN n l.
Proof. exists (take (length l - n) l). unfold lastN. by rewrite take_drop. Qed.

(** The six arrays of the chart are parallel, over at most 60 tags, the last
    ones of [times], in the order of [times]. *)
Lemma chart_series_parallel (plasma mag : list record) (clock : Z) :
  let out := buildSolarwind plasma mag clock in
  let tail := tailTimes plasma mag in
  (length tail ≤ 60)%nat
  ∧ (∃ older, unionTimes plasma mag = older ++ tail)
  ∧ times out = map stamp tail
  ∧ labels out = map (fun t => fmtHM (stamp t)) tail
  ∧ speed out = map (chartSpeed plasma) tail
  ∧ density out = map (chartDensity plasma) tail
  ∧ bz out = map (chartBz mag) tail
  ∧ bt out = map (chartBt mag) tail.
Proof.
  intros out tail. split; [apply lastN_length|]. split; [apply lastN_suffix|].
  subst out. unfold buildSolarwind.
  destruct (alignedNow plasma mag) as [aligned nowT]. simpl.
  repeat split. by rewrite map_map.
Qed.

Lemma StronglySorted_suffix {A} (R : A → A → Prop) (l1 l2 : list A) :
  StronglySorted R (l1 ++ l2) → StronglySorted R l2.
Proof.
  induction l1 as [|x l1 IH]; simpl; [done|].
  intros Hs. apply IH. by inversion Hs.
Qed.

Lemma StronglySorted_within {A} (R R' : A → A → Prop) (l : list A) :
  (∀ a b, a ∈ l → b ∈ l → R a b → R' a b) →
  StronglySorted R l → StronglySorted R' l.
Proof.
  intros Himp Hs. induction Hs as [|x l Hs IH Hx]; constructor.
  - apply IH. intros a b Ha Hb. apply Himp; by constructor.
  - apply Forall_forall. intros y Hy. rewrite Forall_forall in Hx.
    apply Himp; [constructor | by constructor | by apply Hx].
Qed.

(** Where the sort and the chart read every tag as the same date (a host
    on UTC time, or tags that all end in [Z]), the times of the chart
    ascend. *)
Lemma chart_times_ascending_when_tags_agree (plasma mag : list record) :
  Forall (fun r => is_Some (newDate (time_tag r))
                   ∧ parseToUTC (time_tag r) = newDate (time_tag r)) (plasma ++ mag) →
  StronglySorted utcLe (tailTimes plasma mag).
Proof.
  intros Hagree.
  assert (StronglySorted dateLe (tailTimes plasma mag)) as Hs.
  { destruct (lastN_suffix 60 (unionTimes plasma mag)) as [older Hsplit].
    apply (StronglySorted_suffix _ older). unfold tailTimes. rewrite <- Hsplit.
    apply unionTimes_sorted. eapply Forall_impl; [exact Hagree|]. by intros r [? _]. }
  revert Hs. apply StronglySorted_within. intros a b Ha Hb.
  assert (∀ t, t ∈ tailTimes plasma mag → parseToUTC t = newDate t) as Heq.
  { intros t Ht.
    destruct (lastN_suffix 60 (unionTimes plasma mag)) as [older Hsplit].
    assert (t ∈ unionTimes plasma mag) as Hin.
    { rewrite Hsplit. apply elem_of_app. by right. }
    apply elem_of_unionTimes in Hin. rewrite <- elem_of_app, <- map_app in Hin.
    apply list_elem_of_fmap in Hin as (r & -> & Hr).
    rewrite Forall_forall in Hagree. by destruct (Hagree r Hr). }
  unfold utcLe, dateLe. by rewrite (Heq a Ha), (Heq b Hb).
Qed.

End ChartFacts.

Module C8Example.
Import Demo MixedTagsExample.

(** C8.  On a host two hours east of UTC the tag without marker sorts as
    10:00 UTC, before the tag marked 11:30 UTC, and is written to the chart
    as 12:00 UTC: the times of the chart descend. *)
Lemma chart_times_out_of_order :
  unionTimes plasmaUnmarked magMarked
  = ["2024-01-01T12:00:00"; "2024-01-01T11:30:00Z"]
  ∧ map newDate (unionTimes plasmaUnmarked magMarked)
    = [Some 1704103200000; Some 1704108600000]
  ∧ times (buildSolarwind plasmaUnmarked magMarked 0)
    = ["2024-01-01T12:00:00.000Z"; "2024-01-01T11:30:00.000Z"]
  ∧ map parseToUTC (unionTimes plasmaUnmarked magMarked)
    = [Some 1704110400000; Some 1704108600000].
Proof. vm_compute. auto. Qed.

End C8Example.

(** ** C9: the magnetometer payload *)

Section FmiFacts.
Context `{JsHost} `{Config}.

Lemma getFmiBx_fresh_followsRows (station : string) (minutes : Z) (w : moment)
      (res : fetched (list xmlEntry)) (s : server) :
  fmiCacheOk s → followsRows (getFmiBx station minutes w res s).1.
Proof.
  intros Hok. unfold getFmiBx.
  destruct (c_fmiBx s !! _) as [ent|] eqn:Hent; simpl.
  - destruct (_ <? _); simpl; [by apply (Hok _ _ Hent)|].
    unfold followsRows. simpl. by destruct (last _).
  - unfold followsRows. simpl. by destruct (last _).
Qed.

Lemma getFmiBx_keeps_ok (station : string) (minutes : Z) (w : moment)
      (res : fetched (list xmlEntry)) (s : server) :
  fmiCacheOk s → fmiCacheOk (getFmiBx station minutes w res s).2.
Proof.
  intros Hok. unfold getFmiBx.
  set (key := (station ++ "-" ++ showZ minutes)%string).
  assert (∀ d, followsRows d → fmiCacheOk (setFmiBx key (Entry d (nowMs w))
                                             (issue [FMI_OPEN_DATA_URL (fmisidOf station)] s)))
    as Hset.
  { intros d Hd k e. simpl. rewrite lookup_insert. case_decide.
    - by intros [= <-].
    - apply Hok. }
  destruct (c_fmiBx s !! key) as [ent|] eqn:Hent; simpl.
  - destruct (_ <? _); simpl; [done|].
    apply Hset. unfold followsRows. simpl. by destruct (last _).
  - apply Hset. unfold followsRows. simpl. by destruct (last _).
Qed.

Lemma step_keeps_ok (s s' : server) : step s s' → fmiCacheOk s → fmiCacheOk s'.
Proof.
  intros Hstep Hok. destruct Hstep.
  - unfold getSolarwind. by destruct (freshSlot _ _ _).
  - unfold getKp. by destruct (freshSlot _ _ _).
  - unfold getRx. by destruct (freshSlot _ _ _).
  - unfold getWeatherTemperature. by destruct (freshEntry _ _ _).
  - by apply getFmiBx_keeps_ok.
  - unfold radarHandler. destruct (layersOf q); [done|].
    destruct (_ || _); [done|].
    destruct (c_fmiRadar s !! _) as [ent|];
      [destruct (_ <? _); [done|]|];
      unfold radarFetch; by destruct res as [| | |[? ?]].
  - unfold solarimageHandler. destruct (solarImgSource _); try done.
    by destruct res as [| | |[? ?]].
  - unfold textdataHandler. case_bool_decide; [|done].
    destruct res; try done. by destruct (parseText _ _).
Qed.

Lemma reachable_ok (s : server) : reachable s → fmiCacheOk s.
Proof.
  induction 1 as [|s s' _ IH Hstep].
  - intros key e. unfold startServer. simpl. by rewrite lookup_empty.
  - by eapply step_keeps_ok.
Qed.

(** The rows of the mock have no [bz]: the [bz] array of a mock payload
    holds [undefined] at every place, and is as long as the rows all the same. *)
Lemma mock_rows_without_bz (station : string) (minutes : Z) :
  length (mockFmiBxData station minutes) = Z.to_nat (Z.max 1 (minutes / 5))
  ∧ Forall (fun r => row_bz r = VUndef ∧ row_station r = Some station)
           (mockFmiBxData station minutes).
Proof.
  unfold mockFmiBxData. split.
  - by rewrite length_map, length_seq.
  - apply Forall_forall. intros r Hr. apply list_elem_of_fmap in Hr as (k & -> & _). done.
Qed.

End FmiFacts.

(** C9.  In every state the server can reach, for every station code and
    minutes value, the payload [getFmiBx] returns (built now or served from
    the cache) has [times], [bx] and [bz] arrays with one element per row of
    [rows], in the order of the rows, so of the length of [rows]; and when
    [rows] is not empty, [updatedAt] is the time of the last row. *)
Theorem fmi_payload_follows_rows `{JsHost} `{Config}
    (s : server) (station : string) (minutes : Z) (w : moment)
    (res : fetched (list xmlEntry)) :
  reachable s →
  let d := (getFmiBx station minutes w res s).1 in
  followsRows d
  ∧ length (fmi_times d) = length (fmi_rows d)
  ∧ length (fmi_bx d) = length (fmi_rows d)
  ∧ length (fmi_bz d) = length (fmi_rows d)
  ∧ (∀ r, last (fmi_rows d) = Some r → fmi_updatedAt d = row_time r).
Proof.
  intros Hreach d.
  assert (followsRows d) as Hd.
  { apply getFmiBx_fresh_followsRows. by apply reachable_ok. }
  split; [done|]. destruct Hd as (Ht & Hbx & Hbz & Hu).
  rewrite Ht, Hbx, Hbz, !length_map. repeat split.
  intros r Hr. by rewrite Hr in Hu.
Qed.

Module C9Example.
Import Demo RadarExample.

(** From the start, the upstream failing: the payload is built from the one
    mock row of the example host. *)
Lemma fmi_payload_example :
  reachable startServer
  ∧ let d := (getFmiBx "KEV" 60 noon NetworkError startServer).1 in
    followsRows d
    ∧ length (fmi_times d) = length (fmi_rows d)
    ∧ length (fmi_bx d) = length (fmi_rows d)
    ∧ length (fmi_bz d) = length (fmi_rows d)
    ∧ (∀ r, last (fmi_rows d) = Some r → fmi_updatedAt d = row_time r).
Proof.
  split; [exact reachable_start|].
  exact (fmi_payload_follows_rows startServer "KEV" 60 noon NetworkError reachable_start).
Defined.

End C9Example.

(** ** C10: the coordinates of a weather request *)

Section WeatherFacts.
Context `{JsHost} `{Config}.

Lemma weatherCoords_lat (q : query) :
  (q !! "lat" = None → (weatherCoords q).1 = 60.4728%float)
  ∧ (∀ v, q !! "lat" = Some v →
          let x := parseFloat v in
          (isFinite x = false ∨ (-90 <=? x)%float = false ∨ (x <=? 90)%float = false →
           (weatherCoords q).1 = 60.4728%float)
          ∧ (isFinite x = true → (-90 <=? x)%float = true → (x <=? 90)%float = true →
             (weatherCoords q).1 = x)).
Proof.
  unfold weatherCoords, paramNullish. split.
  - intros ->. rewrite parseFloat_default_lat. reflexivity.
  - intros v ->. simpl. split.
    + intros [-> | [-> | ->]]; simpl; rewrite ?andb_false_r; reflexivity.
    + intros -> -> ->. reflexivity.
Qed.

Lemma weatherCoords_lon (q : query) :
  (q !! "lon" = None → (weatherCoords q).2 = 26.3042%float)
  ∧ (∀ v, q !! "lon" = Some v →
          let x := parseFloat v in
          (isFinite x = false ∨ (-180 <=? x)%float = false ∨ (x <=? 180)%float = false →
           (weatherCoords q).2 = 26.3042%float)
          ∧ (isFinite x = true → (-180 <=? x)%float = true → (x <=? 180)%float = true →
             (weatherCoords q).2 = x)).
Proof.
  unfold weatherCoords, paramNullish. split.
  - intros ->. rewrite parseFloat_default_lon. reflexivity.
  - intros v ->. simpl. split.
    + intros [-> | [-> | ->]]; simpl; rewrite ?andb_false_r; reflexivity.
    + intros -> -> ->. reflexivity.
Qed.

Lemma weather_miss_location (lat lon : number) (w : moment)
      (res : fetched (option weatherCurrent)) (s : server) :
  stale (storedEntry (c_weatherTemp s !! (toFixed 4 lat ++ "," ++ toFixed 4 lon)%string))
        (nowMs w) WEATHER_TTL_MS →
  requests (getWeatherTemperature lat lon w res s).2
  = requests s ++ [OPEN_METEO_URL lat lon]
  ∧ wx_latitude (getWeatherTemperature lat lon w res s).1 = lat
  ∧ wx_longitude (getWeatherTemperature lat lon w res s).1 = lon.
Proof.
  intros Hmiss%freshEntry_stale. unfold getWeatherTemperature. rewrite Hmiss. simpl.
  split; [done|].
  destruct res as [| | |current]; simpl; try done.
  unfold buildWeather. by destruct (toISOString _).
Qed.

End WeatherFacts.

(** C10.  The weather endpoint never refuses a request for its coordinates:
    it answers, with status 200, the payload of [getWeatherTemperature] at the
    coerced coordinates, and a fetch it makes is made for those.  The latitude
    is the parsed [lat] parameter when that is a finite number of [-90, 90];
    a [lat] that is missing, that does not parse to a finite number, or that
    lies outside [-90, 90] is replaced by the default 60.4728.  Likewise for
    [lon], with [-180, 180] and the default 26.3042. *)
Theorem weather_coordinates_coerced `{JsHost} `{Config}
    (q : query) (w : moment) (res : fetched (option weatherCurrent)) (s : server) :
  let la := (weatherCoords q).1 in
  let lo := (weatherCoords q).2 in
  weatherHandler q w res s
  = (Sent (getWeatherTemperature la lo w res s).1, (getWeatherTemperature la lo w res s).2)
  ∧ statusOf (weatherHandler q w res s).1 = 200
  ∧ (stale (storedEntry (c_weatherTemp s !! (toFixed 4 la ++ "," ++ toFixed 4 lo)%string))
           (nowMs w) WEATHER_TTL_MS →
     requests (weatherHandler q w res s).2 = requests s ++ [OPEN_METEO_URL la lo]
     ∧ ∃ d, (weatherHandler q w res s).1 = Sent d
            ∧ wx_latitude d = la ∧ wx_longitude d = lo)
  ∧ (q !! "lat" = None → la = 60.4728%float)
  ∧ (∀ v, q !! "lat" = Some v →
          let x := parseFloat v in
          (isFinite x = false ∨ (-90 <=? x)%float = false ∨ (x <=? 90)%float = false →
           la = 60.4728%float)
          ∧ (isFinite x = true → (-90 <=? x)%float = true → (x <=? 90)%float = true →
             la = x))
  ∧ (q !! "lon" = None → lo = 26.3042%float)
  ∧ (∀ v, q !! "lon" = Some v →
          let x := parseFloat v in
          (isFinite x = false ∨ (-180 <=? x)%float = false ∨ (x <=? 180)%float = false →
           lo = 26.3042%float)
          ∧ (isFinite x = true → (-180 <=? x)%float = true → (x <=? 180)%float = true →
             lo = x)).
Proof.
  intros la lo.
  assert (weatherHandler q w res s
          = (Sent (getWeatherTemperature la lo w res s).1,
             (getWeatherTemperature la lo w res s).2)) as Hh.
  { subst la lo. unfold weatherHandler. destruct (weatherCoords q) as [a b]. simpl.
    by destruct (getWeatherTemperature a b w res s). }
  split; [done|]. split; [by rewrite Hh|]. split.
  { intros Hmiss. rewrite Hh. simpl.
    destruct (weather_miss_location la lo w res s Hmiss) as (Hreq & Hla & Hlo).
    split; [done|]. eauto. }
  destruct (weatherCoords_lat q) as [Hlat0 Hlat].
  destruct (weatherCoords_lon q) as [Hlon0 Hlon].
  auto.
Qed.

Module C10Example.
Import Demo RadarExample.

(** A latitude of 95 is replaced by the default, a longitude of -120 is
    kept. *)
Lemma weather_coordinates_example :
  (weatherCoords (<["lat" := "95"]> (<["lon" := "-120"]> ∅))).1 = 60.4728%float
  ∧ (weatherCoords (<["lat" := "95"]> (<["lon" := "-120"]> ∅))).2 = (-120)%float
  ∧ statusOf (weatherHandler (<["lat" := "95"]> (<["lon" := "-120"]> ∅))
                             noon NetworkError startServer).1 = 200.
Proof.
  pose (q := (<["lat" := "95"]> (<["lon" := "-120"]> ∅)) : query).
  destruct (weather_coordinates_coerced q noon NetworkError startServer)
    as (_ & Hst & _ & _ & Hlat & _ & Hlon).
  split; [|split; [|exact Hst]].
  - apply (Hlat "95"); [reflexivity|]. right. right. reflexivity.
  - apply (Hlon "-120"); reflexivity.
Defined.

End C10Example.

(** * Further properties of the code *)

(** ** The feed parsers and [pick] *)

Section ParserFacts.
Context `{JsHost}.

Lemma lowerChar_idem (c : ascii) : lowerChar (lowerChar c) = lowerChar c.
Proof. destruct c as [[] [] [] [] [] [] [] []]; reflexivity. Qed.

Lemma toLowerCase_idem (s : string) : toLowerCase (toLowerCase s) = toLowerCase s.
Proof.
  unfold toLowerCase. induction s as [|c s IH]; simpl; [done|].
  by rewrite lowerChar_idem, IH.
Qed.

Lemma toNumber_finite (v : option value) (x : number) :
  toNumber v = Some x → isFinite x = true.
Proof.
  unfold toNumber. destruct (isFinite _) eqn:E; [|discriminate]. by intros [= <-].
Qed.

Lemma normalize_cases (k : string) (v : value) :
  (∃ n, normalize k v = VNum n ∧ isFinite n = true) ∨ normalize k v = v.
Proof.
  unfold normalize. destruct (negb _ && present _); [|by right].
  destruct (toNumber (Some v)) as [n|] eqn:En; [|by right].
  left. exists n. split; [done|]. by apply toNumber_finite in En.
Qed.

Lemma normalize_idem (k : string) (v : value) :
  normalize k (normalize k v) = normalize k v.
Proof.
  destruct (normalize_cases k v) as [(n & Hn & Hf)|Hv].
  - rewrite Hn. unfold normalize, toNumber. simpl. rewrite Hf. by destruct (negb _).
  - by rewrite !Hv.
Qed.

(** A stored string that the normalization leaves alone is empty or no
    finite number. *)
Lemma normalize_string (k s : string) :
  k ≠ "time_tag" → normalize k (VStr s) = VStr s →
  s = "" ∨ isFinite (parseFloat s) = false.
Proof.
  intros Hk. unfold normalize. destruct (String.eqb_spec k "time_tag"); [done|]. simpl.
  destruct s as [|c s]; [by left|]. simpl. unfold toNumber.
  destruct (isFinite (parseFloat (String c s))); [discriminate|by right].
Qed.

Lemma rowOfEntries_normal (entries : list (string * json)) : normalRow (rowOfEntries entries).
Proof.
  unfold rowOfEntries.
  assert (∀ (o : gmap string value), normalRow o →
            normalRow (foldl (fun out kv => let key := toLowerCase kv.1 in
                                <[key := normalize key (valueOf kv.2)]> out) o entries)) as Hgen.
  { induction entries as [|[k j] entries IH]; intros o Ho; simpl; [done|].
    apply IH. intros k' v'. cbn [fst snd].
    destruct (decide (toLowerCase k = k')) as [<-|Hne].
    - rewrite lookup_insert_eq. intros [= <-].
      by rewrite toLowerCase_idem, normalize_idem.
    - rewrite lookup_insert_ne by done. apply Ho. }
  apply Hgen. intros k v. by rewrite lookup_empty.
Qed.

Lemma fillFrom_keys (headers : list string) (r : json) (i : nat) (o o' : gmap string value) :
  fillFrom i headers r o = Some o' →
  ∀ k, is_Some (o' !! k) → is_Some (o !! k) ∨ k ∈ headers.
Proof.
  revert i o. induction headers as [|h headers IH]; intros i o; simpl.
  - intros [= <-]. auto.
  - destruct (cellOf r i) as [v|]; [|discriminate]. intros Hf k Hk.
    destruct (IH _ _ Hf k Hk) as [Hin|Hin].
    + destruct (decide (h = k)) as [->|Hne]; [right; left|].
      rewrite lookup_insert_ne in Hin by done. by left.
    + right. by right.
Qed.

Lemma rowOfCells_normal (hs : list json) (r : json) (o : gmap string value) :
  rowOfCells (List.map (fun h => toLowerCase (jsonString h)) hs) r = Some o →
  normalRow o.
Proof.
  unfold rowOfCells. destruct (fillFrom _ _ _ _) as [o0|] eqn:Hf; [|discriminate].
  intros [= <-] k v. rewrite map_lookup_imap.
  destruct (o0 !! k) as [v0|] eqn:Hk; [|discriminate]. simpl. intros [= <-].
  split; [|apply normalize_idem].
  destruct (fillFrom_keys _ _ _ _ _ Hf k) as [Hin|Hin]; [by rewrite Hk| |].
  - rewrite lookup_empty in Hin. by destruct Hin.
  - apply list_elem_of_In, in_map_iff in Hin as (h & <- & _). apply toLowerCase_idem.
Qed.

Lemma hasTimeTag_true (o : gmap string value) :
  hasTimeTag o = true → ∃ v, o !! "time_tag" = Some v ∧ truthy v = true.
Proof. unfold hasTimeTag. destruct (o !! "time_tag") as [v|]; [eauto|discriminate]. Qed.

Lemma filter_length_le {A} (f : A → bool) (l : list A) :
  (length (List.filter f l) ≤ length l)%nat.
Proof. induction l as [|x l IH]; simpl; [lia|]. destruct (f x); simpl; lia. Qed.

Lemma mapM_elem {A B} (f : A → option B) (l : list A) (k : list B) (y : B) :
  mapM f l = Some k → y ∈ k → ∃ x, x ∈ l ∧ f x = Some y.
Proof.
  intros Hm%mapM_Some Hy. induction Hm as [|x y' l k Hxy Hm IH]; [by apply elem_of_nil in Hy|].
  apply elem_of_cons in Hy as [->|Hy]; [exists x; split; [left|done]|].
  destruct (IH Hy) as (x' & ? & ?). exists x'. split; [by right|done].
Qed.

Lemma mapM_same_length {A B} (f : A → option B) (l : list A) (k : list B) :
  mapM f l = Some k → length k = length l.
Proof. intros Hm%mapM_Some. symmetry. eapply Forall2_length, Hm. Qed.

(** What [parseSwpc] returns: rows that pass the filter, each normal, and no
    more of them than the feed has elements. *)
Lemma parseSwpc_rows (j : json) (rows : list (gmap string value)) :
  parseSwpc j = Some rows →
  Forall (fun o => hasTimeTag o = true ∧ normalRow o) rows
  ∧ ∀ items, j = JArr items → (length rows ≤ length items)%nat.
Proof.
  destruct j as [| | | |items|]; try (intros [= <-]; split; [constructor|discriminate]).
  destruct items as [|first rest]; [intros [= <-]; split; [constructor|simpl; intros; lia]|].
  destruct first as [| | | |hs|entries];
    try (intros [= <-]; split; [constructor|simpl; intros; lia]).
  - (* products format *)
    destruct rest as [|second more]; [intros [= <-]; split; [constructor|simpl; intros; lia]|].
    unfold parseSwpc, parseSwpcArray.
    destruct (mapM _ (second :: more)) as [all|] eqn:Hm; [|discriminate].
    intros [= <-]. split.
    + apply Forall_forall. intros o Ho. apply list_elem_of_In, filter_In in Ho as [Ho Ht].
      split; [done|]. apply list_elem_of_In in Ho.
      destruct (mapM_elem _ _ _ _ Hm Ho) as (r & _ & Hr).
      by apply rowOfCells_normal in Hr.
    + intros items [= <-]. pose proof (filter_length_le hasTimeTag all) as Hl.
      apply mapM_same_length in Hm. simpl in *. lia.
  - (* real-time format *)
    unfold parseSwpc.
    destruct (mapM _ (JObj entries :: rest)) as [all|] eqn:Hm; [|discriminate].
    intros [= <-]. split.
    + apply Forall_forall. intros o Ho. apply list_elem_of_In, filter_In in Ho as [Ho Ht].
      split; [done|]. apply list_elem_of_In in Ho.
      destruct (mapM_elem _ _ _ _ Hm Ho) as (r & _ & Hr).
      destruct (entriesOf r) as [e|]; [|discriminate]. simpl in Hr. injection Hr as <-.
      apply rowOfEntries_normal.
    + intros items [= <-]. pose proof (filter_length_le hasTimeTag all) as Hl.
      apply mapM_same_length in Hm. simpl in *. lia.
Qed.

End ParserFacts.

Section ParserThrows.
Context `{JsHost}.

Lemma fillFrom_None (headers : list string) (r : json) (i : nat) (o : gmap string value) :
  fillFrom i headers r o = None ↔ headers ≠ [] ∧ r = JNull.
Proof.
  revert i o. induction headers as [|h headers IH]; intros i o; simpl.
  - split; [discriminate|]. by intros [? _].
  - destruct r; simpl; try (rewrite IH; split; [intros [_ [=]]|intros [_ [=]]]).
    by split.
Qed.

Lemma rowOfCells_None (headers : list string) (r : json) :
  rowOfCells headers r = None ↔ headers ≠ [] ∧ r = JNull.
Proof.
  unfold rowOfCells. rewrite <- (fillFrom_None headers r 0 ∅).
  destruct (fillFrom 0 headers r ∅); simpl; split; congruence.
Qed.

Lemma entriesOf_None (r : json) :
  option_map rowOfEntries (entriesOf r) = None ↔ r = JNull.
Proof. destruct r; simpl; split; congruence. Qed.

End ParserThrows.

(** X1.  Every row [parseSwpc] returns has a [time_tag] that is truthy, and
    all its keys are in lower case; there are no more rows than the feed has
    elements. *)
Theorem parseSwpc_rows_tagged `{JsHost} (j : json) (rows : list (gmap string value)) :
  plainFeed j = true → parseSwpc j = Some rows →
  Forall (fun o => (∃ v, o !! "time_tag" = Some v ∧ truthy v = true)
                   ∧ ∀ k, is_Some (o !! k) → toLowerCase k = k) rows
  ∧ ∀ items, j = JArr items → (length rows ≤ length items)%nat.
Proof.
  intros _ Hp. destruct (parseSwpc_rows _ _ Hp) as [Hrows Hlen]. split; [|done].
  eapply Forall_impl; [exact Hrows|]. intros o [Ht Hn]. split; [by apply hasTimeTag_true|].
  intros k [v Hv]. by destruct (Hn k v Hv).
Qed.

(** X2.  In a row [parseSwpc] returns, a field other than [time_tag] holds a
    string only if the string is empty or [parseFloat] reads no finite
    number from it: every numeric string has been replaced by its number. *)
Theorem parseSwpc_numbers_converted `{JsHost} (j : json) (rows : list (gmap string value))
        (o : gmap string value) (k s : string) :
  plainFeed j = true → parseSwpc j = Some rows →
  o ∈ rows → k ≠ "time_tag" → o !! k = Some (VStr s) →
  s = "" ∨ isFinite (parseFloat s) = false.
Proof.
  intros _ Hp Ho Hk Hs. destruct (parseSwpc_rows _ _ Hp) as [Hrows _].
  rewrite Forall_forall in Hrows. apply Hrows in Ho as [_ Hn].
  destruct (Hn k _ Hs) as [_ Hnorm]. by apply normalize_string in Hnorm.
Qed.

(** X3.  [parseSwpc] throws exactly on an array that has a [null] element
    after a first element that is an object or an array with at least one
    header; every other JSON value gives a list of rows. *)
Theorem parseSwpc_throws_on_null_row `{JsHost} (j : json) :
  parseSwpc j = None
  ↔ ∃ first rest, j = JArr (first :: rest) ∧ JNull ∈ rest
                  ∧ ((∃ entries, first = JObj entries) ∨ (∃ h hs, first = JArr (h :: hs))).
Proof.
  split.
  - destruct j as [| | | |items|]; try discriminate.
    destruct items as [|first rest]; [discriminate|].
    destruct first as [| | | |hs|entries]; try discriminate.
    + destruct rest as [|second more]; [discriminate|]. unfold parseSwpc, parseSwpcArray.
      destruct (mapM _ (second :: more)) as [all|] eqn:Hm; [discriminate|]. intros _.
      apply mapM_None, Exists_exists in Hm as (r & Hr & Hnone).
      apply rowOfCells_None in Hnone as [Hhs ->].
      exists (JArr hs), (second :: more). split; [done|]. split; [done|].
      right. destruct hs as [|h hs]; [done|eauto].
    + unfold parseSwpc.
      destruct (mapM _ (JObj entries :: rest)) as [all|] eqn:Hm; [discriminate|]. intros _.
      apply mapM_None, Exists_exists in Hm as (r & Hr & Hnone).
      apply entriesOf_None in Hnone as ->.
      exists (JObj entries), rest. split; [done|]. split; [|eauto].
      by apply elem_of_cons in Hr as [[=]|Hr].
  - intros (first & rest & -> & Hnull & [[entries ->]|(h & hs & ->)]).
    + unfold parseSwpc.
      assert (mapM (fun r => option_map rowOfEntries (entriesOf r)) (JObj entries :: rest) = None)
        as ->; [|done].
      apply mapM_None, Exists_exists. exists JNull. split; [|done].
      by right.
    + destruct rest as [|second more]; [by apply elem_of_nil in Hnull|].
      unfold parseSwpc, parseSwpcArray.
      match goal with |- option_map _ ?m = None => assert (m = None) as ->; [|done] end.
      apply mapM_None, Exists_exists. exists JNull. split; [done|].
      by apply rowOfCells_None.
Qed.

(** X4.  [pick] returns a finite number or [null], never [NaN] or an
    infinity: the reading of the first candidate key whose value is present
    and reads as a finite number, every key before it being absent, empty or
    not numeric; and [null] when no key has one, or when there is no row. *)
Theorem pick_first_finite `{JsHost} (r : record) (keys : list string) :
  let unusable k := present (fields r !! k) = false ∨ toNumber (fields r !! k) = None in
  pick None keys = None
  ∧ match pick (Some r) keys with
    | Some x =>
        isFinite x = true
        ∧ ∃ skipped k rest,
            keys = skipped ++ k :: rest ∧ Forall unusable skipped
            ∧ present (fields r !! k) = true ∧ toNumber (fields r !! k) = Some x
    | None => Forall unusable keys
    end.
Proof.
  intros unusable. split; [done|]. simpl.
  induction keys as [|k keys IH]; simpl; [constructor|].
  destruct (present (fields r !! k)) eqn:Hp; simpl.
  - destruct (toNumber (fields r !! k)) as [x|] eqn:Hx; simpl.
    + rewrite (toNumber_finite _ _ Hx). split; [by apply toNumber_finite in Hx|].
      exists [], k, keys. by repeat split.
    + assert (unusable k) as Hk by (by right).
      destruct (pickKeys (fields r) keys) as [x|].
      * destruct IH as (Hf & skipped & k' & rest & -> & Hs & Hp' & Hx').
        split; [done|]. exists (k :: skipped), k', rest. repeat split; try done.
        by constructor.
      * by constructor.
  - assert (unusable k) as Hk by (by left).
    destruct (pickKeys (fields r) keys) as [x|].
    + destruct IH as (Hf & skipped & k' & rest & -> & Hs & Hp' & Hx').
      split; [done|]. exists (k :: skipped), k', rest. repeat split; try done.
      by constructor.
    + by constructor.
Qed.

Module ParserWitnesses.
Import Demo ParserExample.

Lemma parseSwpc_rows_tagged_example :
  Forall (fun o => (∃ v, o !! "time_tag" = Some v ∧ truthy v = true)
                   ∧ ∀ k, is_Some (o !! k) → toLowerCase k = k)
         (default [] (parseSwpc rtsw))
  ∧ ∀ items, rtsw = JArr items → (length (default [] (parseSwpc rtsw)) ≤ length items)%nat.
Proof. apply (parseSwpc_rows_tagged rtsw); vm_compute; reflexivity. Defined.

Lemma parseSwpc_numbers_converted_example :
  "ACE" = "" ∨ isFinite (parseFloat "ACE") = false.
Proof.
  apply (parseSwpc_numbers_converted rtsw (default [] (parseSwpc rtsw))
           (default ∅ (head (default [] (parseSwpc rtsw)))) "source" "ACE").
  - vm_compute; reflexivity.
  - vm_compute; reflexivity.
  - vm_compute. left.
  - discriminate.
  - vm_compute; reflexivity.
Defined.

Lemma parseSwpc_throws_example : parseSwpc withNull = None.
Proof.
  apply parseSwpc_throws_on_null_row. exists (JObj []), [JNull].
  split; [reflexivity|]. split; [left|]. left. by exists [].
Defined.

End ParserWitnesses.

(** ** Printing a date and reading it back *)

Section Calendar.

Lemma isLeap_shift (y k : Z) : isLeap (y + 400 * k) = isLeap y.
Proof.
  unfold isLeap.
  replace ((y + 400 * k) mod 4) with (y mod 4) by (Z.div_mod_to_equations; lia).
  replace ((y + 400 * k) mod 100) with (y mod 100) by (Z.div_mod_to_equations; lia).
  replace ((y + 400 * k) mod 400) with (y mod 400) by (Z.div_mod_to_equations; lia).
  reflexivity.
Qed.

(** The year of the era and the day of the year, from the day of the era;
    day 365 is the 29th of February, of a leap year. *)
Lemma year_of_era (doe : Z) :
  0 ≤ doe < 146097 →
  let yoe := (doe - doe / 1460 + doe / 36524 - doe / 146096) / 365 in
  let doy := doe - (365 * yoe + yoe / 4 - yoe / 100) in
  0 ≤ yoe ≤ 399 ∧ 0 ≤ doy ≤ 365
  ∧ (doy = 365 → isLeap (yoe + 1) = true).
Proof.
  intros H yoe doy.
  assert (0 ≤ yoe ≤ 399 ∧ 0 ≤ doy ≤ 365
          ∧ (doy = 365 → (yoe + 1) mod 4 = 0
                           ∧ ((yoe + 1) mod 100 ≠ 0 ∨ (yoe + 1) mod 400 = 0))) as (Hy & Hd & Hl).
  { subst doy yoe. Z.div_mod_to_equations. lia. }
  split; [exact Hy|]. split; [exact Hd|]. intros H365. destruct (Hl H365) as [H4 H100].
  unfold isLeap. rewrite H4. simpl.
  destruct (Z.eqb_spec ((yoe + 1) mod 100) 0) as [E|E]; simpl; [|reflexivity].
  destruct H100 as [H100|H100]; [contradiction|]. rewrite H100. reflexivity.
Qed.

(** [civilFromDays] gives a valid date, and [daysFromCivil] takes it back. *)
Lemma civil_inverse (z : Z) :
  let '(y, m, d) := civilFromDays z in
  daysFromCivil y m d = z ∧ 1 ≤ m ≤ 12 ∧ 1 ≤ d ≤ daysInMonth y m.
Proof.
  unfold civilFromDays.
  set (era := (z + 719468) / 146097).
  set (doe := z + 719468 - era * 146097).
  assert (0 ≤ doe < 146097) as Hdoe by (subst doe era; Z.div_mod_to_equations; lia).
  pose proof (year_of_era doe Hdoe) as Hyear. cbv zeta in Hyear.
  set (yoe := (doe - doe / 1460 + doe / 36524 - doe / 146096) / 365) in *.
  set (doy := doe - (365 * yoe + yoe / 4 - yoe / 100)) in *.
  destruct Hyear as (Hyoe & Hdoy & Hleap).
  set (mp := (5 * doy + 2) / 153).
  assert (z = era * 146097 + doe - 719468) as Hz by (subst doe; lia).
  assert (doy = doe - (365 * yoe + yoe / 4 - yoe / 100)) as Hdoydef by reflexivity.
  assert (mp = (5 * doy + 2) / 153) as Hmpdef by reflexivity.
  clearbody mp doy era doe yoe. cbv zeta.
  assert (0 ≤ mp ≤ 11) as Hmp by (Z.div_mod_to_equations; lia).
  destruct (Z.ltb_spec mp 10) as [Hlt|Hge].
  - assert ((mp + 3 <=? 2) = false) as E1 by lia.
    assert ((2 <? mp + 3) = true) as E2 by lia.
    assert ((mp + 3 =? 2) = false) as E3 by lia.
    rewrite E1. unfold daysFromCivil, daysInMonth. rewrite E1, E2, E3.
    split; [Z.div_mod_to_equations; lia|]. split; [lia|].
    assert (mp = 0 ∨ mp = 1 ∨ mp = 2 ∨ mp = 3 ∨ mp = 4 ∨ mp = 5 ∨ mp = 6 ∨ mp = 7
            ∨ mp = 8 ∨ mp = 9) as Hcase by lia.
    repeat (destruct Hcase as [Hc|Hcase];
            [rewrite Hc in *; simpl; Z.div_mod_to_equations; lia|]).
    rewrite Hcase in *; simpl; Z.div_mod_to_equations; lia.
  - assert ((mp - 9 <=? 2) = true) as E1 by lia.
    assert ((2 <? mp - 9) = false) as E2 by lia.
    rewrite E1. unfold daysFromCivil, daysInMonth. rewrite E1, E2.
    split; [Z.div_mod_to_equations; lia|]. split; [lia|].
    replace (yoe + era * 400 + 1) with (yoe + 1 + 400 * era) by lia. rewrite isLeap_shift.
    assert (mp = 10 ∨ mp = 11) as [Hc|Hc] by lia; rewrite Hc in *; simpl.
    + Z.div_mod_to_equations; lia.
    + destruct (isLeap (yoe + 1)) eqn:El; [Z.div_mod_to_equations; lia|].
      assert (doy ≠ 365) by (intros E; apply Hleap in E; congruence).
      Z.div_mod_to_equations; lia.
Qed.

End Calendar.

Section Decimal.

Lemma digitChar_digit (d : Z) :
  0 ≤ d ≤ 9 → isDigit (digitChar d) = true ∧ digitVal (digitChar d) = d.
Proof.
  intros Hd. assert (d = 0 ∨ d = 1 ∨ d = 2 ∨ d = 3 ∨ d = 4 ∨ d = 5 ∨ d = 6 ∨ d = 7
                     ∨ d = 8 ∨ d = 9) as Hc by lia.
  repeat (destruct Hc as [->|Hc]; [by vm_compute|]). subst. by vm_compute.
Qed.

Lemma digitsValue_snoc (l : list ascii) (c : ascii) (acc : Z) :
  Forall (fun a => isDigit a = true) l → isDigit c = true →
  digitsValue acc (l ++ [c]) = 10 * digitsValue acc l + digitVal c.
Proof.
  intros Hl Hc. revert acc. induction Hl as [|a l Ha Hl IH]; intros acc; simpl.
  - by rewrite Hc.
  - rewrite Ha. apply IH.
Qed.

(** The digits [digitsFuel] puts before [acc], given fuel for them. *)
Lemma digitsFuel_spec (fuel : nat) (n : Z) (acc : list ascii) :
  0 ≤ n < 2 ^ Z.of_nat fuel → (0 < fuel)%nat →
  ∃ pre, digitsFuel fuel n acc = pre ++ acc ∧ pre ≠ []
         ∧ Forall (fun a => isDigit a = true) pre ∧ digitsValue 0 pre = n
         ∧ (length pre = 1%nat ∨ 10 ^ (Z.of_nat (length pre) - 1) ≤ n).
Proof.
  revert n acc. induction fuel as [|fuel IH]; intros n acc Hn Hf; [lia|].
  simpl digitsFuel. cbv zeta.
  destruct (digitChar_digit (n mod 10)) as [Hd Hv]; [Z.div_mod_to_equations; lia|].
  destruct (Z.eqb_spec (n / 10) 0) as [Hz|Hnz].
  - exists [digitChar (n mod 10)]. split; [done|]. split; [done|].
    split; [by repeat constructor|]. split; [|by left]. simpl. rewrite Hd, Hv.
    Z.div_mod_to_equations; lia.
  - assert (0 ≤ n / 10 < 2 ^ Z.of_nat fuel) as Hn'.
    { rewrite Nat2Z.inj_succ, Z.pow_succ_r in Hn by lia. Z.div_mod_to_equations; lia. }
    assert (0 < fuel)%nat as Hf'.
    { destruct fuel; [|lia]. simpl in Hn'. lia. }
    destruct (IH (n / 10) (digitChar (n mod 10) :: acc) Hn' Hf')
      as (pre & Heq & Hne & Hall & Hval & Hlen).
    exists (pre ++ [digitChar (n mod 10)]). split; [by rewrite Heq, <- app_assoc|].
    split; [by destruct pre|]. split; [|split].
    + apply Forall_app. split; [done|by repeat constructor].
    + rewrite digitsValue_snoc by done. rewrite Hval, Hv. Z.div_mod_to_equations; lia.
    + right. rewrite length_app. simpl.
      replace (Z.of_nat (length pre + 1) - 1) with (Z.succ (Z.of_nat (length pre) - 1)) by lia.
      destruct Hlen as [H1|Hpow].
      * rewrite H1. simpl. Z.div_mod_to_equations; lia.
      * assert (0 ≤ Z.of_nat (length pre) - 1) by (destruct pre; [done|simpl; lia]).
        rewrite Z.pow_succ_r by done. Z.div_mod_to_equations; lia.
Qed.

Lemma chars_ofChars (l : list ascii) : chars (ofChars l) = l.
Proof. apply list_ascii_of_string_of_list_ascii. Qed.

(** [String(n)] of a non-negative integer: digits that read [n]. *)
Lemma decimal_spec (n : Z) :
  0 ≤ n →
  chars (decimal n) ≠ [] ∧ Forall (fun a => isDigit a = true) (chars (decimal n))
  ∧ digitsValue 0 (chars (decimal n)) = n
  ∧ (length (chars (decimal n)) = 1%nat
     ∨ 10 ^ (Z.of_nat (length (chars (decimal n))) - 1) ≤ n).
Proof.
  intros Hn. unfold decimal. rewrite chars_ofChars.
  destruct (digitsFuel_spec (S (Z.to_nat (Z.log2 n))) n [])
    as (pre & -> & Hne & Hall & Hv & Hlen).
  - split; [done|]. rewrite Nat2Z.inj_succ, Z2Nat.id by apply Z.log2_nonneg.
    destruct (Z.eq_dec n 0) as [->|Hnz]; [done|]. apply Z.log2_spec. lia.
  - lia.
  - by rewrite app_nil_r.
Qed.

Lemma length_chars (s : string) : length (chars s) = String.length s.
Proof. unfold chars. induction s as [|c s IH]; simpl; [done|]. by rewrite IH. Qed.

Lemma digitsValue_zeros (k : nat) (l : list ascii) :
  digitsValue 0 (List.repeat "0"%char k ++ l) = digitsValue 0 l.
Proof. induction k as [|k IH]; [done|]. simpl. exact IH. Qed.

(** [String(n).padStart(w, '0')] for [n] below [10^w]: [w] digits that read [n]. *)
Lemma padStart_digits (w : nat) (n : Z) :
  (1 ≤ w)%nat → 0 ≤ n < 10 ^ Z.of_nat w →
  digitString w n (padStart w (decimal n)) = true.
Proof.
  intros Hw Hn. destruct (decimal_spec n) as (Hne & Hall & Hv & Hlen); [lia|].
  assert (length (chars (decimal n)) ≤ w)%nat as Hle.
  { destruct Hlen as [->|Hpow]; [done|].
    assert (Z.of_nat (length (chars (decimal n))) - 1 < Z.of_nat w); [|lia].
    apply (Z.pow_lt_mono_r_iff 10); lia. }
  unfold digitString, padStart. rewrite chars_app, chars_ofChars, <- length_chars.
  rewrite length_app, repeat_length, digitsValue_zeros, Hv.
  apply andb_true_intro. split; [apply andb_true_intro; split|]; [apply Nat.eqb_eq; lia| |lia].
  apply forallb_forall. intros c [Hc|Hc]%in_app_or.
  - by apply repeat_spec in Hc as ->.
  - rewrite Forall_forall in Hall. by apply Hall, list_elem_of_In.
Qed.

End Decimal.


Section IsoPrint.

Lemma pad_digits (n : Z) : 0 ≤ n ≤ 99 → digitString 2 n (pad n) = true.
Proof. intros Hn. apply padStart_digits; [lia|]. simpl. lia. Qed.

Lemma millis_digits (n : Z) :
  0 ≤ n ≤ 999 → digitString 3 n (padStart 3 (decimal n)) = true.
Proof. intros Hn. apply padStart_digits; [lia|]. simpl. lia. Qed.

Lemma year_digits (y : Z) : 0 ≤ y ≤ 9999 → digitString 4 y (yearString y) = true.
Proof.
  intros Hy. unfold yearString.
  assert ((0 <=? y) && (y <=? 9999) = true) as -> by lia.
  apply padStart_digits; [lia|]. simpl. lia.
Qed.

Lemma digitString_inv (w : nat) (n : Z) (s : string) :
  digitString w n s = true →
  length (chars s) = w ∧ Forall (fun c => isDigit c = true) (chars s)
  ∧ digitsValue 0 (chars s) = n.
Proof.
  unfold digitString. intros Hd. apply andb_prop in Hd as [Hd Hv].
  apply andb_prop in Hd as [Hl Hf]. apply Nat.eqb_eq in Hl. apply Z.eqb_eq in Hv.
  split; [done|]. split; [|done]. apply Forall_forall. intros c Hc.
  rewrite forallb_forall in Hf. by apply Hf, list_elem_of_In.
Qed.

Lemma num2_digitString (n : Z) (s : string) (r : list ascii) :
  digitString 2 n s = true → num2 (chars s ++ r) = Some (n, r).
Proof.
  intros (Hl & Hf & Hv)%digitString_inv.
  destruct (chars s) as [|a [|b [|? ?]]]; try discriminate.
  apply Forall_cons in Hf as [Ha Hf]. apply Forall_cons in Hf as [Hb _].
  simpl in *. rewrite Ha, Hb in *. simpl. f_equal. f_equal. lia.
Qed.

Lemma num3_digitString (n : Z) (s : string) (r : list ascii) :
  digitString 3 n s = true → num3 (chars s ++ r) = Some (n, r).
Proof.
  intros (Hl & Hf & Hv)%digitString_inv.
  destruct (chars s) as [|a [|b [|c [|? ?]]]]; try discriminate.
  apply Forall_cons in Hf as [Ha Hf]. apply Forall_cons in Hf as [Hb Hf].
  apply Forall_cons in Hf as [Hc _].
  simpl in *. rewrite Ha, Hb, Hc in *. simpl. f_equal. f_equal. lia.
Qed.

Lemma num4_digitString (n : Z) (s : string) (r : list ascii) :
  digitString 4 n s = true → num4 (chars s ++ r) = Some (n, r).
Proof.
  intros (Hl & Hf & Hv)%digitString_inv.
  destruct (chars s) as [|a [|b [|c [|d [|? ?]]]]]; try discriminate.
  apply Forall_cons in Hf as [Ha Hf]. apply Forall_cons in Hf as [Hb Hf].
  apply Forall_cons in Hf as [Hc Hf]. apply Forall_cons in Hf as [Hd _].
  unfold num4. simpl in *. rewrite Ha, Hb, Hc, Hd in Hv. rewrite Ha, Hb. simpl. rewrite Hc, Hd. simpl. f_equal. f_equal. lia.
Qed.

(** No character of a digit string is a space, a [Z] or any other
    character that is no digit. *)
Lemma digitString_no (w : nat) (n : Z) (s : string) (c : ascii) :
  digitString w n s = true → isDigit c = false →
  existsb (fun a => Ascii.eqb a c) (chars s) = false.
Proof.
  intros (_ & Hf & _)%digitString_inv Hc.
  induction Hf as [|a l Ha Hf IH]; simpl; [done|].
  by rewrite (digit_eqb a c Ha Hc), IH.
Qed.

End IsoPrint.

Section IsoRoundTrip.
Context `{JsHost}.

Lemma contains_app (a : ascii) (s1 s2 : string) :
  contains a (s1 ++ s2)%string = contains a s1 || contains a s2.
Proof. induction s1 as [|c s1 IH]; simpl; [done|]. by rewrite IH, orb_assoc. Qed.

Lemma replaceFirst_absent (a b : ascii) (s : string) :
  contains a s = false → replaceFirst a b s = s.
Proof.
  induction s as [|c s IH]; simpl; [done|].
  destruct (Ascii.eqb c a); simpl; [discriminate|]. intros Hc. by rewrite IH.
Qed.

Lemma digitString_contains (w : nat) (n : Z) (s : string) (c : ascii) :
  digitString w n s = true → isDigit c = false → contains c s = false.
Proof. intros Hd Hc. rewrite contains_chars. by apply (digitString_no w n). Qed.

(** The string [toISOString] prints, from its seven digit groups. *)
Lemma parseIso_printed (ys sm sd sh sn ss sms : string) (y m d h n s ms : Z) :
  digitString 4 y ys = true → digitString 2 m sm = true → digitString 2 d sd = true →
  digitString 2 h sh = true → digitString 2 n sn = true → digitString 2 s ss = true →
  digitString 3 ms sms = true →
  let iso := (ys ++ "-" ++ sm ++ "-" ++ sd ++ "T" ++ sh ++ ":" ++ sn ++ ":" ++ ss
              ++ "." ++ sms ++ "Z")%string in
  parseIso iso = Some (Civil y m d h n s ms, ZoneUtc)
  ∧ contains "Z" iso = true ∧ contains " " iso = false.
Proof.
  intros Hy Hm Hd Hh Hn Hs Hms iso. subst iso. split; [|split].
  - unfold parseIso, parseDate. rewrite !chars_app.
    rewrite (num4_digitString _ _ _ Hy).
    change (chars "-") with ["-"%char]. cbn [app]. rewrite expect_same.
    rewrite (num2_digitString _ _ _ Hm). cbn [app]. rewrite expect_same.
    rewrite (num2_digitString _ _ _ Hd). cbn [option_map].
    change (chars "T") with ["T"%char]. cbn [app]. rewrite Ascii.eqb_refl.
    unfold parseTime. rewrite (num2_digitString _ _ _ Hh).
    change (chars ":") with [":"%char]. cbn [app]. rewrite expect_same.
    rewrite (num2_digitString _ _ _ Hn). unfold parseSeconds. rewrite expect_same.
    rewrite (num2_digitString _ _ _ Hs).
    change (chars ".") with ["."%char]. cbn [app]. rewrite expect_same.
    rewrite (num3_digitString _ _ _ Hms). reflexivity.
  - rewrite !contains_app. simpl. by rewrite !orb_true_r.
  - rewrite !contains_app.
    rewrite (digitString_contains _ _ _ " " Hy), (digitString_contains _ _ _ " " Hm),
      (digitString_contains _ _ _ " " Hd), (digitString_contains _ _ _ " " Hh),
      (digitString_contains _ _ _ " " Hn), (digitString_contains _ _ _ " " Hs),
      (digitString_contains _ _ _ " " Hms) by reflexivity.
    reflexivity.
Qed.

Lemma daysInMonth_le (y m : Z) : daysInMonth y m ≤ 31.
Proof.
  unfold daysInMonth. destruct (m =? 2); [by destruct (isLeap y)|].
  by destruct (_ || _).
Qed.

(** The years of the days between 0000-01-01 and 9999-12-31. *)
Lemma year_of_days (y m d : Z) :
  1 ≤ m ≤ 12 → 1 ≤ d ≤ 31 →
  -719528 ≤ daysFromCivil y m d ≤ 2932896 → 0 ≤ y ≤ 9999.
Proof.
  unfold daysFromCivil. intros Hm Hd.
  destruct (m <=? 2) eqn:Hm2; destruct (2 <? m) eqn:Hm3;
    Z.div_mod_to_equations; lia.
Qed.

(** The fields [toISOString] prints for the time value [t]. *)
Lemma iso_fields (t : Z) :
  fourDigitYear t →
  ∃ c, parseIso (isoString t) = Some (c, ZoneUtc) ∧ validCivil c = true
       ∧ utcMillis c = t ∧ contains "Z" (isoString t) = true
       ∧ contains " " (isoString t) = false.
Proof.
  intros Ht. unfold fourDigitYear in Ht. unfold isoString.
  pose proof (civil_inverse (t / msPerDay)) as Hc.
  destruct (civilFromDays (t / msPerDay)) as [[y m] d]. destruct Hc as (Hz & Hm & Hd).
  pose proof (daysInMonth_le y m) as Hdim.
  assert (0 ≤ y ≤ 9999) as Hy.
  { apply (year_of_days y m d); [done|lia|]. rewrite Hz. unfold msPerDay.
    Z.div_mod_to_equations; lia. }
  set (r := t mod msPerDay).
  assert (0 ≤ r < 86400000) as Hr by (subst r; unfold msPerDay; Z.div_mod_to_equations; lia).
  assert (0 ≤ r / msPerHour ≤ 23) as Hh by (unfold msPerHour; Z.div_mod_to_equations; lia).
  assert (0 ≤ r mod msPerHour / msPerMinute ≤ 59) as Hn
      by (unfold msPerHour, msPerMinute; Z.div_mod_to_equations; lia).
  assert (0 ≤ r mod msPerMinute / 1000 ≤ 59) as Hs
      by (unfold msPerMinute; Z.div_mod_to_equations; lia).
  assert (0 ≤ r mod 1000 ≤ 999) as Hms by (Z.div_mod_to_equations; lia).
  destruct (parseIso_printed _ _ _ _ _ _ _ _ _ _ _ _ _ _
              (year_digits y Hy) (pad_digits m ltac:(lia)) (pad_digits d ltac:(lia))
              (pad_digits (r / msPerHour) ltac:(lia))
              (pad_digits (r mod msPerHour / msPerMinute) ltac:(lia))
              (pad_digits (r mod msPerMinute / 1000) ltac:(lia)) (millis_digits _ Hms))
    as (Hp & HZ & Hsp).
  eexists. split; [exact Hp|]. split; [|split; [|by split]].
  - unfold validCivil. simpl.
    repeat (apply andb_true_intro; split); lia.
  - unfold utcMillis. simpl. rewrite Hz. subst r.
    unfold msPerDay, msPerHour, msPerMinute in *. Z.div_mod_to_equations; lia.
Qed.

Lemma newDate_isoString (t : Z) : fourDigitYear t → newDate (isoString t) = Some t.
Proof.
  intros Ht. destruct (iso_fields t Ht) as (c & Hp & Hv & Hu & _).
  unfold newDate. rewrite Hp, Hv. simpl. rewrite Hu. unfold timeClip.
  unfold fourDigitYear in Ht. assert ((Z.abs t <=? 8640000000000000) = true) as -> by lia.
  done.
Qed.

Lemma parseToUTC_isoString (t : Z) : fourDigitYear t → parseToUTC (isoString t) = Some t.
Proof.
  intros Ht. destruct (iso_fields t Ht) as (c & _ & _ & _ & HZ & Hsp).
  unfold parseToUTC, hasTzMarker. rewrite HZ. simpl.
  rewrite (replaceFirst_absent _ _ _ Hsp). by apply newDate_isoString.
Qed.

Lemma shiftIso_after (iso : string) (t minutes : Z) :
  parseToUTC iso = Some t → fourDigitYear (t + minutes * 60 * 1000) →
  shiftIso iso minutes = isoString (t + minutes * 60 * 1000)
  ∧ parseToUTC (shiftIso iso minutes) = Some (t + minutes * 60 * 1000).
Proof.
  intros Hs Ht. unfold shiftIso. rewrite Hs. simpl. unfold timeClip.
  assert ((Z.abs (t + minutes * 60 * 1000) <=? 8640000000000000) = true) as ->
      by (unfold fourDigitYear in Ht; lia).
  simpl. split; [done|]. by apply parseToUTC_isoString.
Qed.

End IsoRoundTrip.

(** X5.  [normalizeUtcIso] is idempotent and keeps the instant: normalizing
    a second time changes nothing, and the normalized string is read by
    [parseToUTC] as the instant of the original (an unreadable string is
    returned as it is), for instants whose year has four digits. *)
Theorem normalizeUtcIso_idempotent `{JsHost} (s : string) :
  match parseToUTC s with Some t => fourDigitYear t | None => True end →
  normalizeUtcIso (normalizeUtcIso s) = normalizeUtcIso s
  ∧ parseToUTC (normalizeUtcIso s) = parseToUTC s.
Proof.
  unfold normalizeUtcIso at 2 3 4. destruct (parseToUTC s) as [t|] eqn:Hs; simpl.
  - intros Ht. unfold normalizeUtcIso. by rewrite (parseToUTC_isoString t Ht).
  - intros _. unfold normalizeUtcIso. by rewrite Hs.
Qed.

(** X6.  [shiftIso(iso, minutes)] is the ISO form of the instant of [iso]
    moved by [minutes] minutes, and reads back as that instant; shifting by
    [a] and then by [b] minutes is shifting by [a + b]. *)
Theorem shiftIso_adds_minutes `{JsHost} (iso : string) (t a b : Z) :
  parseToUTC iso = Some t →
  fourDigitYear (t + a * 60 * 1000) → fourDigitYear (t + (a + b) * 60 * 1000) →
  shiftIso iso a = isoString (t + a * 60 * 1000)
  ∧ parseToUTC (shiftIso iso a) = Some (t + a * 60 * 1000)
  ∧ shiftIso (shiftIso iso a) b = shiftIso iso (a + b).
Proof.
  intros Hs Ha Hab. destruct (shiftIso_after iso t a Hs Ha) as [Hout Hread].
  split; [done|]. split; [done|].
  destruct (shiftIso_after iso t (a + b) Hs Hab) as [-> _].
  assert (fourDigitYear (t + a * 60 * 1000 + b * 60 * 1000)) as Hb
      by (unfold fourDigitYear in *; lia).
  destruct (shiftIso_after _ _ b Hread Hb) as [-> _]. f_equal. lia.
Qed.

Section StampFacts.
Context `{JsHost} `{Config}.

Lemma stamp_reads (tag : string) (t : Z) :
  parseToUTC tag = Some t → fourDigitYear t →
  fourDigitYear (t + TIME_OFFSET_MIN * 60 * 1000) →
  stamp tag = isoString (t + TIME_OFFSET_MIN * 60 * 1000)
  ∧ parseToUTC (stamp tag) = Some (t + TIME_OFFSET_MIN * 60 * 1000).
Proof.
  intros Hs Ht Hshift. unfold stamp.
  assert (normalizeUtcIso tag = isoString t) as Hn by (unfold normalizeUtcIso; by rewrite Hs).
  rewrite Hn. destruct (Z.eqb_spec TIME_OFFSET_MIN 0) as [Hz|Hnz].
  - rewrite Hz, Z.add_0_r. split; [done|]. by apply parseToUTC_isoString.
  - pose proof (shiftIso_after (isoString t) t TIME_OFFSET_MIN
                  (parseToUTC_isoString t Ht) Hshift) as [-> ?].
    split; [done|]. by apply parseToUTC_isoString.
Qed.

End StampFacts.

(** X7.  The time written to the chart for a tag that [parseToUTC] reads is
    the ISO form of the tag's instant moved by [TIME_OFFSET_MIN] minutes. *)
Theorem stamp_instant `{JsHost} `{Config} (tag : string) (t : Z) :
  parseToUTC tag = Some t → fourDigitYear t →
  fourDigitYear (t + TIME_OFFSET_MIN * 60 * 1000) →
  stamp tag = isoString (t + TIME_OFFSET_MIN * 60 * 1000)
  ∧ parseToUTC (stamp tag) = Some (t + TIME_OFFSET_MIN * 60 * 1000).
Proof.
  intros Hs Ht Hshift. unfold stamp.
  assert (normalizeUtcIso tag = isoString t) as Hn by (unfold normalizeUtcIso; by rewrite Hs).
  rewrite Hn. destruct (Z.eqb_spec TIME_OFFSET_MIN 0) as [Hz|Hnz].
  - rewrite Hz, Z.add_0_r. split; [done|]. by apply parseToUTC_isoString.
  - destruct (shiftIso_after (isoString t) t TIME_OFFSET_MIN
                (parseToUTC_isoString t Ht) Hshift) as [Hout Hread].
    by split.
Qed.

Module ClockWitnesses.
Import Demo.

Lemma normalizeUtcIso_idempotent_example :
  normalizeUtcIso (normalizeUtcIso "2024-01-01 12:00:00")
  = normalizeUtcIso "2024-01-01 12:00:00"
  ∧ parseToUTC (normalizeUtcIso "2024-01-01 12:00:00")
    = parseToUTC "2024-01-01 12:00:00".
Proof.
  apply (normalizeUtcIso_idempotent "2024-01-01 12:00:00").
  vm_compute. split; discriminate.
Defined.

Lemma shiftIso_adds_minutes_example :
  shiftIso "2024-01-01 12:00:00" 90 = isoString (1704110400000 + 90 * 60 * 1000)
  ∧ parseToUTC (shiftIso "2024-01-01 12:00:00" 90) = Some (1704110400000 + 90 * 60 * 1000)
  ∧ shiftIso (shiftIso "2024-01-01 12:00:00" 90) (-30)
    = shiftIso "2024-01-01 12:00:00" (90 + -30).
Proof.
  apply (shiftIso_adds_minutes "2024-01-01 12:00:00" 1704110400000 90 (-30)).
  - vm_compute; reflexivity.
  - unfold fourDigitYear; lia.
  - unfold fourDigitYear; lia.
Defined.

Lemma stamp_instant_example :
  stamp "2024-01-01 12:00:00" = isoString (1704110400000 + TIME_OFFSET_MIN * 60 * 1000)
  ∧ parseToUTC (stamp "2024-01-01 12:00:00")
    = Some (1704110400000 + TIME_OFFSET_MIN * 60 * 1000).
Proof.
  apply (stamp_instant "2024-01-01 12:00:00" 1704110400000).
  - vm_compute; reflexivity.
  - unfold fourDigitYear; lia.
  - unfold fourDigitYear; simpl; lia.
Defined.

End ClockWitnesses.

(** ** Numbers in request parameters and cache keys *)

Section ParseInt.

Lemma digit_not_white (c : ascii) : isDigit c = true → isWhite c = false.
Proof. unfold isDigit, isWhite. lia. Qed.

Lemma digit_not_sign (c : ascii) :
  isDigit c = true → Ascii.eqb c "-" = false ∧ Ascii.eqb c "+" = false.
Proof. intros Hc. split; by apply digit_eqb. Qed.

(** [parseInt] reads back what the template literal prints. *)
Lemma parseInt10_showZ (z : Z) : parseInt10 (showZ z) = Some z.
Proof.
  unfold showZ. destruct (Z.ltb_spec z 0) as [Hneg|Hpos].
  - destruct (decimal_spec (- z)) as (Hne & Hall & Hv & _); [lia|].
    unfold parseInt10. rewrite chars_app. change (chars "-") with ["-"%char]. simpl.
    destruct (chars (decimal (- z))) as [|c r]; [done|].
    apply Forall_cons in Hall as [Hc Hr]. rewrite Hc, Hv. f_equal. lia.
  - destruct (decimal_spec z) as (Hne & Hall & Hv & _); [lia|].
    unfold parseInt10. destruct (chars (decimal z)) as [|c r] eqn:Hz; [done|].
    apply Forall_cons in Hall as [Hc Hr]. simpl. rewrite (digit_not_white c Hc).
    destruct (digit_not_sign c Hc) as [-> ->]. by rewrite Hc, Hv.
Qed.

Lemma showZ_inj (a b : Z) : showZ a = showZ b → a = b.
Proof.
  intros Heq. pose proof (parseInt10_showZ a) as Ha. rewrite Heq, parseInt10_showZ in Ha.
  congruence.
Qed.

Lemma showZ_nonempty (z : Z) : showZ z ≠ "".
Proof. intros Hz. pose proof (parseInt10_showZ z) as Hp. by rewrite Hz in Hp. Qed.

End ParseInt.

Section FrameFacts.
Context `{JsHost} `{Config}.

(** What a fetcher leaves alone. *)
Lemma getSolarwind_frame w plasmaRes magRes s :
  let s' := (getSolarwind w plasmaRes magRes s).2 in
  c_kp s' = c_kp s ∧ c_rx s' = c_rx s ∧ c_fmiBx s' = c_fmiBx s
  ∧ c_fmiRadar s' = c_fmiRadar s ∧ c_weatherTemp s' = c_weatherTemp s.
Proof. unfold getSolarwind. by destruct (freshSlot _ _ _). Qed.

Lemma getKp_frame w res s :
  let s' := (getKp w res s).2 in
  c_solarwind s' = c_solarwind s ∧ c_rx s' = c_rx s ∧ c_fmiBx s' = c_fmiBx s
  ∧ c_fmiRadar s' = c_fmiRadar s ∧ c_weatherTemp s' = c_weatherTemp s.
Proof. unfold getKp. by destruct (freshSlot _ _ _). Qed.

Lemma getRx_frame w s :
  let s' := (getRx w s).2 in
  c_solarwind s' = c_solarwind s ∧ c_kp s' = c_kp s ∧ c_fmiBx s' = c_fmiBx s
  ∧ c_fmiRadar s' = c_fmiRadar s ∧ c_weatherTemp s' = c_weatherTemp s
  ∧ requests s' = requests s.
Proof. unfold getRx. by destruct (freshSlot _ _ _). Qed.

Lemma getWeatherTemperature_frame lat lon w res s :
  let s' := (getWeatherTemperature lat lon w res s).2 in
  c_solarwind s' = c_solarwind s ∧ c_kp s' = c_kp s ∧ c_rx s' = c_rx s
  ∧ c_fmiBx s' = c_fmiBx s ∧ c_fmiRadar s' = c_fmiRadar s
  ∧ ∀ key, key ≠ (toFixed 4 lat ++ "," ++ toFixed 4 lon)%string →
           c_weatherTemp s' !! key = c_weatherTemp s !! key.
Proof.
  unfold getWeatherTemperature. destruct (freshEntry _ _ _); [done|].
  repeat split; try done. intros key Hk. simpl. by rewrite lookup_insert_ne.
Qed.

Lemma getFmiBx_frame station minutes w res s :
  let s' := (getFmiBx station minutes w res s).2 in
  c_solarwind s' = c_solarwind s ∧ c_kp s' = c_kp s ∧ c_rx s' = c_rx s
  ∧ c_fmiRadar s' = c_fmiRadar s ∧ c_weatherTemp s' = c_weatherTemp s
  ∧ ∀ key, key ≠ bxKey station minutes → c_fmiBx s' !! key = c_fmiBx s !! key.
Proof.
  unfold getFmiBx. fold (bxKey station minutes). destruct (freshEntry _ _ _); [done|].
  repeat split; try done. intros key Hk. simpl. by rewrite lookup_insert_ne.
Qed.

Lemma radarHandler_frame q w res s :
  let s' := (radarHandler q w res s).2 in
  c_solarwind s' = c_solarwind s ∧ c_kp s' = c_kp s ∧ c_rx s' = c_rx s
  ∧ c_fmiBx s' = c_fmiBx s ∧ c_weatherTemp s' = c_weatherTemp s
  ∧ ∀ key, key ≠ radarKey q → c_fmiRadar s' !! key = c_fmiRadar s !! key.
Proof.
  assert (∀ key, let s' := (radarFetch key w res s).2 in
            c_solarwind s' = c_solarwind s ∧ c_kp s' = c_kp s ∧ c_rx s' = c_rx s
            ∧ c_fmiBx s' = c_fmiBx s ∧ c_weatherTemp s' = c_weatherTemp s
            ∧ ∀ key', key' ≠ key → c_fmiRadar s' !! key' = c_fmiRadar s !! key') as Hfetch.
  { intros key. unfold radarFetch. destruct res as [| | |[hdr buf]]; simpl; try done.
    repeat split; try done. intros key' Hk. by rewrite lookup_insert_ne. }
  unfold radarHandler, radarKey. destruct (layersOf q) as [|l ls] eqn:Hl; [done|].
  destruct (negb _ || existsb _ _); [done|].
  destruct (c_fmiRadar s !! _) as [ent|]; [destruct (_ <? _); [done|]|]; apply Hfetch.
Qed.

Lemma solarimageHandler_frame q res s :
  let s' := (solarimageHandler q res s).2 in
  c_solarwind s' = c_solarwind s ∧ c_kp s' = c_kp s ∧ c_rx s' = c_rx s
  ∧ c_fmiBx s' = c_fmiBx s ∧ c_fmiRadar s' = c_fmiRadar s
  ∧ c_weatherTemp s' = c_weatherTemp s.
Proof.
  unfold solarimageHandler. destruct (solarImgSource _); try done.
  by destruct res as [| | |[hdr buf]].
Qed.

Lemma textdataHandler_frame q res s :
  let s' := (textdataHandler q res s).2 in
  c_solarwind s' = c_solarwind s ∧ c_kp s' = c_kp s ∧ c_rx s' = c_rx s
  ∧ c_fmiBx s' = c_fmiBx s ∧ c_fmiRadar s' = c_fmiRadar s
  ∧ c_weatherTemp s' = c_weatherTemp s.
Proof.
  unfold textdataHandler. case_bool_decide; [|done].
  destruct res as [| | |text]; try done. by destruct (parseText _ _).
Qed.

End FrameFacts.

(** X9.  A fetcher or proxy handler changes only its own cache entry: the
    slots and maps of the other resources are as before, and so is every
    entry of its own map under another key.  The image proxy and the
    full-day text endpoint change no cache at all. *)
Theorem cache_isolation `{JsHost} `{Config} (s : server) :
  (∀ w plasmaRes magRes,
      let s' := (getSolarwind w plasmaRes magRes s).2 in
      c_kp s' = c_kp s ∧ c_rx s' = c_rx s ∧ c_fmiBx s' = c_fmiBx s
      ∧ c_fmiRadar s' = c_fmiRadar s ∧ c_weatherTemp s' = c_weatherTemp s)
  ∧ (∀ w res,
        let s' := (getKp w res s).2 in
        c_solarwind s' = c_solarwind s ∧ c_rx s' = c_rx s ∧ c_fmiBx s' = c_fmiBx s
        ∧ c_fmiRadar s' = c_fmiRadar s ∧ c_weatherTemp s' = c_weatherTemp s)
  ∧ (∀ w,
        let s' := (getRx w s).2 in
        c_solarwind s' = c_solarwind s ∧ c_kp s' = c_kp s ∧ c_fmiBx s' = c_fmiBx s
        ∧ c_fmiRadar s' = c_fmiRadar s ∧ c_weatherTemp s' = c_weatherTemp s
        ∧ requests s' = requests s)
  ∧ (∀ lat lon w res,
        let s' := (getWeatherTemperature lat lon w res s).2 in
        c_solarwind s' = c_solarwind s ∧ c_kp s' = c_kp s ∧ c_rx s' = c_rx s
        ∧ c_fmiBx s' = c_fmiBx s ∧ c_fmiRadar s' = c_fmiRadar s
        ∧ ∀ key, key ≠ (toFixed 4 lat ++ "," ++ toFixed 4 lon)%string →
                 c_weatherTemp s' !! key = c_weatherTemp s !! key)
  ∧ (∀ station minutes w res,
        let s' := (getFmiBx station minutes w res s).2 in
        c_solarwind s' = c_solarwind s ∧ c_kp s' = c_kp s ∧ c_rx s' = c_rx s
        ∧ c_fmiRadar s' = c_fmiRadar s ∧ c_weatherTemp s' = c_weatherTemp s
        ∧ ∀ key, key ≠ bxKey station minutes → c_fmiBx s' !! key = c_fmiBx s !! key)
  ∧ (∀ q w res,
        let s' := (radarHandler q w res s).2 in
        c_solarwind s' = c_solarwind s ∧ c_kp s' = c_kp s ∧ c_rx s' = c_rx s
        ∧ c_fmiBx s' = c_fmiBx s ∧ c_weatherTemp s' = c_weatherTemp s
        ∧ ∀ key, key ≠ radarKey q → c_fmiRadar s' !! key = c_fmiRadar s !! key)
  ∧ (∀ q res,
        let s' := (solarimageHandler q res s).2 in
        c_solarwind s' = c_solarwind s ∧ c_kp s' = c_kp s ∧ c_rx s' = c_rx s
        ∧ c_fmiBx s' = c_fmiBx s ∧ c_fmiRadar s' = c_fmiRadar s
        ∧ c_weatherTemp s' = c_weatherTemp s)
  ∧ (∀ q res,
        let s' := (textdataHandler q res s).2 in
        c_solarwind s' = c_solarwind s ∧ c_kp s' = c_kp s ∧ c_rx s' = c_rx s
        ∧ c_fmiBx s' = c_fmiBx s ∧ c_fmiRadar s' = c_fmiRadar s
        ∧ c_weatherTemp s' = c_weatherTemp s).
Proof.
  repeat split_and; intros.
  - apply getSolarwind_frame.
  - apply getKp_frame.
  - apply getRx_frame.
  - apply getWeatherTemperature_frame.
  - apply getFmiBx_frame.
  - apply radarHandler_frame.
  - apply solarimageHandler_frame.
  - apply textdataHandler_frame.
Qed.

Section RunningFacts.
Context `{JsHost} `{Config}.

Lemma bxStation_valid (q : query) : bxStation q ∈ FMI_STATIONS.
Proof.
  unfold bxStation. case_bool_decide; [done|]. unfold FMI_STATIONS. set_solver.
Qed.

Lemma append_inj_3 (a b x y : string) :
  String.length a = 3%nat → String.length b = 3%nat →
  (a ++ x)%string = (b ++ y)%string → a = b ∧ x = y.
Proof.
  destruct a as [|a1 [|a2 [|a3 [|? ?]]]]; try discriminate.
  destruct b as [|b1 [|b2 [|b3 [|? ?]]]]; try discriminate.
  intros _ _ Heq. simpl in Heq. injection Heq as -> -> -> Heq. by split.
Qed.

Lemma station_length (station : string) :
  station ∈ FMI_STATIONS → String.length station = 3%nat.
Proof.
  unfold FMI_STATIONS. intros Hin.
  repeat (apply elem_of_cons in Hin as [->|Hin]; [done|]). by apply elem_of_nil in Hin.
Qed.

(** Two requests for the twelve stations share a key only if they agree. *)
Lemma bxKey_inj (st1 st2 : string) (m1 m2 : Z) :
  st1 ∈ FMI_STATIONS → st2 ∈ FMI_STATIONS →
  bxKey st1 m1 = bxKey st2 m2 → st1 = st2 ∧ m1 = m2.
Proof.
  intros H1%station_length H2%station_length Hk. unfold bxKey in Hk.
  destruct (append_inj_3 _ _ _ _ H1 H2 Hk) as [-> Hrest]. split; [done|].
  simpl in Hrest. injection Hrest as Hs. by apply showZ_inj.
Qed.

Lemma getFmiBx_keyed station minutes w res s :
  station ∈ FMI_STATIONS → bxCacheKeyed s →
  bxCacheKeyed (getFmiBx station minutes w res s).2.
Proof.
  intros Hst Hs. unfold getFmiBx. fold (bxKey station minutes).
  destruct (freshEntry _ _ _); [done|]. intros key e. simpl.
  destruct (decide (key = bxKey station minutes)) as [->|Hne].
  - rewrite lookup_insert_eq. by intros [= <-].
  - rewrite lookup_insert_ne by done. apply Hs.
Qed.

Lemma refreshBx_keyed run i stations s :
  Forall (fun st => st ∈ FMI_STATIONS) stations → bxCacheKeyed s →
  bxCacheKeyed (refreshBx run i stations s).
Proof.
  intros Hall. revert i s. induction Hall as [|st stations Hst Hall IH]; intros i s Hs; [done|].
  simpl. by apply IH, getFmiBx_keyed.
Qed.

Lemma refreshStations_valid : Forall (fun st => st ∈ FMI_STATIONS) refreshStations.
Proof. apply (bool_decide_unpack _). by vm_compute. Qed.

Lemma bxCacheKeyed_same (s s' : server) :
  c_fmiBx s' = c_fmiBx s → bxCacheKeyed s → bxCacheKeyed s'.
Proof. unfold bxCacheKeyed. by intros ->. Qed.

Lemma refreshBx_frame run i stations s :
  let s' := refreshBx run i stations s in
  c_solarwind s' = c_solarwind s ∧ c_kp s' = c_kp s ∧ c_rx s' = c_rx s
  ∧ c_fmiRadar s' = c_fmiRadar s ∧ c_weatherTemp s' = c_weatherTemp s.
Proof.
  revert i s. induction stations as [|st stations IH]; intros i s; [done|]. simpl.
  destruct (IH (S i) (getFmiBx st 60 (at_call run i) (bxAnswer run st) s).2)
    as (-> & -> & -> & -> & ->).
  destruct (getFmiBx_frame st 60 (at_call run i) (bxAnswer run st) s)
    as (-> & -> & -> & -> & -> & _). done.
Qed.


Lemma refreshAll_keyed run s : bxCacheKeyed s → bxCacheKeyed (refreshAll run s).
Proof.
  intros Hs. unfold refreshAll. apply refreshBx_keyed; [apply refreshStations_valid|].
  eapply bxCacheKeyed_same; [|exact Hs].
  destruct (getRx_frame (at_call run 2)
              (getKp (at_call run 1) (kpAnswer run)
                 (getSolarwind (at_call run 0) (plasmaAnswer run) (magAnswer run) s).2).2)
    as (_ & _ & -> & _).
  destruct (getKp_frame (at_call run 1) (kpAnswer run)
              (getSolarwind (at_call run 0) (plasmaAnswer run) (magAnswer run) s).2)
    as (_ & _ & -> & _).
  by destruct (getSolarwind_frame (at_call run 0) (plasmaAnswer run) (magAnswer run) s)
    as (_ & _ & -> & _).
Qed.

Lemma handler_state_solarwind w p m s :
  (solarwindHandler w p m s).2 = (getSolarwind w p m s).2.
Proof. unfold solarwindHandler. by destruct (getSolarwind w p m s). Qed.
Lemma handler_state_kp w res s : (kpHandler w res s).2 = (getKp w res s).2.
Proof. unfold kpHandler. by destruct (getKp w res s). Qed.
Lemma handler_state_rx w s : (rxHandler w s).2 = (getRx w s).2.
Proof. unfold rxHandler. by destruct (getRx w s). Qed.
Lemma handler_state_weather q w res s :
  (weatherHandler q w res s).2
  = (getWeatherTemperature (weatherCoords q).1 (weatherCoords q).2 w res s).2.
Proof.
  unfold weatherHandler. destruct (weatherCoords q) as [la lo]. simpl.
  by destruct (getWeatherTemperature la lo w res s).
Qed.
Lemma handler_state_bx q w res s :
  (bxHandler q w res s).2 = (getFmiBx (bxStation q) (bxMinutes q) w res s).2.
Proof. unfold bxHandler. by destruct (getFmiBx _ _ w res s). Qed.

Lemma serves_keyed (s s' : server) : serves s s' → bxCacheKeyed s → bxCacheKeyed s'.
Proof.
  intros Hstep Hs. destruct Hstep.
  - rewrite handler_state_solarwind. eapply bxCacheKeyed_same; [|exact Hs].
    by destruct (getSolarwind_frame w plasmaRes magRes s) as (_ & _ & -> & _).
  - rewrite handler_state_kp. eapply bxCacheKeyed_same; [|exact Hs].
    by destruct (getKp_frame w res s) as (_ & _ & -> & _).
  - rewrite handler_state_rx. eapply bxCacheKeyed_same; [|exact Hs].
    by destruct (getRx_frame w s) as (_ & _ & -> & _).
  - rewrite handler_state_weather. eapply bxCacheKeyed_same; [|exact Hs].
    by destruct (getWeatherTemperature_frame (weatherCoords q).1 (weatherCoords q).2 w res s)
      as (_ & _ & _ & -> & _).
  - rewrite handler_state_bx. apply getFmiBx_keyed; [apply bxStation_valid|done].
  - eapply bxCacheKeyed_same; [|exact Hs].
    by destruct (radarHandler_frame q w res s) as (_ & _ & _ & -> & _).
  - eapply bxCacheKeyed_same; [|exact Hs].
    by destruct (solarimageHandler_frame q res s) as (_ & _ & _ & -> & _).
  - eapply bxCacheKeyed_same; [|exact Hs].
    by destruct (textdataHandler_frame q res s) as (_ & _ & _ & -> & _).
  - by apply refreshAll_keyed.
Qed.

Lemma running_keyed (s : server) : running s → bxCacheKeyed s.
Proof.
  induction 1 as [|s s' _ IH Hstep]; [|by eapply serves_keyed].
  intros key e. unfold startServer. simpl. by rewrite lookup_empty.
Qed.

End RunningFacts.

(** X8.  The window of the magnetometer endpoint is always between 5 and
    180 minutes: a missing [minutes] parameter gives 60, and a parameter that
    is the decimal form of an integer gives that integer clamped to the
    range. *)
Theorem bxMinutes_clamped `{JsHost} `{Config} (q : query) :
  5 ≤ bxMinutes q ≤ 180
  ∧ (q !! "minutes" = None → bxMinutes q = 60)
  ∧ (∀ n, q !! "minutes" = Some (showZ n) → Z.abs n < 2 ^ 1024 - 2 ^ 970 →
          bxMinutes q = Z.max 5 (Z.min 180 n)).
Proof.
  split; [unfold bxMinutes; lia|]. split.
  - intros Hq. unfold bxMinutes, paramOr. rewrite Hq.
    change (parseInt10 "60") with (Some 60). reflexivity.
  - intros n Hq Hn. unfold bxMinutes, paramOr. rewrite Hq.
    destruct (showZ n) as [|c r] eqn:Hs; [by apply showZ_nonempty in Hs|].
    rewrite <- Hs, parseInt10_showZ.
    by destruct (Z.ltb_spec (Z.abs n) (2 ^ 1024 - 2 ^ 970)); [|lia].
Qed.

(** X10.  In every state of the running server, the magnetometer endpoint
    answers a request with a payload for the station and the window of that
    request, whether it comes from the cache or from a fetch: no cached
    payload is served under another request's key. *)
Theorem bx_reply_matches_request `{JsHost} `{Config} (s : server) (q : query) (w : moment)
        (res : fetched (list xmlEntry)) :
  running s →
  ∃ d, (bxHandler q w res s).1 = Sent d
       ∧ fmi_station d = bxStation q ∧ fmi_minutes d = bxMinutes q.
Proof.
  intros Hrun%running_keyed. unfold bxHandler, getFmiBx.
  fold (bxKey (bxStation q) (bxMinutes q)). unfold freshEntry.
  destruct (c_fmiBx s !! bxKey (bxStation q) (bxMinutes q)) as [e|] eqn:He.
  - destruct (Hrun _ _ He) as [Hst Hkey].
    destruct (bxKey_inj _ _ _ _ (bxStation_valid q) Hst Hkey) as [Hs Hm].
    destruct (_ <? _); simpl; eauto.
  - simpl. eauto.
Qed.

Section RefreshFacts.
Context `{JsHost} `{Config}.













End RefreshFacts.


Section TileFacts.
Context `{JsHost} `{Config}.







End TileFacts.


Module ServerWitnesses.
Import Demo ServerExample.

Lemma bxMinutes_clamped_example :
  bxMinutes wideQuery = Z.max 5 (Z.min 180 999).
Proof.
  apply (bxMinutes_clamped wideQuery).
  - reflexivity.
  - apply Z.ltb_lt. reflexivity.
Defined.

Lemma bx_reply_matches_request_example :
  ∃ d, (bxHandler wideQuery laterCall NetworkError
                  (bxHandler wideQuery firstCall NetworkError startServer).2).1 = Sent d
       ∧ fmi_station d = bxStation wideQuery ∧ fmi_minutes d = bxMinutes wideQuery.
Proof.
  apply bx_reply_matches_request.
  eapply running_step; [apply running_start|apply serves_bx].
Defined.


End ServerWitnesses.

(** ** The magnetometer parser *)

Section XmlFacts.
Context `{JsHost} `{Config}.

Lemma finiteOrNull_value (x : number) : finiteOrNullValue (numOrNull (finiteOrNull x)).
Proof.
  unfold finiteOrNull. destruct (isFinite x) eqn:Hx; simpl; [right; eauto|by left].
Qed.

Lemma flush_inv (seen : nat) (st : xmlState) :
  xmlInv seen st →
  Forall parsedRow (flush st) ∧ (length (flush st) ≤ seen)%nat.
Proof.
  intros (Hrows & Hbx & Hbz & Hcount).
  assert (∀ c t, is_Some (cur_bx st) ∨ is_Some (cur_bz st) →
            Forall parsedRow (rowsSoFar st ++ [FmiRow (String c t) (numOrNull (cur_bx st))
                                                 (numOrNull (cur_bz st)) (cur_station st)]))
    as Hpush.
  { intros c t Hsome. apply Forall_app. split; [done|].
    constructor; [|done]. repeat split; try done. simpl. intros [Hx Hz].
    destruct (cur_bx st), (cur_bz st); simpl in *; try discriminate.
    destruct Hsome as [[? [=]]|[? [=]]]. }
  unfold flush. destruct (currentTime st) as [[|c t]|] eqn:Ht; simpl in Hcount.
  - destruct (cur_bx st), (cur_bz st); (split; [done|lia]).
  - destruct (cur_bx st) as [x|] eqn:Hx, (cur_bz st) as [z|] eqn:Hz;
      (split; [try (apply Hpush; eauto); done|rewrite ?length_app; simpl; lia]).
  - destruct (cur_bx st), (cur_bz st); (split; [done|lia]).
Qed.

Lemma xmlStep_inv (seen : nat) (st : xmlState) (e : xmlEntry) :
  xmlInv seen st →
  xmlInv (seen + countOf (x_time e)) (xmlStep st e).
Proof.
  intros Hst. unfold xmlStep.
  set (st1 := match x_time e with
              | Some t => XmlState (Some t) None None (cur_station st) (flush st)
              | None => st
              end).
  assert (xmlInv (seen + countOf (x_time e)) st1) as H1.
  { subst st1. destruct (x_time e) as [t|].
    - destruct (flush_inv seen st Hst) as [Hrows Hlen].
      split; [done|]. split; [by left|]. split; [by left|]. simpl. lia.
    - by rewrite Nat.add_0_r. }
  clearbody st1. destruct H1 as (Hrows & Hbx & Hbz & Hcount).
  set (st2 := match x_paramName e, x_paramValue e with
              | Some name, Some v =>
                  if String.eqb name "BX" then
                    XmlState (currentTime st1) (finiteOrNull (parseFloat v)) (cur_bz st1)
                             (cur_station st1) (rowsSoFar st1)
                  else if String.eqb name "BZ" then
                    XmlState (currentTime st1) (cur_bx st1) (finiteOrNull (parseFloat v))
                             (cur_station st1) (rowsSoFar st1)
                  else st1
              | _, _ => st1
              end).
  assert (xmlInv (seen + countOf (x_time e)) st2) as H2.
  { subst st2. destruct (x_paramName e) as [name|]; [|done].
    destruct (x_paramValue e) as [v|]; [|done].
    destruct (String.eqb name "BX"); [|destruct (String.eqb name "BZ"); [|done]].
    - split; [done|]. split; [apply finiteOrNull_value|]. by split.
    - split; [done|]. split; [done|]. split; [apply finiteOrNull_value|done]. }
  clearbody st2. by destruct (x_name e).
Qed.

Lemma xmlLoop_inv (entries : list xmlEntry) (seen : nat) (st : xmlState) :
  xmlInv seen st → xmlInv (seen + timedBlocks entries) (foldl xmlStep st entries).
Proof.
  revert seen st. induction entries as [|e entries IH]; intros seen st Hst; simpl.
  - unfold timedBlocks. simpl. by rewrite Nat.add_0_r.
  - apply (xmlStep_inv _ _ e), IH in Hst.
    replace (seen + timedBlocks (e :: entries))%nat
      with (seen + countOf (x_time e) + timedBlocks entries)%nat; [done|].
    unfold timedBlocks. simpl. lia.
Qed.

(** With a time in every block, the loop never holds both components. *)
Lemma xmlStep_oneSided (st : xmlState) (e : xmlEntry) :
  is_Some (x_time e) →
  Forall oneSided (rowsSoFar st) → cur_bx st = None ∨ cur_bz st = None →
  Forall oneSided (rowsSoFar (xmlStep st e))
  ∧ (cur_bx (xmlStep st e) = None ∨ cur_bz (xmlStep st e) = None).
Proof.
  intros [t Ht] Hrows Hone. unfold xmlStep. rewrite Ht.
  assert (Forall oneSided (flush st)) as Hflush.
  { unfold flush.
    destruct (currentTime st) as [[|c r]|]; destruct (cur_bx st) as [x|] eqn:Hx;
      destruct (cur_bz st) as [z|] eqn:Hz; try done;
      (apply Forall_app; split; [done|]; constructor; [|done]);
      unfold oneSided; simpl; destruct Hone as [[=]|[=]]; auto. }
  destruct (x_paramName e) as [name|], (x_paramValue e) as [v|];
    try (destruct (x_name e); simpl; by auto).
  destruct (String.eqb name "BX"); [|destruct (String.eqb name "BZ")];
    destruct (x_name e); simpl; auto.
Qed.

Lemma xmlLoop_oneSided (entries : list xmlEntry) (st : xmlState) :
  Forall (fun e => is_Some (x_time e)) entries →
  Forall oneSided (rowsSoFar st) → cur_bx st = None ∨ cur_bz st = None →
  Forall oneSided (flush (foldl xmlStep st entries)).
Proof.
  intros Hall. revert st. induction Hall as [|e entries He Hall IH]; intros st Hrows Hone.
  - simpl. unfold flush.
    destruct (currentTime st) as [[|c r]|]; destruct (cur_bx st) as [x|] eqn:Hx;
      destruct (cur_bz st) as [z|] eqn:Hz; try done;
      (apply Forall_app; split; [done|]; constructor; [|done]);
      unfold oneSided; simpl; destruct Hone as [[=]|[=]]; auto.
  - simpl. destruct (xmlStep_oneSided st e He Hrows Hone) as [Hr Ho]. by apply IH.
Qed.

End XmlFacts.

(** X13.  Every row [parseFmiMagnetometerXml] returns has a time that is
    not empty, a [bx] and a [bz] that are each a finite number or [null], and
    at least one of the two is a number; there are no more rows than element
    blocks with a time. *)
Theorem parseFmiMagnetometerXml_rows `{JsHost} `{Config} (entries : list xmlEntry) :
  Forall parsedRow (parseFmiMagnetometerXml entries)
  ∧ (length (parseFmiMagnetometerXml entries) ≤ timedBlocks entries)%nat.
Proof.
  unfold parseFmiMagnetometerXml. apply (flush_inv (timedBlocks entries)).
  apply (xmlLoop_inv entries 0). split; [constructor|]. split; [by left|]. split; [by left|].
  simpl. lia.
Qed.

(** X14.  When every element block carries its own time, as in the feed the
    server asks for, no row has both components: each row has [bx] or [bz]
    [null], a block with a time starting a new row. *)
Theorem parseFmiMagnetometerXml_one_component `{JsHost} `{Config} (entries : list xmlEntry) :
  Forall (fun e => is_Some (x_time e)) entries →
  Forall oneSided (parseFmiMagnetometerXml entries).
Proof.
  intros Hall. unfold parseFmiMagnetometerXml. apply xmlLoop_oneSided; [done|constructor|].
  by left.
Qed.

(** ** The shape of the payloads *)

Section ShapeFacts.
Context `{JsHost} `{Config}.

Lemma buildSolarwind_parallel (plasma mag : list record) (clock : Z) :
  solarwindParallel (Live (buildSolarwind plasma mag clock)).
Proof.
  destruct (chart_series_parallel plasma mag clock)
    as (Hlen & _ & Ht & Hl & Hs & Hd & Hz & Hb).
  unfold solarwindParallel. rewrite Ht, Hl, Hs, Hd, Hz, Hb, !length_map. by repeat split.
Qed.

Lemma mockSolarwindData_parallel (clock : Z) (seed : nat) :
  solarwindParallel (Mock (mockSolarwindData clock seed)).
Proof.
  unfold mockSolarwindData, solarwindParallel.
  cbv beta zeta iota delta [mock_times mock_labels mock_speed mock_density].
  by rewrite !length_map, !length_seq.
Qed.

Lemma getSolarwind_parallel w plasmaRes magRes s :
  (∀ d, data (c_solarwind s) = Some d → solarwindParallel d) →
  solarwindParallel (getSolarwind w plasmaRes magRes s).1
  ∧ ∀ d, data (c_solarwind (getSolarwind w plasmaRes magRes s).2) = Some d →
         solarwindParallel d.
Proof.
  intros Hs. unfold getSolarwind, freshSlot.
  assert (solarwindParallel
            match plasmaRes, magRes with
            | Body plasma, Body mag => Live (buildSolarwind plasma mag (clock w))
            | _, _ => Mock (mockSolarwindData (clock w) (entropy w))
            end) as Hnew.
  { destruct plasmaRes, magRes;
      auto using buildSolarwind_parallel, mockSolarwindData_parallel. }
  destruct (data (c_solarwind s)) as [d|] eqn:Hd.
  - destruct (_ <? _); simpl.
    + split; [by apply Hs|]. intros d' Hd'. apply Hs. congruence.
    + split; [done|]. by intros d' [= <-].
  - simpl. split; [done|]. by intros d' [= <-].
Qed.

Lemma lastN_nonempty {A} (n : nat) (l : list A) :
  l ≠ [] → (0 < n)%nat → (1 ≤ length (lastN n l))%nat.
Proof.
  intros Hl Hn. unfold lastN. rewrite length_drop.
  destruct l; [done|]. simpl. lia.
Qed.

Lemma last_default {A} (l : list (option A)) :
  l ≠ [] → last l = Some (default None (last l)).
Proof.
  intros Hl. destruct (last l) as [x|] eqn:E; [done|].
  by apply last_None in E.
Qed.

Lemma buildKp_parallel (rows : list record) (clock : Z) (d : kpData) :
  buildKp rows clock = Some d → kpParallel d.
Proof.
  unfold buildKp. destruct rows as [|first rest]; [discriminate|]. intros [= <-].
  unfold kpParallel. simpl kp_values. simpl kp_labels. simpl kp_now.
  rewrite !length_map.
  pose proof (lastN_length 8 (first :: rest)) as Hle.
  pose proof (lastN_nonempty 8 (first :: rest) ltac:(done) ltac:(lia)) as Hge.
  split; [lia|]. split; [done|]. apply last_default.
  intros Hnil. apply (f_equal length) in Hnil. rewrite length_map in Hnil.
  simpl in Hnil. lia.
Qed.

Lemma mockKpData_parallel (clock : Z) (seed : nat) : kpParallel (mockKpData clock seed).
Proof.
  unfold mockKpData, kpParallel.
  cbv beta zeta iota delta [kp_values kp_labels kp_now].
  rewrite !length_map, !length_seq. split; [lia|]. split; [done|].
  apply last_default. intros Hnil. apply (f_equal length) in Hnil.
  by rewrite length_map, length_seq in Hnil.
Qed.

Lemma getKp_parallel w res s :
  (∀ d, data (c_kp s) = Some d → kpParallel d) →
  kpParallel (getKp w res s).1
  ∧ ∀ d, data (c_kp (getKp w res s).2) = Some d → kpParallel d.
Proof.
  intros Hs. unfold getKp, freshSlot.
  assert (kpParallel
            match match res with Body rows => buildKp rows (clock w) | _ => None end with
            | Some out => out
            | None => mockKpData (clock w) (entropy w)
            end) as Hnew.
  { destruct res as [| | |rows]; try apply mockKpData_parallel.
    destruct (buildKp rows (clock w)) eqn:E; [by eapply buildKp_parallel|].
    apply mockKpData_parallel. }
  destruct (data (c_kp s)) as [d|] eqn:Hd.
  - destruct (_ <? _); simpl.
    + split; [by apply Hs|]. intros d' Hd'. apply Hs. congruence.
    + split; [done|]. by intros d' [= <-].
  - simpl. split; [done|]. by intros d' [= <-].
Qed.

End ShapeFacts.

Section ShapeInvariant.
Context `{JsHost} `{Config}.

Lemma slotsParallel_same (s s' : server) :
  c_solarwind s' = c_solarwind s → c_kp s' = c_kp s → slotsParallel s → slotsParallel s'.
Proof. unfold slotsParallel. by intros -> ->. Qed.

Lemma getSolarwind_slots w plasmaRes magRes s :
  slotsParallel s → slotsParallel (getSolarwind w plasmaRes magRes s).2.
Proof.
  intros [Hsw Hkp]. split; [by apply getSolarwind_parallel|].
  by destruct (getSolarwind_frame w plasmaRes magRes s) as (-> & _).
Qed.

Lemma getKp_slots w res s : slotsParallel s → slotsParallel (getKp w res s).2.
Proof.
  intros [Hsw Hkp]. split; [|by apply getKp_parallel].
  by destruct (getKp_frame w res s) as (-> & _).
Qed.

Lemma getRx_slots w s : slotsParallel s → slotsParallel (getRx w s).2.
Proof.
  destruct (getRx_frame w s) as (Ha & Hb & _). by apply slotsParallel_same.
Qed.

Lemma refreshAll_slots run s : slotsParallel s → slotsParallel (refreshAll run s).
Proof.
  intros Hs. unfold refreshAll.
  match goal with |- slotsParallel (refreshBx _ _ _ ?s3) =>
    destruct (refreshBx_frame run 3 refreshStations s3) as (Ha & Hb & _) end.
  eapply slotsParallel_same; [exact Ha|exact Hb|].
  by apply getRx_slots, getKp_slots, getSolarwind_slots.
Qed.

Lemma serves_slots (s s' : server) : serves s s' → slotsParallel s → slotsParallel s'.
Proof.
  intros Hstep Hs. destruct Hstep.
  - rewrite handler_state_solarwind. by apply getSolarwind_slots.
  - rewrite handler_state_kp. by apply getKp_slots.
  - rewrite handler_state_rx. by apply getRx_slots.
  - rewrite handler_state_weather. destruct (getWeatherTemperature_frame (weatherCoords q).1 (weatherCoords q).2 w res s) as (Ha & Hb & _).
    by eapply slotsParallel_same.
  - rewrite handler_state_bx. destruct (getFmiBx_frame (bxStation q) (bxMinutes q) w res s) as (Ha & Hb & _).
    by eapply slotsParallel_same.
  - destruct (radarHandler_frame q w res s) as (Ha & Hb & _).
    by eapply slotsParallel_same.
  - destruct (solarimageHandler_frame q res s) as (Ha & Hb & _).
    by eapply slotsParallel_same.
  - destruct (textdataHandler_frame q res s) as (Ha & Hb & _).
    by eapply slotsParallel_same.
  - by apply refreshAll_slots.
Qed.

Lemma running_slots (s : server) : running s → slotsParallel s.
Proof.
  induction 1 as [|s s' _ IH Hstep]; [|by eapply serves_slots].
  split; intros d; unfold startServer; simpl; discriminate.
Qed.

End ShapeInvariant.

(** X15.  In every state of the running server the solar-wind endpoint
    answers with status 200 and a payload whose series are parallel: in a live
    payload [labels], [speed], [density], [bz] and [bt] have one element per
    element of [times], at most 60; in a mock payload each series has 60. *)
Theorem solarwind_series_parallel `{JsHost} `{Config} (s : server) (w : moment)
        (plasmaRes magRes : fetched (list record)) :
  running s →
  ∃ d, (solarwindHandler w plasmaRes magRes s).1 = Sent d ∧ solarwindParallel d.
Proof.
  intros [Hsw _]%running_slots. unfold solarwindHandler.
  destruct (getSolarwind_parallel w plasmaRes magRes s Hsw) as [Hd _].
  destruct (getSolarwind w plasmaRes magRes s) as [d s']. eauto.
Qed.

(** X16.  In every state of the running server the Kp endpoint answers with
    status 200 and a payload with between one and eight values, as many
    labels, and [now] equal to the last value. *)
Theorem kp_series_parallel `{JsHost} `{Config} (s : server) (w : moment)
        (res : fetched (list record)) :
  running s → ∃ d, (kpHandler w res s).1 = Sent d ∧ kpParallel d.
Proof.
  intros [_ Hkp]%running_slots. unfold kpHandler.
  destruct (getKp_parallel w res s Hkp) as [Hd _].
  destruct (getKp w res s) as [d s']. eauto.
Qed.

(** ** The fallback series, the text dump and the weather time *)

Section MockRows.
Context `{JsHost} `{Config}.

Lemma seq_last (n : nat) : last (seq 0 (S n)) = Some n.
Proof. rewrite seq_S. simpl. by rewrite last_snoc. Qed.

Lemma referenceTime_iso : isoString referenceTime = "2024-08-29T00:00:00.000Z".
Proof. by vm_compute. Qed.

End MockRows.

(** X17.  The fallback series of the magnetometer has [max(1, ⌊minutes/5⌋)]
    rows, each with a number for [bx], no [bz] and the station asked for; its
    last row is always dated [2024-08-29T00:00:00.000Z], whatever the clock. *)
Theorem mockFmiBxData_shape `{JsHost} (station : string) (minutes : Z) :
  let rows := mockFmiBxData station minutes in
  length rows = Z.to_nat (Z.max 1 (minutes / 5))
  ∧ Forall (fun r => (∃ x, row_bx r = VNum x) ∧ row_bz r = VUndef
                     ∧ row_station r = Some station) rows
  ∧ ∃ r, last rows = Some r ∧ row_time r = "2024-08-29T00:00:00.000Z".
Proof.
  intros rows. subst rows. unfold mockFmiBxData. cbv zeta.
  split; [by rewrite length_map, length_seq|]. split.
  - apply Forall_forall. intros r Hr. apply list_elem_of_fmap in Hr as (k & -> & _).
    simpl. eauto.
  - destruct (Z.to_nat (Z.max 1 (minutes / 5))) as [|n] eqn:Hn; [lia|].
    rewrite seq_S, map_app. simpl. rewrite last_snoc. eexists. split; [done|]. simpl.
    replace (Z.max 1 (minutes / 5) - 1 - Z.of_nat n) with 0 by lia.
    apply referenceTime_iso.
Qed.

Section TextFacts.
Context `{JsHost}.

Lemma num2_range (l r : list ascii) (v : Z) : num2 l = Some (v, r) → 0 ≤ v ≤ 99.
Proof.
  intros (a & b & _ & Ha & Hb & ->)%num2_inv.
  apply digitVal_range in Ha, Hb. lia.
Qed.

Lemma num4_range (l r : list ascii) (v : Z) : num4 l = Some (v, r) → 0 ≤ v ≤ 9999.
Proof.
  unfold num4. destruct (num2 l) as [[hi r1]|] eqn:H1; [|discriminate].
  destruct (num2 r1) as [[lo r2]|] eqn:H2; [|discriminate]. intros [= <- _].
  apply num2_range in H1, H2. lia.
Qed.

(** [Date.UTC] of the fields of a line is always a date. *)
Lemma dateUTC_some (y m d h mi s : Z) :
  0 ≤ y ≤ 9999 → -1 ≤ m ≤ 98 → 0 ≤ d ≤ 99 → 0 ≤ h ≤ 99 → 0 ≤ mi ≤ 99 → 0 ≤ s ≤ 99 →
  is_Some (dateUTC y m d h mi s).
Proof.
  intros Hy Hm Hd Hh Hmi Hs. unfold dateUTC, timeClip.
  set (yr := if (0 <=? y) && (y <=? 99) then 1900 + y else y).
  assert (0 ≤ yr ≤ 9999) as Hyr by (subst yr; destruct (_ && _) eqn:E; lia).
  clearbody yr.
  match goal with |- is_Some (if ?c then _ else _) => assert (c = true) as ->; [|by eexists] end.
  apply Z.leb_le. unfold daysFromCivil, msPerDay, msPerHour, msPerMinute.
  assert (0 ≤ m mod 12 ≤ 11) as Hmn by (Z.div_mod_to_equations; lia).
  assert (-1 ≤ m / 12 ≤ 8) as Hq by (Z.div_mod_to_equations; lia).
  set (mn := m mod 12) in *. set (q := m / 12) in *. clearbody mn q.
  destruct (mn + 1 <=? 2) eqn:E1; destruct (2 <? mn + 1) eqn:E2;
    Z.div_mod_to_equations; lia.
Qed.

Lemma matchLine_date (line : string) (t : option Z) (x y z : string) :
  matchLine line = Some (t, x, y, z) → is_Some t.
Proof.
  unfold matchLine. intros Hm. simplify_option_eq.
  repeat match goal with
         | Hn : num2 _ = Some (?p) |- _ =>
             destruct p; apply num2_range in Hn
         | Hn : num4 _ = Some (?p) |- _ =>
             destruct p; apply num4_range in Hn
         end.
  simpl in *. apply dateUTC_some; lia.
Qed.

Lemma textStep_some (d : textData) (line : string) :
  textParallel d →
  ∃ d', textStep (Some d) line = Some d' ∧ textParallel d'
        ∧ td_station d' = td_station d
        ∧ (length (td_times d') ≤ S (length (td_times d)))%nat.
Proof.
  intros (Hx & Hy & Hz). unfold textStep. simpl.
  destruct (matchLine line) as [[[[t x] y] z]|] eqn:Hm.
  - destruct (matchLine_date _ _ _ _ _ Hm) as [tv ->]. simpl.
    eexists. split; [done|]. unfold textParallel. simpl. rewrite !length_app. simpl.
    repeat split; lia.
  - exists d. repeat split; try done. lia.
Qed.

Lemma textLoop_some (lines : list string) (d : textData) :
  textParallel d →
  ∃ d', foldl textStep (Some d) lines = Some d' ∧ textParallel d'
        ∧ td_station d' = td_station d
        ∧ (length (td_times d') ≤ length (td_times d) + length lines)%nat.
Proof.
  revert d. induction lines as [|line lines IH]; intros d Hd; cbn [foldl].
  - exists d. repeat split; try done; try apply Hd. simpl. lia.
  - destruct (textStep_some d line Hd) as (d1 & -> & H1 & Hs1 & Hl1).
    destruct (IH d1 H1) as (d' & -> & H' & Hs' & Hl').
    exists d'. repeat split; try done; try apply H'; [congruence|simpl; lia].
Qed.

End TextFacts.

(** X18.  For a valid station the full-day text endpoint answers every
    upstream body with status 200, whatever its text: no line makes the
    parser fail.  The payload names the station and its [bx], [by] and [bz]
    arrays have one element per element of [times], which are no more than
    the lines of the text. *)
Theorem textdata_body_always_parses `{JsHost} (q : query) (text : string) (s : server) :
  toUpperCase (paramOr q "station" "") ∈ validStations →
  ∃ d, (textdataHandler q (Body text) s).1 = Sent d
       ∧ td_station d = toUpperCase (paramOr q "station" "")
       ∧ textParallel d
       ∧ (length (td_times d) ≤ length (splitLines text))%nat.
Proof.
  intros Hst. unfold textdataHandler. rewrite bool_decide_eq_true_2 by done.
  unfold parseText.
  destruct (textLoop_some (List.filter keepLine (splitLines text))
              (TextData (toUpperCase (paramOr q "station" "")) [] [] [] []
                        infinity neg_infinity infinity neg_infinity))
    as (d & -> & Hp & Hs & Hl); [by repeat split|].
  exists d. split; [done|]. split; [done|]. split; [done|].
  pose proof (filter_length_le keepLine (splitLines text)). simpl in Hl. lia.
Qed.

Section WeatherTime.
Context `{JsHost} `{Config}.

Lemma parseIso_nonempty (s : string) (r : civil * zone) : parseIso s = Some r → s ≠ "".
Proof. by intros Hp ->. Qed.

End WeatherTime.

(** X19.  When the weather answer carries a time in the ECMAScript format
    without offset, the payload's [updatedAt] is that time read as UTC,
    whatever the time zone of the host; the coordinates are the ones passed
    in, the temperature is rounded to one decimal, and a temperature or
    cloud cover that is no finite number is [null]. *)
Theorem buildWeather_reads_time_as_utc `{JsHost} `{Config} (lat lon : number)
        (cur : weatherCurrent) (clock : Z) (s : string) (c : civil) :
  current_time cur = Some s → parseIso s = Some (c, ZoneAbsent) → validCivil c = true →
  ∃ d, buildWeather lat lon (Some cur) clock = Some d
       ∧ wx_updatedAt d = isoString (utcMillis c)
       ∧ wx_latitude d = lat ∧ wx_longitude d = lon
       ∧ wx_temperatureC d = round1 (finiteField (temperature_2m cur))
       ∧ wx_cloudCover d = finiteField (cloud_cover cur).
Proof.
  intros Ht Hp Hv. unfold buildWeather. simpl. rewrite Ht.
  destruct s as [|a r]; [by apply parseIso_nonempty in Hp|].
  unfold newDate. rewrite (parseIso_append_Z _ _ Hp), Hv. simpl.
  destruct (civil_ranges _ _ Hp Hv) as (? & ? & ? & ? & ? & ? & ?).
  rewrite utcMillis_in_range by done. simpl.
  eexists. split; [done|]. simpl. repeat split.
  by destruct (finiteField (temperature_2m cur)).
Qed.

Module PayloadWitnesses.
Import Demo XmlExample EndpointExample ServerExample.

Lemma parseFmiMagnetometerXml_one_component_example :
  Forall oneSided (parseFmiMagnetometerXml twoBlocks).
Proof.
  apply parseFmiMagnetometerXml_one_component.
  repeat constructor; by eexists.
Defined.

Lemma solarwind_series_parallel_example :
  ∃ d, (solarwindHandler laterCall NetworkError NetworkError
          (solarwindHandler firstCall (Body SolarwindExample.feedA)
                            (Body SolarwindExample.feedB) startServer).2).1 = Sent d
       ∧ solarwindParallel d.
Proof.
  apply solarwind_series_parallel.
  eapply running_step; [apply running_start|apply serves_solarwind].
Defined.

Lemma kp_series_parallel_example :
  ∃ d, (kpHandler laterCall NetworkError
          (kpHandler firstCall (Body []) startServer).2).1 = Sent d
       ∧ kpParallel d.
Proof.
  apply kp_series_parallel.
  eapply running_step; [apply running_start|apply serves_kp].
Defined.

Lemma textdata_body_always_parses_example :
  ∃ d, (textdataHandler kevQuery (Body dump) startServer).1 = Sent d
       ∧ td_station d = toUpperCase (paramOr kevQuery "station" "")
       ∧ textParallel d
       ∧ (length (td_times d) ≤ length (splitLines dump))%nat.
Proof.
  apply textdata_body_always_parses. apply (bool_decide_unpack _). by vm_compute.
Defined.

Lemma buildWeather_reads_time_as_utc_example :
  ∃ d, buildWeather 60.4728%float 26.3042%float (Some current) 0 = Some d
       ∧ wx_updatedAt d = isoString (utcMillis (Civil 2024 9 1 10 0 0 0))
       ∧ wx_latitude d = 60.4728%float ∧ wx_longitude d = 26.3042%float
       ∧ wx_temperatureC d = round1 (finiteField (temperature_2m current))
       ∧ wx_cloudCover d = finiteField (cloud_cover current).
Proof.
  apply (buildWeather_reads_time_as_utc _ _ current 0 "2024-09-01T10:00").
  - reflexivity.
  - by vm_compute.
  - by vm_compute.
Defined.

End PayloadWitnesses.

(** ** The order of the chart *)

Section ChartOrder.
Context `{JsHost} `{Config}.

Lemma marked_tag_reads (tag : string) :
  hasTzMarker tag = true → contains " " tag = false → parseToUTC tag = newDate tag.
Proof.
  intros Hm Hsp. unfold parseToUTC. by rewrite Hm, replaceFirst_absent.
Qed.

Lemma StronglySorted_map_within {A B} (R : A → A → Prop) (R' : B → B → Prop)
      (f : A → B) (l : list A) :
  StronglySorted R l →
  (∀ a b, a ∈ l → b ∈ l → R a b → R' (f a) (f b)) →
  StronglySorted R' (map f l).
Proof.
  induction 1 as [|a l Hl IH Ha]; intros Hf; simpl; constructor.
  - apply IH. intros x y Hx Hy. apply Hf; by right.
  - apply Forall_forall. intros y Hy. apply list_elem_of_fmap in Hy as (x & -> & Hx).
    apply Hf; [by left|by right|]. rewrite Forall_forall in Ha. by apply Ha.
Qed.

End ChartOrder.

(** X20.  When every tag of the two feeds carries a zone marker and no
    space, so that the sort and the chart read it as the same instant, the
    [times] of the live payload ascend: each is at or before the ones after
    it, as instants moved by [TIME_OFFSET_MIN]. *)
Theorem chart_times_ascend_for_marked_tags `{JsHost} `{Config}
        (plasma mag : list record) (clock : Z) :
  Forall (fun r => hasTzMarker (time_tag r) = true ∧ contains " " (time_tag r) = false
                   ∧ ∃ t, newDate (time_tag r) = Some t ∧ fourDigitYear t
                          ∧ fourDigitYear (t + TIME_OFFSET_MIN * 60 * 1000))
         (plasma ++ mag) →
  StronglySorted utcLe (times (buildSolarwind plasma mag clock)).
Proof.
  intros Hall.
  destruct (chart_series_parallel plasma mag clock) as (_ & [older Hsplit] & -> & _).
  assert (StronglySorted utcLe (tailTimes plasma mag)) as Hs.
  { apply chart_times_ascending_when_tags_agree. eapply Forall_impl; [exact Hall|].
    intros r (Hm & Hsp & t & Ht & _). rewrite (marked_tag_reads _ Hm Hsp), Ht. eauto. }
  apply (StronglySorted_map_within utcLe utcLe stamp _ Hs).
  assert (∀ a, a ∈ tailTimes plasma mag →
            ∃ t, parseToUTC a = Some t
                 ∧ parseToUTC (stamp a) = Some (t + TIME_OFFSET_MIN * 60 * 1000)) as Hread.
  { intros a Ha.
    assert (a ∈ unionTimes plasma mag) as Hu by (rewrite Hsplit, elem_of_app; by right).
    apply elem_of_unionTimes in Hu. rewrite <- elem_of_app, <- map_app in Hu.
    apply list_elem_of_fmap in Hu as (r & -> & Hr).
    rewrite Forall_forall in Hall. destruct (Hall r Hr) as (Hm & Hsp & t & Ht & Hy & Hy').
    exists t. rewrite (marked_tag_reads _ Hm Hsp). split; [done|].
    apply stamp_reads; [|done..]. by rewrite (marked_tag_reads _ Hm Hsp). }
  intros a b Ha Hb. unfold utcLe.
  destruct (Hread a Ha) as (ta & -> & ->). destruct (Hread b Hb) as (tb & -> & ->). lia.
Qed.

(** ** The bounding box of a radar tile *)

Section FloatOrder.

Lemma SFcompare_antisym (x y : spec_float) :
  SFcompare y x = option_map CompOpp (SFcompare x y).
Proof.
  destruct x as [s1|s1| |s1 m1 e1], y as [s2|s2| |s2 m2 e2]; simpl;
    try destruct s1; try destruct s2; try reflexivity;
    rewrite (Z.compare_antisym e1 e2); destruct (e1 ?= e2)%Z; simpl; try reflexivity;
    rewrite ?CompOpp_involutive, ?Pos.compare_cont_antisym; reflexivity.
Qed.

Lemma is_nan_false (a : float) : PrimFloat.is_nan a = false → Prim2SF a ≠ S754_nan.
Proof.
  unfold PrimFloat.is_nan. rewrite FloatAxioms.eqb_spec. intros Hn Ha. rewrite Ha in Hn. discriminate.
Qed.

Lemma compare_some (a b : float) :
  PrimFloat.is_nan a = false → PrimFloat.is_nan b = false →
  ∃ c, SFcompare (Prim2SF a) (Prim2SF b) = Some c.
Proof.
  intros Ha%is_nan_false Hb%is_nan_false.
  destruct (Prim2SF a) as [| | |[] ? ?], (Prim2SF b) as [| | |[] ? ?]; simpl; try done; eauto.
Qed.

Lemma ltb_leb (a b : float) : (a <? b)%float = true → (a <=? b)%float = true.
Proof.
  rewrite FloatAxioms.ltb_spec, FloatAxioms.leb_spec. unfold SFltb, SFleb.
  by destruct (SFcompare _ _) as [[]|].
Qed.

(** Of two numbers neither below the other, each is at most the other. *)
Lemma not_ltb_leb (a b : float) :
  PrimFloat.is_nan a = false → PrimFloat.is_nan b = false →
  (b <? a)%float = false → (a <=? b)%float = true.
Proof.
  intros Ha Hb. destruct (compare_some a b Ha Hb) as [c Hc].
  rewrite FloatAxioms.ltb_spec, FloatAxioms.leb_spec. unfold SFltb, SFleb.
  rewrite (SFcompare_antisym (Prim2SF a) (Prim2SF b)), Hc. by destruct c.
Qed.

Lemma leb_not_ltb (a b : float) : (a <=? b)%float = true → (b <? a)%float = false.
Proof.
  rewrite FloatAxioms.ltb_spec, FloatAxioms.leb_spec. unfold SFltb, SFleb.
  rewrite (SFcompare_antisym (Prim2SF a) (Prim2SF b)).
  by destruct (SFcompare (Prim2SF a) (Prim2SF b)) as [[]|].
Qed.

Lemma finite_not_nan (v : number) : isFinite v = true → PrimFloat.is_nan v = false.
Proof.
  unfold isFinite, PrimFloat.is_finite. by destruct (PrimFloat.is_nan v).
Qed.

End FloatOrder.

(** X21.  A finite coordinate of the bounding box is sent upstream clamped
    to the Web Mercator range: the result lies between [-20037508.342789244]
    and [20037508.342789244], is the coordinate itself when that lies in the
    range, and is otherwise one of the two bounds. *)
Theorem clamp_within_bounds `{JsHost} (v : number) :
  isFinite v = true →
  ((- MERC_MAX <=? clamp v)%float = true ∧ (clamp v <=? MERC_MAX)%float = true)
  ∧ (clamp v = v ∨ clamp v = (- MERC_MAX)%float ∨ clamp v = MERC_MAX)
  ∧ ((- MERC_MAX <=? v)%float = true → (v <=? MERC_MAX)%float = true → clamp v = v).
Proof.
  intros Hv%finite_not_nan. unfold clamp. fold MERC_MAX.
  change (-20037508.342789244)%float with (- MERC_MAX)%float.
  set (lo := (- MERC_MAX)%float). set (hi := MERC_MAX).
  assert (PrimFloat.is_nan hi = false) as Hhi by (by vm_compute).
  assert (PrimFloat.is_nan lo = false) as Hlo by (by vm_compute).
  assert ((lo <=? hi)%float = true) as Hlh by (by vm_compute).
  assert ((lo <=? lo)%float = true) as Hll by (by vm_compute).
  assert ((hi <=? hi)%float = true) as Hhh by (by vm_compute).
  assert (PrimFloat.get_sign hi = false) as Hsh by (by vm_compute).
  assert (PrimFloat.get_sign lo = true) as Hsl by (by vm_compute).
  (* the minimum with the upper bound *)
  assert (∃ m, Math_min hi v = m ∧ PrimFloat.is_nan m = false ∧ (m <=? hi)%float = true
               ∧ (m = v ∨ m = hi) ∧ ((v <=? hi)%float = true → m = v))
    as (m & -> & Hm & Hmh & Hmv & Hmin).
  { unfold Math_min. rewrite Hhi, Hv, Hsh. simpl.
    destruct (hi <? v)%float eqn:E1.
    - exists hi. repeat split; auto. intros Hle. apply leb_not_ltb in Hle. congruence.
    - destruct (v <? hi)%float eqn:E2; exists v; repeat split; auto using ltb_leb.
      by apply not_ltb_leb. }
  unfold Math_max. rewrite Hlo, Hm, Hsl. simpl.
  destruct (lo <? m)%float eqn:E1; [|destruct (m <? lo)%float eqn:E2].
  - split; [split; [by apply ltb_leb|done]|]. split; [destruct Hmv as [->| ->]; auto|].
    intros _ Hle. by apply Hmin.
  - split; [done|]. split; [auto|]. intros Hle1 Hle2. rewrite (Hmin Hle2) in E2.
    apply leb_not_ltb in Hle1. congruence.
  - split; [split; [by apply not_ltb_leb|done]|]. split; [destruct Hmv as [->| ->]; auto|].
    intros _ Hle. by apply Hmin.
Qed.

Module ChartWitnesses.
Import Demo MarkedExample.

Lemma clamp_within_bounds_example :
  ((- MERC_MAX <=? clamp 30000000%float)%float = true ∧ (clamp 30000000%float <=? MERC_MAX)%float = true)
  ∧ (clamp 30000000%float = 30000000%float ∨ clamp 30000000%float = (- MERC_MAX)%float
     ∨ clamp 30000000%float = MERC_MAX)
  ∧ ((- MERC_MAX <=? 30000000%float)%float = true → (30000000%float <=? MERC_MAX)%float = true →
     clamp 30000000%float = 30000000%float).
Proof. apply (clamp_within_bounds 30000000%float). reflexivity. Defined.

Lemma chart_times_ascend_example :
  StronglySorted utcLe (times (buildSolarwind plasma mag 0)).
Proof.
  apply chart_times_ascend_for_marked_tags.
  repeat constructor; try (eexists; split; [vm_compute; reflexivity|];
                           unfold fourDigitYear; simpl; lia).
Defined.

End ChartWitnesses.
